(** * ayon-ftrack: assembly of the ftrack component list

    Shallow embedding of [IntegrateFtrackInstance]
    (client/ayon_ftrack/plugins/publish/integrate_ftrack_instances.py).

    Conventions of the embedding.
    - A Python dict read with [.get] has [option] fields; a key read by
      subscript is a plain record field (the model covers inputs that
      carry those keys).
    - Python objects that are shared and mutated (the thumbnail item and the
      thumbnail "_src" component, both referenced from
      [thumbnail_data_items] and from [component_list]) live in an explicit
      heap; [component_list] is a list of locations.
    - A Python [float] is an exact rational: rounding is not modelled.
    - [json.dumps(obj)] is kept as the object it serialises, keys in
      insertion order.
    - A raised exception is a [Raise] result. *)

From Stdlib Require Import String Ascii List ZArith QArith Bool Lia.
From Stdlib Require Import DecimalString.
From stdpp Require Import base list strings gmap.

Local Open Scope string_scope.

(** ** Python values *)

Inductive number :=
  | NInt (z : Z)
  | NFloat (q : Q).

Inductive pyval :=
  | PNone
  | PNum (n : number)
  | PStr (s : string).

Definition number_truthy (n : number) : bool :=
  match n with
  | NInt z => negb (z =? 0)%Z
  | NFloat q => negb (Qnum q =? 0)%Z
  end.

Definition str_truthy (s : string) : bool := negb (String.eqb s "").

Definition truthy (v : pyval) : bool :=
  match v with
  | PNone => false
  | PNum n => number_truthy n
  | PStr s => str_truthy s
  end.

(** [float(n)] *)
Definition to_float (n : number) : Q :=
  match n with
  | NInt z => inject_Z z
  | NFloat q => q
  end.

(** [a or b] when [a] is None or a number and [b] is a number. *)
Definition or_number (a : option number) (b : number) : number :=
  match a with
  | Some n => if number_truthy n then n else b
  | None => b
  end.

Definition opt_int (o : option Z) : pyval :=
  match o with Some z => PNum (NInt z) | None => PNone end.

Definition opt_str (o : option string) : pyval :=
  match o with Some s => PStr s | None => PNone end.

(** [x in l] for a list (or set) of strings. *)
Definition mem_str (x : string) (l : list string) : bool :=
  existsb (String.eqb x) l.

(** [x in l] when [x] may be None: None is never a member of a list of
    strings. *)
Definition opt_mem_str (x : option string) (l : list string) : bool :=
  match x with Some s => mem_str s l | None => false end.

Definition opt_str_truthy (x : option string) : bool :=
  match x with Some s => str_truthy s | None => false end.

(** [a == b] on values that are None or a string. *)
Definition opt_str_eqb (a b : option string) : bool :=
  match a, b with
  | Some x, Some y => String.eqb x y
  | None, None => true
  | _, _ => false
  end.

(** ** Exceptions *)

Inductive exn :=
  | ValueError (msg : string)
  | TypeError (msg : string)
  | KeyError (key : string).

Inductive result (A : Type) :=
  | Ok (a : A)
  | Raise (e : exn).
Arguments Ok {A} a.
Arguments Raise {A} e.

#[global] Instance result_ret : MRet result := fun _ a => Ok a.
#[global] Instance result_bind : MBind result := fun _ _ f m =>
  match m with
  | Ok a => f a
  | Raise e => Raise e
  end.

(** ** Metadata maps *)

(** A metadata value is a plain value or the string [json.dumps] returns. *)
Inductive meta_value :=
  | MVal (v : pyval)
  | MJson (obj : list (string * pyval)).

Abbreviation metadata := (gmap string meta_value).

(** ** Inputs *)

(** A representation: the keys that are read. [repre_tags] is the list
    under "tags", empty when the key is missing; a "tags" key that holds
    None is outside the model: line 154 reads it as the empty list, the
    membership tests of lines 190, 250, 351 and 447 raise TypeError on it.
    The numeric keys hold values that [float] and [int] accept. *)
Record Repre := {
  repre_name : string;
  repre_ext : string;
  repre_tags : list string;
  repre_thumbnail : bool;
  repre_outputName : option string;
  repre_width : option Z;
  repre_height : option Z;
  repre_fps : option number;
  repre_frameStartFtrack : option Z;
  repre_frameEndFtrack : option Z
}.

(** One stream of the ffprobe report. [duration] holds the number that
    [float(stream_duration)] reads; a duration that [float] rejects (the
    ValueError of line 656) is outside the model, and the arithmetic on
    floats is exact. *)
Record Stream := {
  codec_type : string;
  codec_long_name : option string;
  codec : option string;
  pix_fmt : option string;
  width : option Z;
  height : option Z;
  r_frame_rate : option string;
  duration : option Q
}.

Record VersionEntity := {
  ve_id : string;
  ve_version : Z
}.

(** [instance.data] and the keys of [instance.context.data] that are read. *)
Record Instance := {
  representations : option (list Repre);
  version : option Z;
  productType : string;
  productName : string;
  ftrackFamily : option string;
  versionEntity : option VersionEntity;
  folderPath : string;
  fps : option number;
  frameStart : Z;
  frameEnd : Z;
  task_type : option string;
  context_comment : option string;
  context_fps : number;
  context_hostName : string
}.

Record StatusProfile := {
  profile_status : string
}.

(** Class attributes of the plugin, overridden from settings. *)
Record Config := {
  product_type_mapping : list (string * string);
  keep_first_product_name_for_review : bool;
  upload_reviewable_with_origin_name : bool;
  asset_versions_status_profiles : list StatusProfile;
  additional_metadata_keys : list string
}.

(** Collaborators imported from ayon_core, os.path and the package
    constants. *)
Record Env := {
  get_publish_repre_path : Instance -> Repre -> bool -> option string;
  (* None: the probe raised *)
  get_ffprobe_streams : string -> option (list Stream);
  (* None: ValueError *)
  convert_ffprobe_fps_to_float : string -> option Q;
  filter_profiles :
    list StatusProfile -> string -> string -> option string ->
    option StatusProfile;
  VIDEO_EXTENSIONS : list string;
  IMAGE_EXTENSIONS : list string;
  ayon_ftrack_version : string;
  get_ayon_launcher_version : string;
  os_path_splitext : string -> string * string;
  os_path_basename : string -> string;
  (* str.lower(), which is Unicode-aware *)
  str_lower : string -> string;
  CUST_ATTR_KEY_SERVER_ID : string;
  CUST_ATTR_KEY_SERVER_PATH : string
}.

Definition metadata_keys_to_label : list (string * string) :=
  [ ("ayon_ftrack_version", "AYON ftrack version");
    ("ayon_launcher_version", "AYON launcher version");
    ("frame_start", "Frame start");
    ("frame_end", "Frame end");
    ("duration", "Duration");
    ("width", "Resolution width");
    ("height", "Resolution height");
    ("fps", "FPS");
    ("codec", "Codec") ].

Fixpoint assoc {V : Type} (k : string) (l : list (string * V)) : option V :=
  match l with
  | [] => None
  | (k', v) :: l' => if String.eqb k' k then Some v else assoc k l'
  end.

(** [self.metadata_keys_to_label[key]] *)
Definition label_of (key : string) : result string :=
  match assoc key metadata_keys_to_label with
  | Some l => Ok l
  | None => Raise (KeyError key)
  end.

Section Metadata.

Context (E : Env) (cfg : Config).

Definition _is_repre_video (repre : Repre) : bool :=
  mem_str ("." ++ repre_ext repre) (VIDEO_EXTENSIONS E).

Definition _is_repre_image (repre : Repre) : bool :=
  mem_str ("." ++ repre_ext repre) (IMAGE_EXTENSIONS E).

(** The [for key, value in ...] loops of
    [_prepare_video_component_metadata]: [skip_falsy] is false for the first
    loop (version entries) and true for the second, which also skips a value
    that is not truthy. *)
Fixpoint add_labeled (skip_falsy : bool) (pairs : list (string * pyval))
    (md : metadata) : result metadata :=
  match pairs with
  | [] => Ok md
  | (key, value) :: rest =>
      if (skip_falsy && negb (truthy value))
         || negb (mem_str key (additional_metadata_keys cfg))
      then add_labeled skip_falsy rest md
      else
        label ← label_of key;
        add_labeled skip_falsy rest (<[label := MVal value]> md)
  end.

(** Local variables of the loop over the video streams. *)
Record StreamScan := {
  stream_width : option Z;
  stream_height : option Z;
  stream_fps : option Q;
  frame_out : option Q;
  codec_label : option string
}.

Definition scan_init : StreamScan :=
  {| stream_width := None; stream_height := None; stream_fps := None;
     frame_out := None; codec_label := None |}.

Definition opt_int_truthy (o : option Z) : bool := truthy (opt_int o).

(** [for video_stream in video_streams: ...] with its [continue] and
    [break]. *)
Fixpoint scan_video_streams (video_streams : list Stream) (st : StreamScan)
    : StreamScan :=
  match video_streams with
  | [] => st
  | video_stream :: rest =>
      let codec_label0 :=
        if opt_str_truthy (codec_long_name video_stream)
        then codec_long_name video_stream
        else codec video_stream in
      let codec_label1 :=
        match codec_label0 with
        | Some c =>
            if str_truthy c then
              match pix_fmt video_stream with
              | Some p => if str_truthy p then Some (c ++ " (" ++ p ++ ")")
                          else Some c
              | None => Some c
              end
            else Some c
        | None => None
        end in
      let tmp_width := width video_stream in
      let tmp_height := height video_stream in
      let sized := opt_int_truthy tmp_width && opt_int_truthy tmp_height in
      let st1 :=
        {| stream_width := if sized then tmp_width else stream_width st;
           stream_height := if sized then tmp_height else stream_height st;
           stream_fps := stream_fps st;
           frame_out := frame_out st;
           codec_label := codec_label1 |} in
      match r_frame_rate video_stream, duration video_stream with
      | Some input_framerate, Some stream_duration =>
          match convert_ffprobe_fps_to_float E input_framerate with
          | None => scan_video_streams rest st1
          | Some f =>
              {| stream_width := tmp_width;
                 stream_height := tmp_height;
                 stream_fps := Some f;
                 frame_out := Some (stream_duration * f)%Q;
                 codec_label := codec_label1 |}
          end
      | _, _ => scan_video_streams rest st1
      end
  end.

(** The values the second loop of [_prepare_video_component_metadata]
    walks through, computed from the scan of the streams. *)
Record VideoFields := {
  vf_fps : number;
  vf_frame_start : Z;
  vf_frame_end : Z;
  vf_duration : Z;
  vf_scan : StreamScan
}.

Definition video_fields (instance : Instance) (repre : Repre)
    (video_streams : list Stream) : VideoFields :=
  let sc := scan_video_streams video_streams scan_init in
  let instance_fps :=
    match fps instance with
    | Some f => f
    | None => context_fps instance
    end in
  let repre_fps_f := NFloat <$> (to_float <$> repre_fps repre) in
  let fps_v :=
    or_number (NFloat <$> stream_fps sc) (or_number repre_fps_f instance_fps) in
  let '(frame_start, frame_end) :=
    match repre_frameStartFtrack repre, repre_frameEndFtrack repre with
    | Some s, Some e => (s, e)
    | _, _ => (frameStart instance, frameEnd instance)
    end in
  {| vf_fps := fps_v;
     vf_frame_start := frame_start;
     vf_frame_end := frame_end;
     vf_duration := (frame_end - frame_start + 1)%Z;
     vf_scan := sc |}.

Definition video_scalars (vf : VideoFields) : list (string * pyval) :=
  [ ("fps", PNum (vf_fps vf));
    ("frame_start", PNum (NInt (vf_frame_start vf)));
    ("frame_end", PNum (NInt (vf_frame_end vf)));
    ("duration", PNum (NInt (vf_duration vf)));
    ("width", opt_int (stream_width (vf_scan vf)));
    ("height", opt_int (stream_height (vf_scan vf)));
    ("fps", PNum (vf_fps vf));
    ("codec", opt_str (codec_label (vf_scan vf))) ].

Definition version_entries : list (string * pyval) :=
  [ ("ayon_ftrack_version", PStr (ayon_ftrack_version E));
    ("ayon_launcher_version", PStr (get_ayon_launcher_version E)) ].

Definition is_video_stream (s : Stream) : bool :=
  String.eqb (codec_type s) "video".

(** [streams = []; try: streams = get_ffprobe_streams(path)
    except Exception: ...] *)
Definition probe_streams (path : string) : list Stream :=
  match get_ffprobe_streams E path with
  | Some l => l
  | None => []
  end.

Definition probe_video_streams (path : string) : list Stream :=
  List.filter is_video_stream (probe_streams path).

Definition _prepare_video_component_metadata (instance : Instance)
    (repre : Repre) (component_path : option string) (is_review : bool)
    : result metadata :=
  md0 ← add_labeled false version_entries ∅;
  path ← match component_path with
         | Some p => Ok p
         | None => Raise (TypeError "expected str, bytes or os.PathLike object")
         end;
  let extension := snd (os_path_splitext E path) in
  let video_streams := probe_video_streams path in
  if (match video_streams with [] => true | _ => false end)
     && negb (String.eqb extension ".exr")
  then Ok md0
  else
    let vf := video_fields instance repre video_streams in
    let sc := vf_scan vf in
    md1 ← add_labeled true (video_scalars vf) md0;
    if negb is_review then
      let ftr_meta0 :=
        if number_truthy (vf_fps vf)
        then [("frameRate", PNum (vf_fps vf))] else [] in
      let ftr_meta1 :=
        if opt_int_truthy (stream_width sc) && opt_int_truthy (stream_height sc)
        then (ftr_meta0 ++ [("width", opt_int (stream_width sc));
                            ("height", opt_int (stream_height sc))])%list
        else ftr_meta0 in
      Ok (<["ftr_meta" := MJson ftr_meta1]> md1)
    else
      let frame_out_v :=
        match frame_out sc with
        | Some f => if number_truthy (NFloat f) then NFloat f
                    else NInt (vf_duration vf)
        | None => NInt (vf_duration vf)
        end in
      Ok (<["ftr_meta" :=
              MJson [("frameIn", PNum (NInt 0));
                     ("frameOut", PNum frame_out_v);
                     ("frameRate", PNum (NFloat (to_float (vf_fps vf))))]]>
            md1).

(** [for stream in streams: if "width" in stream and "height" in stream] *)
Fixpoint first_sized_stream (streams : list Stream) : option (Z * Z) :=
  match streams with
  | [] => None
  | stream :: rest =>
      match width stream, height stream with
      | Some w, Some h => Some (w, h)
      | _, _ => first_sized_stream rest
      end
  end.

Definition _prepare_image_component_metadata (repre : Repre)
    (component_path : option string) : metadata :=
  let width0 := repre_width repre in
  let height0 := repre_height repre in
  let '(width1, height1) :=
    if negb (opt_int_truthy width0) || negb (opt_int_truthy height0) then
      let streams :=
        match component_path with
        | Some p => probe_streams p
        | None => []
        end in
      match first_sized_stream streams with
      | Some (w, h) => (Some w, Some h)
      | None => (width0, height0)
      end
    else (width0, height0) in
  if opt_int_truthy width1 && opt_int_truthy height1 then
    {[ "ftr_meta" :=
         MJson [("width", opt_int width1);
                ("height", opt_int height1);
                ("format", PStr "image")] ]}
  else ∅.

Definition _prepare_component_metadata (instance : Instance) (repre : Repre)
    (component_path : option string) (is_review : bool) : result metadata :=
  if _is_repre_video repre then
    _prepare_video_component_metadata instance repre component_path is_review
  else if _is_repre_image repre then
    Ok (_prepare_image_component_metadata repre component_path)
  else Ok ∅.

End Metadata.

(** ** Component items and the heap *)

Record ComponentData := {
  cd_name : string;
  cd_metadata : metadata
}.

(** One entry of the component list. The nested dicts ([assettype_data],
    [asset_data], [assetversion_data], [component_data]) are flattened: every
    item is a [copy.deepcopy] of the base item or of another item, so no
    nested dict is shared between two items. The "additional_data" key,
    always the empty dict, is left out. *)
Record ComponentItem := {
  assettype_short : string;
  asset_name : string;
  assetversion_version : Z;
  assetversion_comment : string;
  assetversion_status_name : option string;
  assetversion_custom_attributes : gmap string string;
  component_overwrite : bool;
  thumbnail : bool;
  component_data : option ComponentData;
  component_path : option string;
  component_location : option string;
  component_location_name : option string
}.

Definition set_asset_name (n : string) (c : ComponentItem) : ComponentItem :=
  {| assettype_short := assettype_short c;
     asset_name := n;
     assetversion_version := assetversion_version c;
     assetversion_comment := assetversion_comment c;
     assetversion_status_name := assetversion_status_name c;
     assetversion_custom_attributes := assetversion_custom_attributes c;
     component_overwrite := component_overwrite c;
     thumbnail := thumbnail c;
     component_data := component_data c;
     component_path := component_path c;
     component_location := component_location c;
     component_location_name := component_location_name c |}.

Definition set_thumbnail (b : bool) (c : ComponentItem) : ComponentItem :=
  {| assettype_short := assettype_short c;
     asset_name := asset_name c;
     assetversion_version := assetversion_version c;
     assetversion_comment := assetversion_comment c;
     assetversion_status_name := assetversion_status_name c;
     assetversion_custom_attributes := assetversion_custom_attributes c;
     component_overwrite := component_overwrite c;
     thumbnail := b;
     component_data := component_data c;
     component_path := component_path c;
     component_location := component_location c;
     component_location_name := component_location_name c |}.

Definition set_component_data (d : ComponentData) (c : ComponentItem)
    : ComponentItem :=
  {| assettype_short := assettype_short c;
     asset_name := asset_name c;
     assetversion_version := assetversion_version c;
     assetversion_comment := assetversion_comment c;
     assetversion_status_name := assetversion_status_name c;
     assetversion_custom_attributes := assetversion_custom_attributes c;
     component_overwrite := component_overwrite c;
     thumbnail := thumbnail c;
     component_data := Some d;
     component_path := component_path c;
     component_location := component_location c;
     component_location_name := component_location_name c |}.

Definition set_component_path (p : option string) (c : ComponentItem)
    : ComponentItem :=
  {| assettype_short := assettype_short c;
     asset_name := asset_name c;
     assetversion_version := assetversion_version c;
     assetversion_comment := assetversion_comment c;
     assetversion_status_name := assetversion_status_name c;
     assetversion_custom_attributes := assetversion_custom_attributes c;
     component_overwrite := component_overwrite c;
     thumbnail := thumbnail c;
     component_data := component_data c;
     component_path := p;
     component_location := component_location c;
     component_location_name := component_location_name c |}.

Definition set_component_location_name (n : string) (c : ComponentItem)
    : ComponentItem :=
  {| assettype_short := assettype_short c;
     asset_name := asset_name c;
     assetversion_version := assetversion_version c;
     assetversion_comment := assetversion_comment c;
     assetversion_status_name := assetversion_status_name c;
     assetversion_custom_attributes := assetversion_custom_attributes c;
     component_overwrite := component_overwrite c;
     thumbnail := thumbnail c;
     component_data := component_data c;
     component_path := component_path c;
     component_location := component_location c;
     component_location_name := Some n |}.

(** Component name of an item, [""] while [component_data] is None. *)
Definition component_name (c : ComponentItem) : string :=
  match component_data c with
  | Some d => cd_name d
  | None => ""
  end.

Definition component_metadata (c : ComponentItem) : metadata :=
  match component_data c with
  | Some d => cd_metadata d
  | None => ∅
  end.

Abbreviation loc := nat.
Abbreviation heap := (list ComponentItem).

(** A new object: its location is the next free index. *)
Definition alloc (h : heap) (c : ComponentItem) : loc * heap :=
  (length h, (h ++ [c])%list).

(** [obj["asset_data"]["name"] = n] on the object at [l]. *)
Definition rename (l : loc) (n : string) (h : heap) : heap :=
  alter (set_asset_name n) l h.

Definition rename_opt (o : option loc) (n : string) (h : heap) : heap :=
  match o with
  | Some l => rename l n h
  | None => h
  end.

(** [component_list.append(copy.deepcopy(obj))] when [obj] is not None:
    the location of the copy and the new heap. *)
Definition copy_opt (o : option loc) (h : heap) : option loc * heap :=
  match o with
  | Some l =>
      match h !! l with
      | Some c => let '(l', h') := alloc h c in (Some l', h')
      | None => (None, h)
      end
  | None => (None, h)
  end.

(** An entry of [thumbnail_data_items]. The "src_component" key is absent
    for a thumbnail tagged "delete". *)
Record ThumbData := {
  sync_key : option string;
  representation : Repre;
  item : loc;
  src_component : option loc
}.

Definition format_opt (o : option string) : string :=
  match o with
  | Some s => s
  | None => "None"
  end.

Definition no_match_warning (output_name : option string) : string :=
  "No matching thumbnail item found for output name '"
  ++ format_opt output_name ++ "'".

(** The test of the matcher's loop: the sync key of the thumbnail item is
    the output name of the review or one of its tags. *)
Definition binds (td : ThumbData) (review : Repre) : bool :=
  opt_str_eqb (sync_key td) (repre_outputName review)
  || opt_mem_str (sync_key td) (repre_tags review).

(** The matching thumbnail item and the warnings logged on the way. *)
Definition _get_matching_thumbnail_item (review_representation : Repre)
    (thumbnail_data_items : list ThumbData)
    (are_multiple_synced_thumbnails : bool)
    : option ThumbData * list string :=
  match thumbnail_data_items with
  | [] => (None, [])
  | _ :: _ =>
      if negb are_multiple_synced_thumbnails
      then (head thumbnail_data_items, [])
      else
        let output_name := repre_outputName review_representation in
        let tags := repre_tags review_representation in
        match
          List.find
            (fun thumb_item =>
               opt_str_eqb (sync_key thumb_item) output_name
               || opt_mem_str (sync_key thumb_item) tags)
            thumbnail_data_items
        with
        | Some thumb_item => (Some thumb_item, [])
        | None =>
            let warnings := [no_match_warning output_name] in
            match thumbnail_data_items with
            | first :: _ => (Some first, warnings)
            | [] => (None, (warnings ++ ["No thumbnail data items found"])%list)
            end
        end
  end.

(** ** Small string helpers used by [process] *)

(** [str.lower()] on strings of ASCII characters, for the environment of
    the concrete scenarios; [process] goes through [str_lower]. *)
Definition lower_ascii (c : ascii) : ascii :=
  let n := nat_of_ascii c in
  if (65 <=? n)%nat && (n <=? 90)%nat then ascii_of_nat (n + 32) else c.

Fixpoint lower (s : string) : string :=
  match s with
  | EmptyString => EmptyString
  | String c s' => String (lower_ascii c) (lower s')
  end.

Fixpoint zeros (n : nat) : string :=
  match n with
  | O => ""
  | S n' => "0" ++ zeros n'
  end.

(** ["v{:0>3}".format(z)] *)
Definition format_version (z : Z) : string :=
  let digits := NilZero.string_of_int (Z.to_int z) in
  "v" ++ zeros (3 - String.length digits) ++ digits.

(** Truth value of a path that may be None or empty. *)
Definition path_truthy (p : option string) : bool := opt_str_truthy p.

(** Monadic left fold: a [for] loop whose body may raise. *)
Fixpoint foldl_result {A B : Type} (f : A -> B -> result A) (l : list B)
    (a : A) : result A :=
  match l with
  | [] => Ok a
  | x :: l' => a' ← f a x; foldl_result f l' a'
  end.

Section Process.

Context (E : Env) (cfg : Config).

Definition unmanaged_location_name : string := "ftrack.unmanaged".
Definition ftrack_server_location_name : string := "ftrack.server".

Definition _get_asset_version_status_name (instance : Instance)
    : option string :=
  match asset_versions_status_profiles cfg with
  | [] => None
  | profiles =>
      match
        filter_profiles E profiles (productType instance)
          (context_hostName instance) (task_type instance)
      with
      | None => None
      | Some matching_profile =>
          if str_truthy (profile_status matching_profile)
          then Some (profile_status matching_profile)
          else None
      end
  end.

Definition _make_extended_component_name (component_item : ComponentItem)
    (repre : Repre) (iteration_index : nat) : option string :=
  if keep_first_product_name_for_review cfg && (iteration_index =? 0)%nat
  then None
  else Some (asset_name component_item ++ "_" ++ repre_name repre).

Definition _create_src_component (instance : Instance) (repre : Repre)
    (component_item : ComponentItem) (location : string)
    : result ComponentItem :=
  let c1 := set_thumbnail false component_item in
  let c2 := set_component_location_name location c1 in
  match component_data c2 with
  | None => Raise (TypeError "'NoneType' object is not subscriptable")
  | Some component_data0 =>
      md ← _prepare_component_metadata E cfg instance repre
             (component_path c2) false;
      Ok (set_component_data
            {| cd_name := cd_name component_data0 ++ "_src";
               cd_metadata := md |} c2)
  end.

(** Asset type: the "ftrackFamily" of the instance, else the
    case-insensitive product type mapping, else "upload". *)
Definition asset_type_of (instance : Instance) : string :=
  let product_type_low := str_lower E (productType instance) in
  let asset_type0 := ftrackFamily instance in
  let asset_type1 :=
    if opt_str_truthy asset_type0 then asset_type0
    else
      match
        List.find
          (fun item => String.eqb (str_lower E (fst item)) product_type_low)
          (product_type_mapping cfg)
      with
      | Some item => Some (snd item)
      | None => asset_type0
      end in
  match asset_type1 with
  | Some a => if str_truthy a then a else "upload"
  | None => "upload"
  end.

Definition av_custom_attributes_of (instance : Instance)
    : gmap string string :=
  match versionEntity instance with
  | Some version_entity =>
      let version_path :=
        folderPath instance ++ "/" ++ productName instance ++ "/"
        ++ format_version (ve_version version_entity) in
      <[CUST_ATTR_KEY_SERVER_PATH E := version_path]>
        (<[CUST_ATTR_KEY_SERVER_ID E := ve_id version_entity]> ∅)
  | None => ∅
  end.

Definition base_component_item_of (instance : Instance) (version_number : Z)
    : ComponentItem :=
  {| assettype_short := asset_type_of instance;
     asset_name := productName instance;
     assetversion_version := version_number;
     assetversion_comment :=
       match context_comment instance with
       | Some c => c
       | None => ""
       end;
     assetversion_status_name := _get_asset_version_status_name instance;
     assetversion_custom_attributes := av_custom_attributes_of instance;
     component_overwrite := false;
     thumbnail := false;
     component_data := None;
     component_path := None;
     component_location := None;
     component_location_name := None |}.

(** *** Filter types of representations *)

Record Buckets := {
  review_representations : list Repre;
  thumbnail_representations : list Repre;
  other_representations : list Repre;
  has_movie_review : bool
}.

Definition classify_step (instance : Instance) (b : Buckets) (repre : Repre)
    : Buckets :=
  let tags := repre_tags repre in
  if mem_str "publish_on_farm" tags then b
  else
    let repre_path := get_publish_repre_path E instance repre false in
    if repre_thumbnail repre || mem_str "thumbnail" tags then
      {| review_representations := review_representations b;
         thumbnail_representations :=
           (thumbnail_representations b ++ [repre])%list;
         other_representations := other_representations b;
         has_movie_review := has_movie_review b |}
    else if mem_str "ftrackreview" tags && path_truthy repre_path then
      {| review_representations := (review_representations b ++ [repre])%list;
         thumbnail_representations := thumbnail_representations b;
         other_representations := other_representations b;
         has_movie_review :=
           if _is_repre_video E repre then true else has_movie_review b |}
    else
      {| review_representations := review_representations b;
         thumbnail_representations := thumbnail_representations b;
         other_representations :=
           (other_representations b ++ [repre])%list;
         has_movie_review := has_movie_review b |}.

Definition classify (instance : Instance) (instance_repres : list Repre)
    : Buckets :=
  fold_left (classify_step instance) instance_repres
    {| review_representations := [];
       thumbnail_representations := [];
       other_representations := [];
       has_movie_review := false |}.

(** The output names appended to [synced_multiple_output_names]. *)
Definition synced_multiple_output_names (reviews thumbs : list Repre)
    : list (option string) :=
  flat_map
    (fun review_repre =>
       let review_output_name := repre_outputName review_repre in
       if negb (opt_str_truthy review_output_name) then []
       else
         flat_map
           (fun thumb_repre =>
              let thumb_output_name := repre_outputName thumb_repre in
              if (opt_str_truthy thumb_output_name
                  && opt_str_eqb thumb_output_name review_output_name)
                 || opt_mem_str thumb_output_name (repre_tags review_repre)
              then [thumb_output_name] else [])
           thumbs)
    reviews.

(** *** Create thumbnail components *)

Record ThumbState := {
  ts_heap : heap;
  ts_component_list : list loc;
  ts_thumbnail_data_items : list ThumbData;
  ts_thumbnail_item : option loc
}.

Definition thumbnail_step (instance : Instance)
    (base_component_item : ComponentItem) (have_reviews : bool)
    (st : ThumbState) (repre : Repre) : result ThumbState :=
  let repre_path := get_publish_repre_path E instance repre false in
  if negb (path_truthy repre_path) then Ok st
  else
    let thumbnail_item :=
      set_component_location_name ftrack_server_location_name
        (set_thumbnail true
           (set_component_data
              {| cd_name :=
                   if have_reviews then "thumbnail" else "ftrackreview-image";
                 cd_metadata :=
                   _prepare_image_component_metadata E repre repre_path |}
              (set_component_path repre_path base_component_item))) in
    let '(item_loc, h1) := alloc (ts_heap st) thumbnail_item in
    if negb (mem_str "delete" (repre_tags repre)) then
      src_comp ← _create_src_component instance repre thumbnail_item
                   unmanaged_location_name;
      let '(src_loc, h2) := alloc h1 src_comp in
      Ok {| ts_heap := h2;
            ts_component_list := (ts_component_list st ++ [src_loc])%list;
            ts_thumbnail_data_items :=
              (ts_thumbnail_data_items st ++
                 [{| sync_key := repre_outputName repre;
                     representation := repre;
                     item := item_loc;
                     src_component := Some src_loc |}])%list;
            ts_thumbnail_item := Some item_loc |}
    else
      Ok {| ts_heap := h1;
            ts_component_list := ts_component_list st;
            ts_thumbnail_data_items :=
              (ts_thumbnail_data_items st ++
                 [{| sync_key := repre_outputName repre;
                     representation := repre;
                     item := item_loc;
                     src_component := None |}])%list;
            ts_thumbnail_item := Some item_loc |}.

(** The test [if review_representations] that names the thumbnail item. *)
Definition have_reviews_of (b : Buckets) : bool :=
  match review_representations b with
  | [] => false
  | _ => true
  end.

Definition thumbnail_loop (instance : Instance)
    (base_component_item : ComponentItem) (b : Buckets)
    : result ThumbState :=
  foldl_result
    (thumbnail_step instance base_component_item (have_reviews_of b))
    (thumbnail_representations b)
    {| ts_heap := [];
       ts_component_list := [];
       ts_thumbnail_data_items := [];
       ts_thumbnail_item := None |}.

(** *** Create review components *)

(** What one iteration of the review loop appends to [component_list], in
    the order of [entries_locs]: the copy of the matched thumbnail item, the
    copy of its "_src" component, the "_src" component of the review, the
    review item and the component with the origin name. *)
Record ReviewEntries := {
  re_index : nat;
  re_repre : Repre;
  re_thumbnail : option loc;
  re_thumbnail_src : option loc;
  re_src : option loc;
  re_review : loc;
  re_origin : option loc
}.

Definition entries_locs (e : ReviewEntries) : list loc :=
  (option_list (re_thumbnail e) ++ option_list (re_thumbnail_src e)
   ++ option_list (re_src e) ++ [re_review e]
   ++ option_list (re_origin e))%list.

Record ReviewState := {
  rs_heap : heap;
  rs_entries : list ReviewEntries;
  rs_extended_asset_name : option string;
  rs_warnings : list string
}.

(** Lines 308-319: the renaming to the extended name, of the review item
    and, in place, of the matched thumbnail item and its "_src" component. *)
Definition rename_for_review (multiple_reviewable : bool)
    (extended_asset_name : option string)
    (sync_thumbnail_item sync_thumbnail_item_src : option loc)
    (review_item : ComponentItem) (h : heap) : ComponentItem * heap :=
  match extended_asset_name with
  | Some n =>
      if multiple_reviewable && str_truthy n then
        (set_asset_name n review_item,
         rename_opt sync_thumbnail_item_src n
           (rename_opt sync_thumbnail_item n h))
      else (review_item, h)
  | None => (review_item, h)
  end.

(** Lines 327-348: metadata, name, path and location of the review item. *)
Definition build_review_item (instance : Instance) (repre : Repre)
    (review_item : ComponentItem) : result ComponentItem :=
  let repre_path := get_publish_repre_path E instance repre false in
  '(component_name0, metadata0, review_item2) ←
    (if _is_repre_video E repre then
       md ← _prepare_video_component_metadata E cfg instance repre
              repre_path true;
       Ok ("ftrackreview-mp4", md, review_item)
     else
       Ok ("ftrackreview-image",
           _prepare_image_component_metadata E repre repre_path,
           set_thumbnail true review_item));
  Ok (set_component_location_name ftrack_server_location_name
        (set_component_data
           {| cd_name := component_name0; cd_metadata := metadata0 |}
           (set_component_path repre_path review_item2))).

(** Lines 350-369: the "_src" component of the review, the review item and
    the component with the origin name, appended in that order. *)
Definition append_review (instance : Instance) (repre : Repre)
    (review_item : ComponentItem) (h : heap)
    : result (option loc * loc * option loc * heap) :=
  '(src_loc, h1) ←
    (if negb (mem_str "delete" (repre_tags repre)) then
       src_comp ← _create_src_component instance repre review_item
                    unmanaged_location_name;
       let '(l, h') := alloc h src_comp in Ok (Some l, h')
     else Ok (None, h));
  let '(review_loc, h2) := alloc h1 review_item in
  '(origin_loc, h3) ←
    (if upload_reviewable_with_origin_name cfg then
       match get_publish_repre_path E instance repre false with
       | None =>
           Raise (TypeError "expected str, bytes or os.PathLike object")
       | Some p =>
           let filename := os_path_basename E p in
           let origin_name_component :=
             set_component_data
               {| cd_name := fst (os_path_splitext E filename);
                  cd_metadata := component_metadata review_item |}
               review_item in
           let '(l, h') := alloc h2 origin_name_component in
           Ok (Some l, h')
       end
     else Ok (None, h2));
  Ok (src_loc, review_loc, origin_loc, h3).

Definition review_iteration (instance : Instance)
    (base_component_item : ComponentItem)
    (thumbnail_data_items : list ThumbData)
    (multiple_synced_thumbnails multiple_reviewable has_movie : bool)
    (index : nat) (repre : Repre) (st : ReviewState) : result ReviewState :=
  if negb (_is_repre_video E repre) && has_movie then Ok st
  else
    let review_item0 := base_component_item in
    let '(sync_thumbnail_data, warnings) :=
      _get_matching_thumbnail_item repre thumbnail_data_items
        multiple_synced_thumbnails in
    let sync_thumbnail_item := item <$> sync_thumbnail_data in
    let sync_thumbnail_item_src := sync_thumbnail_data ≫= src_component in
    let extended_asset_name :=
      _make_extended_component_name base_component_item repre index in
    let '(review_item1, h2) :=
      rename_for_review multiple_reviewable extended_asset_name
        sync_thumbnail_item sync_thumbnail_item_src review_item0
        (rs_heap st) in
    let '(thumb_copy, h3) := copy_opt sync_thumbnail_item h2 in
    let '(src_copy, h4) := copy_opt sync_thumbnail_item_src h3 in
    review_item ← build_review_item instance repre review_item1;
    '(src_loc, review_loc, origin_loc, h7) ←
      append_review instance repre review_item h4;
    Ok {| rs_heap := h7;
          rs_entries :=
            (rs_entries st ++
               [{| re_index := index;
                   re_repre := repre;
                   re_thumbnail := thumb_copy;
                   re_thumbnail_src := src_copy;
                   re_src := src_loc;
                   re_review := review_loc;
                   re_origin := origin_loc |}])%list;
          rs_extended_asset_name := extended_asset_name;
          rs_warnings := (rs_warnings st ++ warnings)%list |}.

(** [for index, repre in enumerate(review_representations)] *)
Fixpoint review_loop (instance : Instance)
    (base_component_item : ComponentItem)
    (thumbnail_data_items : list ThumbData)
    (multiple_synced_thumbnails multiple_reviewable has_movie : bool)
    (index : nat) (repres : list Repre) (st : ReviewState)
    : result ReviewState :=
  match repres with
  | [] => Ok st
  | repre :: rest =>
      st' ← review_iteration instance base_component_item
              thumbnail_data_items multiple_synced_thumbnails
              multiple_reviewable has_movie index repre st;
      review_loop instance base_component_item thumbnail_data_items
        multiple_synced_thumbnails multiple_reviewable has_movie
        (S index) rest st'
  end.

(** *** Add others representations as component *)

Definition other_step (instance : Instance)
    (base_component_item : ComponentItem) (multiple_reviewable : bool)
    (extended_asset_name : option string) (st : heap * list loc)
    (repre : Repre) : result (heap * list loc) :=
  let published_path := get_publish_repre_path E instance repre true in
  if negb (path_truthy published_path) then Ok st
  else
    let other_item0 :=
      match extended_asset_name with
      | Some n =>
          if multiple_reviewable
             && negb (keep_first_product_name_for_review cfg)
             && str_truthy n
          then set_asset_name n base_component_item
          else base_component_item
      | None => base_component_item
      end in
    md ← _prepare_component_metadata E cfg instance repre published_path
           false;
    let other_item :=
      set_component_location_name unmanaged_location_name
        (set_component_data
           {| cd_name := repre_name repre; cd_metadata := md |}
           (set_component_path published_path other_item0)) in
    let '(l, h) := alloc (fst st) other_item in
    Ok (h, (snd st ++ [l])%list).

(** *** The plugin entry point *)

(** Filter out image reviews if there is a movie review. *)
Definition surviving_reviews (b : Buckets) : list Repre :=
  List.filter
    (fun repre => negb (has_movie_review b) || _is_repre_video E repre)
    (review_representations b).

(** The state [process] leaves behind: the heap of component items and the
    parts of [component_list], in the order they were appended. *)
Record Run := {
  run_heap : heap;
  run_thumbnail_srcs : list loc;
  run_thumbnail_data_items : list ThumbData;
  run_reviews : list ReviewEntries;
  run_thumbnail_alone : list loc;
  run_others : list loc;
  run_warnings : list string
}.

(** The list stored under [instance.data["ftrackComponentsList"]]. *)
Definition ftrackComponentsList (r : Run) : list loc :=
  (run_thumbnail_srcs r ++ flat_map entries_locs (run_reviews r)
   ++ run_thumbnail_alone r ++ run_others r)%list.

(** The items of the stored list, read from the final heap. *)
Definition components (r : Run) : list ComponentItem :=
  omap (fun l => run_heap r !! l) (ftrackComponentsList r).

(** [len(synced_multiple_output_names) > 1] *)
Definition multiple_synced_thumbnails_of (b : Buckets) : bool :=
  (1 <? length (synced_multiple_output_names (review_representations b)
                  (thumbnail_representations b)))%nat.

(** [len(review_representations) > 1], after the filter. *)
Definition multiple_reviewable_of (b : Buckets) : bool :=
  (1 <? length (surviving_reviews b))%nat.

(** [None]: [process] returned before writing "ftrackComponentsList". *)
Definition process (instance : Instance) : result (option Run) :=
  match representations instance with
  | None | Some [] => Ok None
  | Some instance_repres =>
      match version instance with
      | None => Raise (ValueError "Instance version not set")
      | Some version_number =>
          let base_component_item :=
            base_component_item_of instance version_number in
          let b := classify instance instance_repres in
          let multiple_synced_thumbnails :=
            multiple_synced_thumbnails_of b in
          ts ← thumbnail_loop instance base_component_item b;
          let review_representations1 := surviving_reviews b in
          let multiple_reviewable := multiple_reviewable_of b in
          rs ← review_loop instance base_component_item
                 (ts_thumbnail_data_items ts) multiple_synced_thumbnails
                 multiple_reviewable (has_movie_review b) 0
                 review_representations1
                 {| rs_heap := ts_heap ts;
                    rs_entries := [];
                    rs_extended_asset_name := None;
                    rs_warnings := [] |};
          let thumbnail_alone :=
            match review_representations1 with
            | [] => option_list (ts_thumbnail_item ts)
            | _ => []
            end in
          '(h, others) ←
            foldl_result
              (other_step instance base_component_item multiple_reviewable
                 (rs_extended_asset_name rs))
              (other_representations b) (rs_heap rs, []);
          Ok (Some
                {| run_heap := h;
                   run_thumbnail_srcs := ts_component_list ts;
                   run_thumbnail_data_items := ts_thumbnail_data_items ts;
                   run_reviews := rs_entries rs;
                   run_thumbnail_alone := thumbnail_alone;
                   run_others := others;
                   run_warnings := rs_warnings rs |})
      end
  end.

End Process.

(** ** [os.path] on POSIX, for the concrete scenarios *)

Module Posix.

Fixpoint rfind_from (c : ascii) (s : string) (i : nat) (last : option nat)
    : option nat :=
  match s with
  | EmptyString => last
  | String d s' =>
      rfind_from c s' (S i) (if Ascii.eqb d c then Some i else last)
  end.

Definition rfind (c : ascii) (s : string) : option nat :=
  rfind_from c s 0 None.

Fixpoint all_dots (s : string) : bool :=
  match s with
  | EmptyString => true
  | String d s' => Ascii.eqb d "." && all_dots s'
  end.

(** [posixpath.splitext]: the extension starts at the last dot of the last
    path segment, leading dots of the segment apart. *)
Definition splitext (p : string) : string * string :=
  match rfind "." p with
  | None => (p, "")
  | Some dot =>
      let start :=
        match rfind "/" p with
        | Some sep => S sep
        | None => 0
        end in
      if (start <=? dot)%nat
         && negb (all_dots (String.substring start (dot - start) p))
      then (String.substring 0 dot p,
            String.substring dot (String.length p - dot) p)
      else (p, "")
  end.

(** [posixpath.basename]: what follows the last slash. *)
Definition basename (p : string) : string :=
  match rfind "/" p with
  | Some sep => String.substring (S sep) (String.length p - S sep) p
  | None => p
  end.

End Posix.

(** ** Concrete scenarios *)

Module Scenario.

Definition clip_stream : Stream :=
  {| codec_type := "video";
     codec_long_name := Some "H.264";
     codec := Some "h264";
     pix_fmt := Some "yuv420p";
     width := Some 1920%Z;
     height := Some 1080%Z;
     r_frame_rate := Some "25/1";
     duration := Some (2 # 1)%Q |}.

(** Every representation resolves to "/pub/<name>.<ext>"; the probe
    raises for every file but "/pub/clip.mov". *)
Definition env : Env :=
  {| get_publish_repre_path := fun _ r _ =>
       Some ("/pub/" ++ repre_name r ++ "." ++ repre_ext r);
     get_ffprobe_streams := fun p =>
       if String.eqb p "/pub/clip.mov" then Some [clip_stream] else None;
     convert_ffprobe_fps_to_float := fun s =>
       if String.eqb s "25/1" then Some (25 # 1)%Q else None;
     filter_profiles := fun _ _ _ _ => None;
     VIDEO_EXTENSIONS := [".mp4"; ".mov"];
     IMAGE_EXTENSIONS := [".jpg"; ".png"; ".exr"];
     ayon_ftrack_version := "1.4.0";
     get_ayon_launcher_version := "1.1.0";
     os_path_splitext := Posix.splitext;
     os_path_basename := Posix.basename;
     str_lower := lower;
     CUST_ATTR_KEY_SERVER_ID := "ayon_id";
     CUST_ATTR_KEY_SERVER_PATH := "ayon_path" |}.

Definition all_keys : list string :=
  ["fps"; "frame_start"; "frame_end"; "duration"; "width"; "height"; "codec"].

Definition config (keep_first : bool) : Config :=
  {| product_type_mapping := [("review", "mov"); ("render", "render")];
     keep_first_product_name_for_review := keep_first;
     upload_reviewable_with_origin_name := false;
     asset_versions_status_profiles := [];
     additional_metadata_keys := all_keys |}.

Definition repre (name ext : string) (tags : list string)
    (output_name : option string) (w h : option Z) : Repre :=
  {| repre_name := name;
     repre_ext := ext;
     repre_tags := tags;
     repre_thumbnail := false;
     repre_outputName := output_name;
     repre_width := w;
     repre_height := h;
     repre_fps := None;
     repre_frameStartFtrack := None;
     repre_frameEndFtrack := None |}.

Definition instance (repres : option (list Repre)) (v : option Z)
    (frame_start frame_end : Z) : Instance :=
  {| representations := repres;
     version := v;
     productType := "review";
     productName := "reviewMain";
     ftrackFamily := None;
     versionEntity := None;
     folderPath := "/shots/sh010";
     fps := None;
     frameStart := frame_start;
     frameEnd := frame_end;
     task_type := None;
     context_comment := None;
     context_fps := NInt 25;
     context_hostName := "maya" |}.

Definition review_main : Repre :=
  repre "h264" "mp4" ["ftrackreview"] (Some "main") None None.

Definition thumbnail_main : Repre :=
  repre "thumb" "jpg" ["thumbnail"] (Some "main")
    (Some 1920%Z) (Some 1080%Z).

(** One video review and one thumbnail, both with output name "main". *)
Definition one_review : Instance :=
  instance (Some [review_main; thumbnail_main]) (Some 3%Z) 1001 1010.

Definition review_a : Repre :=
  repre "h264" "mp4" ["ftrackreview"] (Some "a") None None.
Definition review_b : Repre :=
  repre "prores" "mov" ["ftrackreview"] (Some "b") None None.
Definition thumbnail_a : Repre :=
  repre "thumb_a" "jpg" ["thumbnail"] (Some "a") (Some 1920%Z) (Some 1080%Z).
Definition thumbnail_b : Repre :=
  repre "thumb_b" "jpg" ["thumbnail"] (Some "b") (Some 1920%Z) (Some 1080%Z).

(** Two video reviews and a single thumbnail. *)
Definition two_reviews_one_thumbnail : Instance :=
  instance (Some [review_a; review_b; thumbnail_main]) (Some 3%Z) 1001 1010.

(** Two video reviews with distinct output names and two thumbnails whose
    sync keys are those output names. *)
Definition two_reviews_two_thumbnails : Instance :=
  instance (Some [review_a; review_b; thumbnail_a; thumbnail_b])
    (Some 3%Z) 1001 1010.

(** No representation and no version. *)
Definition no_representations : Instance :=
  instance (Some []) None 1001 1010.

Definition clip : Repre :=
  repre "clip" "mov" ["ftrackreview"] None None None.

Definition plate_exr : Repre :=
  repre "plate" "exr" ["ftrackreview"] None None None.

(** An environment that counts ".exr" among the video extensions. *)
Definition exr_env : Env :=
  {| get_publish_repre_path := get_publish_repre_path env;
     get_ffprobe_streams := get_ffprobe_streams env;
     convert_ffprobe_fps_to_float := convert_ffprobe_fps_to_float env;
     filter_profiles := filter_profiles env;
     VIDEO_EXTENSIONS := [".mp4"; ".mov"; ".exr"];
     IMAGE_EXTENSIONS := [".jpg"; ".png"];
     ayon_ftrack_version := ayon_ftrack_version env;
     get_ayon_launcher_version := get_ayon_launcher_version env;
     os_path_splitext := os_path_splitext env;
     os_path_basename := os_path_basename env;
     str_lower := str_lower env;
     CUST_ATTR_KEY_SERVER_ID := CUST_ATTR_KEY_SERVER_ID env;
     CUST_ATTR_KEY_SERVER_PATH := CUST_ATTR_KEY_SERVER_PATH env |}.

(** The run of a scenario that stores a component list. *)
Definition run_of (r : result (option Run)) : Run :=
  match r with
  | Ok (Some run) => run
  | _ =>
      {| run_heap := []; run_thumbnail_srcs := [];
         run_thumbnail_data_items := []; run_reviews := [];
         run_thumbnail_alone := []; run_others := []; run_warnings := [] |}
  end.

Definition one_review_run : Run :=
  run_of (process env (config true) one_review).

Definition two_reviews_two_thumbnails_run (keep_first : bool) : Run :=
  run_of (process env (config keep_first) two_reviews_two_thumbnails).

Definition names (r : Run) : list string := map component_name (components r).
Definition asset_names (r : Run) : list string :=
  map asset_name (components r).

End Scenario.

(** ** Notions used in the statements *)

(** [h'] holds every object of [h] at the same location, possibly with
    another asset name. *)
Definition heap_ext (h h' : heap) : Prop :=
  forall l c, h !! l = Some c ->
    exists n, h' !! l = Some (set_asset_name n c).

(** A property of an item that does not look at the asset name. *)
Definition name_blind (Q : ComponentItem -> Prop) : Prop :=
  forall n c, Q c -> Q (set_asset_name n c).

(** The component name ends in "_src". *)
Definition is_src_name (name : string) : bool :=
  String.eqb (String.substring (String.length name - 4) 4 name) "_src".

Section Notions.

Context (E : Env) (cfg : Config) (instance : Instance).

(** The path of the item is the resolved, non-empty path of one of the
    representations [reps]. *)
Definition path_resolved (reps : list Repre) (c : ComponentItem) : Prop :=
  exists repre only_published p,
    In repre reps
    /\ get_publish_repre_path E instance repre only_published = Some p
    /\ str_truthy p = true
    /\ component_path c = Some p.

(** A review representation of the review loop: one of [reps], with a
    path. *)
Definition reviewable (reps : list Repre) (repre : Repre) : Prop :=
  In repre reps
  /\ path_truthy (get_publish_repre_path E instance repre false) = true.

(** The map has no frameIn/frameOut entry, at top level or in the
    "ftr_meta" payload. *)
Definition no_frame_payload (md : metadata) : Prop :=
  md !! "frameIn" = None /\ md !! "frameOut" = None
  /\ forall obj, md !! "ftr_meta" = Some (MJson obj) ->
       assoc "frameIn" obj = None /\ assoc "frameOut" obj = None.

(** [c] is the "_src" component built from the thumbnail representation
    [repre]: the name of the thumbnail item with the suffix, the path of the
    thumbnail, the thumbnail flag off, the unmanaged location and the
    metadata [_prepare_component_metadata] returns for a component that is
    not a review. *)
Definition thumbnail_shadow (have_reviews : bool) (repre : Repre)
    (c : ComponentItem) : Prop :=
  component_name c
  = (if have_reviews then "thumbnail" else "ftrackreview-image") ++ "_src"
  /\ component_path c = get_publish_repre_path E instance repre false
  /\ thumbnail c = false
  /\ component_location_name c = Some unmanaged_location_name
  /\ _prepare_component_metadata E cfg instance repre
       (get_publish_repre_path E instance repre false) false
     = Ok (component_metadata c).

(** Invariant of the review loop, started on the heap [h0] with the
    thumbnail data items [tdi]. *)
Definition review_inv (reps : list Repre) (base : ComponentItem)
    (tdi : list ThumbData) (multiple : bool) (h0 : heap)
    (st : ReviewState) : Prop :=
  heap_ext h0 (rs_heap st)
  /\ Forall (path_resolved reps) (rs_heap st)
  /\ forall e, In e (rs_entries st) ->
       (forall l, In l (entries_locs e) ->
          length h0 <= l
          /\ exists c,
               rs_heap st !! l = Some c
               /\ (multiple = true -> forall n,
                     _make_extended_component_name cfg base (re_repre e)
                       (re_index e) = Some n ->
                     asset_name c = n))
       /\ (forall l, re_thumbnail_src e = Some l ->
             exists td s c0 n,
               In td tdi /\ src_component td = Some s
               /\ h0 !! s = Some c0
               /\ rs_heap st !! l = Some (set_asset_name n c0)).

(** The buckets of the classifier hold representations of [reps], the
    review bucket only those with a path. *)
Definition buckets_within (reps : list Repre) (b : Buckets) : Prop :=
  Forall (reviewable reps) (review_representations b)
  /\ Forall (fun r => In r reps) (thumbnail_representations b)
  /\ Forall (fun r => In r reps) (other_representations b).

(** The video review of the one-review scenario: extension "mp4", output
    name "main", no declared fps, tagged "ftrackreview" only, with a
    path. *)
Definition scenario_review (review : Repre) : Prop :=
  repre_ext review = "mp4"
  /\ repre_outputName review = Some "main"
  /\ repre_fps review = None
  /\ repre_thumbnail review = false
  /\ mem_str "publish_on_farm" (repre_tags review) = false
  /\ mem_str "thumbnail" (repre_tags review) = false
  /\ mem_str "ftrackreview" (repre_tags review) = true
  /\ mem_str "delete" (repre_tags review) = false
  /\ path_truthy (get_publish_repre_path E instance review false) = true.

(** The thumbnail of the one-review scenario: extension "jpg", output name
    "main", 1920x1080, flagged or tagged as thumbnail, with a path. *)
Definition scenario_thumbnail (thumb : Repre) : Prop :=
  repre_ext thumb = "jpg"
  /\ repre_outputName thumb = Some "main"
  /\ repre_width thumb = Some 1920%Z
  /\ repre_height thumb = Some 1080%Z
  /\ mem_str "publish_on_farm" (repre_tags thumb) = false
  /\ repre_thumbnail thumb || mem_str "thumbnail" (repre_tags thumb) = true
  /\ mem_str "delete" (repre_tags thumb) = false
  /\ path_truthy (get_publish_repre_path E instance thumb false) = true.

(** Invariant of the thumbnail loop. *)
Definition thumb_inv (reps : list Repre) (have_reviews : bool)
    (st : ThumbState) : Prop :=
  Forall (path_resolved reps) (ts_heap st)
  /\ (forall td, In td (ts_thumbnail_data_items st) ->
        In (representation td) reps
        /\ item td < length (ts_heap st)
        /\ forall s, src_component td = Some s ->
             s < length (ts_heap st)
             /\ exists c, ts_heap st !! s = Some c
                          /\ thumbnail_shadow have_reviews
                               (representation td) c)
  /\ (forall l, In l (ts_component_list st) -> l < length (ts_heap st))
  /\ (forall l, ts_thumbnail_item st = Some l -> l < length (ts_heap st)).

End Notions.

(** ** Notions used in the further properties *)

(** The [product_type_mapping] class attribute, as the class declares it. *)
Definition default_product_type_mapping : list (string * string) :=
  [ ("camera", "cam"); ("look", "look"); ("mayaAscii", "scene");
    ("model", "geo"); ("rig", "rig"); ("setdress", "setdress");
    ("pointcache", "cache"); ("render", "render"); ("prerender", "render");
    ("render2d", "render"); ("nukescript", "comp"); ("write", "render");
    ("review", "mov"); ("plate", "img"); ("audio", "audio");
    ("workfile", "scene"); ("animation", "cache"); ("image", "img");
    ("reference", "reference") ].

(** The tests of the classifier, one per bucket. *)
Definition on_farm (r : Repre) : bool :=
  mem_str "publish_on_farm" (repre_tags r).

Definition thumbnail_test (r : Repre) : bool :=
  repre_thumbnail r || mem_str "thumbnail" (repre_tags r).

Definition review_test (E : Env) (instance : Instance) (r : Repre) : bool :=
  mem_str "ftrackreview" (repre_tags r)
  && path_truthy (get_publish_repre_path E instance r false).

Definition in_thumbnail_bucket (r : Repre) : bool :=
  negb (on_farm r) && thumbnail_test r.

Definition in_review_bucket (E : Env) (instance : Instance) (r : Repre)
    : bool :=
  negb (on_farm r) && negb (thumbnail_test r) && review_test E instance r.

Definition in_other_bucket (E : Env) (instance : Instance) (r : Repre)
    : bool :=
  negb (on_farm r) && negb (thumbnail_test r)
  && negb (review_test E instance r).

(** What a video stream gives the scan when it has both "r_frame_rate" and
    "duration" and the rate converts: the fps and the frame count. *)
Definition usable_stream (E : Env) (s : Stream) : option (Q * Q) :=
  match r_frame_rate s, duration s with
  | Some rate, Some d =>
      match convert_ffprobe_fps_to_float E rate with
      | Some f => Some (f, (d * f)%Q)
      | None => None
      end
  | _, _ => None
  end.

(** The codec label the scan reads from one stream. *)
Definition stream_codec_label (s : Stream) : option string :=
  match
    (if opt_str_truthy (codec_long_name s) then codec_long_name s
     else codec s)
  with
  | Some c =>
      if str_truthy c then
        match pix_fmt s with
        | Some p => if str_truthy p then Some (c ++ " (" ++ p ++ ")")
                    else Some c
        | None => Some c
        end
      else Some c
  | None => None
  end.

(** The fields every item takes from the base item, and the asset names an
    item can carry: the product name or an extended name made with the name
    of one of [reps]. *)
Definition from_base (base : ComponentItem) (reps : list Repre)
    (c : ComponentItem) : Prop :=
  assettype_short c = assettype_short base
  /\ assetversion_version c = assetversion_version base
  /\ assetversion_comment c = assetversion_comment base
  /\ assetversion_status_name c = assetversion_status_name base
  /\ assetversion_custom_attributes c = assetversion_custom_attributes base
  /\ component_overwrite c = false
  /\ component_location c = None
  /\ (asset_name c = asset_name base
      \/ exists r, In r reps
                   /\ asset_name c = asset_name base ++ "_" ++ repre_name r).

(** An item is placed on one of the two locations, has its component data,
    and is flagged as thumbnail only on the server location. *)
Definition placed (c : ComponentItem) : Prop :=
  (exists d, component_data c = Some d)
  /\ (component_location_name c = Some ftrack_server_location_name
      \/ (component_location_name c = Some unmanaged_location_name
          /\ thumbnail c = false)).

(** The invariant of the heap: the fields of the base item and a legal
    placement. *)
Definition well_built (base : ComponentItem) (reps : list Repre)
    (c : ComponentItem) : Prop :=
  from_base base reps c /\ placed c.

(** An extended name made with the name of one of [reps]. *)
Definition allowed_name (base : ComponentItem) (reps : list Repre)
    (n : string) : Prop :=
  exists r, In r reps /\ n = asset_name base ++ "_" ++ repre_name r.

(** [c] is the review item of the review representation [r]: its name
    and thumbnail flag follow the kind of the representation, it is on the
    server location with the path of the representation, and its metadata
    is the review metadata of a video or the image metadata. *)
Definition review_item_of (E : Env) (cfg : Config) (instance : Instance)
    (r : Repre) (c : ComponentItem) : Prop :=
  let p := get_publish_repre_path E instance r false in
  component_name c
  = (if _is_repre_video E r then "ftrackreview-mp4"
     else "ftrackreview-image")
  /\ thumbnail c = negb (_is_repre_video E r)
  /\ component_location_name c = Some ftrack_server_location_name
  /\ component_path c = p
  /\ (if _is_repre_video E r
      then _prepare_video_component_metadata E cfg instance r p true
      else Ok (_prepare_image_component_metadata E r p))
     = Ok (component_metadata c).

(** The block of entries [e] in the heap [h]: the review item, its "_src"
    component unless the representation is tagged "delete", and the
    component with the origin name when that upload is switched on. *)
Definition review_block (E : Env) (cfg : Config) (instance : Instance)
    (h : heap) (e : ReviewEntries) : Prop :=
  let r := re_repre e in
  let p := get_publish_repre_path E instance r false in
  exists c,
    h !! re_review e = Some c
    /\ review_item_of E cfg instance r c
    /\ match re_src e with
       | Some l =>
           mem_str "delete" (repre_tags r) = false
           /\ exists s,
                h !! l = Some s
                /\ component_name s = component_name c ++ "_src"
                /\ thumbnail s = false
                /\ component_location_name s = Some unmanaged_location_name
                /\ component_path s = p
                /\ _prepare_component_metadata E cfg instance r p false
                   = Ok (component_metadata s)
       | None => mem_str "delete" (repre_tags r) = true
       end
    /\ match re_origin e with
       | Some l =>
           upload_reviewable_with_origin_name cfg = true
           /\ exists o q,
                h !! l = Some o
                /\ p = Some q
                /\ component_name o
                   = fst (os_path_splitext E (os_path_basename E q))
                /\ component_metadata o = component_metadata c
                /\ thumbnail o = thumbnail c
                /\ component_location_name o
                   = Some ftrack_server_location_name
                /\ component_path o = p
       | None => upload_reviewable_with_origin_name cfg = false
       end.

(** [c] is the thumbnail item built from the thumbnail representation [r]
    under the component name [name]: flagged as thumbnail, on the server
    location, with the path and the image metadata of [r]. *)
Definition thumbnail_item_of (E : Env) (instance : Instance) (name : string)
    (r : Repre) (c : ComponentItem) : Prop :=
  let p := get_publish_repre_path E instance r false in
  component_name c = name
  /\ thumbnail c = true
  /\ component_location_name c = Some ftrack_server_location_name
  /\ component_path c = p
  /\ component_metadata c = _prepare_image_component_metadata E r p.

(** The thumbnail part of the block of entries [e] in the heap [h]: the
    copy of the item of the thumbnail data item matched to the review, and
    the copy of its "_src" component when it has one. *)
Definition thumbnail_block (E : Env) (instance : Instance)
    (tdi : list ThumbData) (multi : bool) (name : string) (h : heap)
    (e : ReviewEntries) : Prop :=
  match fst (_get_matching_thumbnail_item (re_repre e) tdi multi) with
  | None => re_thumbnail e = None /\ re_thumbnail_src e = None
  | Some td =>
      (exists l c,
         re_thumbnail e = Some l /\ h !! l = Some c
         /\ thumbnail_item_of E instance name (representation td) c)
      /\ (re_thumbnail_src e = None <-> src_component td = None)
  end.

(** The objects of the thumbnail data item [td] in the heap [h]. *)
Definition thumbnail_cells (E : Env) (instance : Instance) (name : string)
    (h : heap) (td : ThumbData) : Prop :=
  (exists c,
     h !! item td = Some c
     /\ thumbnail_item_of E instance name (representation td) c)
  /\ forall s, src_component td = Some s -> exists c, h !! s = Some c.

(** The "_src" component of the thumbnail data item [td] in the heap
    [h]. *)
Definition shadow_cells (E : Env) (cfg : Config) (instance : Instance)
    (have_reviews : bool) (h : heap) (td : ThumbData) : Prop :=
  forall s, src_component td = Some s ->
    exists c,
      h !! s = Some c
      /\ thumbnail_shadow E cfg instance have_reviews (representation td) c.

(** The block of entries [e] holds a copy of the "_src" component of the
    thumbnail data item matched to its review, whenever that data item has
    one. *)
Definition shadow_block (E : Env) (cfg : Config) (instance : Instance)
    (tdi : list ThumbData) (multi have_reviews : bool) (h : heap)
    (e : ReviewEntries) : Prop :=
  forall td s,
    fst (_get_matching_thumbnail_item (re_repre e) tdi multi) = Some td ->
    src_component td = Some s ->
    exists l c,
      re_thumbnail_src e = Some l /\ h !! l = Some c
      /\ thumbnail_shadow E cfg instance have_reviews (representation td) c.

(** The representation the entry at [l] of the stored list is built from,
    and the [only_published] flag its path is resolved with, by the place
    of the entry in the list:
    - a "_src" component appended by the thumbnail loop: the thumbnail
      representation of its data item (lines 213-257);
    - the copy of a thumbnail item or of its "_src" component in a block:
      the thumbnail representation of the data item matched to the review
      of the block (lines 285-325);
    - the review item of a block, its "_src" component and the component
      with the origin name: the review representation of the block (lines
      327-369);
    - the thumbnail item appended alone: the last thumbnail representation
      with a path (lines 225, 371-372);
    - the component of an other representation: that representation, with
      [only_published] set (lines 375-401). *)
Definition entry_source (E : Env) (instance : Instance) (b : Buckets)
    (run : Run) (l : loc) (r : Repre) (only_published : bool) : Prop :=
  (exists td,
     In td (run_thumbnail_data_items run)
     /\ src_component td = Some l /\ In l (run_thumbnail_srcs run)
     /\ r = representation td /\ only_published = false)
  \/ (exists e td,
        In e (run_reviews run)
        /\ fst (_get_matching_thumbnail_item (re_repre e)
                  (run_thumbnail_data_items run)
                  (multiple_synced_thumbnails_of b)) = Some td
        /\ (re_thumbnail e = Some l \/ re_thumbnail_src e = Some l)
        /\ r = representation td /\ only_published = false)
  \/ (exists e,
        In e (run_reviews run)
        /\ (re_src e = Some l \/ re_review e = l \/ re_origin e = Some l)
        /\ r = re_repre e /\ only_published = false)
  \/ (In l (run_thumbnail_alone run)
      /\ list.last
           (List.filter
              (fun t =>
                 path_truthy (get_publish_repre_path E instance t false))
              (thumbnail_representations b)) = Some r
      /\ only_published = false)
  \/ (exists i,
        run_others run !! i = Some l
        /\ List.filter
             (fun o =>
                path_truthy (get_publish_repre_path E instance o true))
             (other_representations b) !! i = Some r
        /\ only_published = true).

(** * Properties *)

Ltac case_eqb k :=
  match goal with
  | H : context [String.eqb ?a k] |- _ => destruct (String.eqb_spec a k)
  | |- context [String.eqb ?a k] => destruct (String.eqb_spec a k)
  end.

(** ** The label table *)

Lemma label_of_inj k1 k2 l :
  label_of k1 = Ok l -> label_of k2 = Ok l -> k1 = k2.
Proof.
  unfold label_of, metadata_keys_to_label; cbn [assoc].
  intros H1 H2.
  repeat (case_eqb k1; [subst k1; injection H1 as <-|]);
  try discriminate;
  repeat (case_eqb k2; [subst k2; first [reflexivity | discriminate]|]);
  discriminate.
Qed.

Lemma label_of_not_ftr_meta k : label_of k <> Ok "ftr_meta".
Proof.
  unfold label_of, metadata_keys_to_label; cbn [assoc].
  repeat (case_eqb k; [discriminate|]). discriminate.
Qed.

Section MetadataFacts.

Context (E : Env) (cfg : Config).

(** Where an entry of the map returned by [add_labeled] comes from. *)
Lemma add_labeled_lookup sf pairs : forall md md' l x,
  add_labeled cfg sf pairs md = Ok md' ->
  md' !! l = Some x ->
  md !! l = Some x \/
  exists key value,
    In (key, value) pairs /\ label_of key = Ok l /\ x = MVal value /\
    (sf = true -> truthy value = true) /\
    mem_str key (additional_metadata_keys cfg) = true.
Proof.
  induction pairs as [|[key value] rest IH]; simpl; intros md md' l x Hadd Hl.
  - injection Hadd as <-. now left.
  - destruct (sf && negb (truthy value)
              || negb (mem_str key (additional_metadata_keys cfg))) eqn:Hc.
    + destruct (IH _ _ _ _ Hadd Hl) as [?|(k & v & ? & ?)]; [now left|].
      right. exists k, v. tauto.
    + apply orb_false_elim in Hc as [Hc1 Hc2].
      apply negb_false_iff in Hc2.
      destruct (label_of key) as [label|] eqn:Hlab; [|discriminate].
      simpl in Hadd.
      destruct (IH _ _ _ _ Hadd Hl) as [Hin|(k & v & ? & ?)].
      * destruct (decide (label = l)) as [->|Hne].
        -- rewrite lookup_insert_eq in Hin. injection Hin as <-.
           right. exists key, value. repeat split; auto.
           intros ->. simpl in Hc1. now apply negb_false_iff in Hc1.
        -- rewrite lookup_insert_ne in Hin by done. now left.
      * right. exists k, v. tauto.
Qed.

(** A truthy, allow-listed pair is found in the map under its label. *)
Lemma add_labeled_complete sf pairs key value l : forall md md',
  add_labeled cfg sf pairs md = Ok md' ->
  label_of key = Ok l ->
  truthy value = true ->
  mem_str key (additional_metadata_keys cfg) = true ->
  (forall v, In (key, v) pairs -> v = value) ->
  md !! l = Some (MVal value) \/ In (key, value) pairs ->
  md' !! l = Some (MVal value).
Proof.
  induction pairs as [|[k v] rest IH]; simpl;
    intros md md' Hadd Hlab Ht Hm Hfun Hin.
  - injection Hadd as <-. destruct Hin as [?|[]]; assumption.
  - destruct (sf && negb (truthy v)
              || negb (mem_str k (additional_metadata_keys cfg))) eqn:Hc.
    + apply (IH md md' Hadd Hlab Ht Hm); [intros; apply Hfun; now right|].
      destruct Hin as [?|[Heq|?]]; [now left| |now right].
      injection Heq as -> ->. rewrite Ht, Hm in Hc.
      now rewrite andb_false_r in Hc.
    + destruct (label_of k) as [label|] eqn:Hlab'; [|discriminate].
      simpl in Hadd.
      apply (IH _ md' Hadd Hlab Ht Hm); [intros; apply Hfun; now right|].
      destruct (decide (label = l)) as [->|Hne].
      * left. rewrite lookup_insert_eq.
        assert (k = key) as -> by (eapply label_of_inj; eauto).
        rewrite (Hfun v); [reflexivity | now left].
      * destruct Hin as [Hmd|[Heq|?]]; [| |now right].
        -- left. now rewrite lookup_insert_ne.
        -- injection Heq as -> ->. congruence.
Qed.

Lemma add_labeled_total sf pairs : forall md,
  Forall (fun kv => exists l, label_of (fst kv) = Ok l) pairs ->
  exists md', add_labeled cfg sf pairs md = Ok md'.
Proof.
  induction pairs as [|[k v] rest IH]; simpl; intros md Hall.
  - eauto.
  - inversion Hall as [|? ? [l Hl] Hrest]; subst. simpl in Hl.
    destruct (sf && negb (truthy v)
              || negb (mem_str k (additional_metadata_keys cfg))); [eauto|].
    rewrite Hl. simpl. eauto.
Qed.

Lemma version_entries_labeled :
  Forall (fun kv : string * pyval => exists l, label_of (fst kv) = Ok l)
    (version_entries E).
Proof. repeat constructor; eexists; reflexivity. Qed.

Lemma video_scalars_labeled vf :
  Forall (fun kv : string * pyval => exists l, label_of (fst kv) = Ok l)
    (video_scalars vf).
Proof. repeat constructor; eexists; reflexivity. Qed.

(** Each key has one value in the list of scalars. *)
Lemma video_scalars_functional vf key v1 v2 :
  In (key, v1) (video_scalars vf) -> In (key, v2) (video_scalars vf) ->
  v1 = v2.
Proof.
  unfold video_scalars. simpl.
  intros H1 H2.
  repeat (destruct H1 as [H1|H1]; [injection H1 as <- <-|]);
    try contradiction;
    repeat (destruct H2 as [H2|H2];
            [first [discriminate H2 | now injection H2]|]);
    contradiction.
Qed.

Lemma video_scalars_not_version vf key v :
  In (key, v) (video_scalars vf) ->
  forall v', ~ In (key, v') (version_entries E).
Proof.
  unfold video_scalars, version_entries. simpl.
  intros H1 v' H2.
  repeat (destruct H1 as [H1|H1]; [injection H1 as <- <-|]);
    try contradiction;
    repeat (destruct H2 as [H2|H2]; [discriminate H2|]);
    contradiction.
Qed.

(** The version entries alone: no scalar label and no payload. *)
Lemma version_md_lookup md0 l x :
  add_labeled cfg false (version_entries E) ∅ = Ok md0 ->
  md0 !! l = Some x ->
  exists key value, In (key, value) (version_entries E)
                    /\ label_of key = Ok l.
Proof.
  intros Hadd Hl.
  destruct (add_labeled_lookup _ _ _ _ _ _ Hadd Hl)
    as [Hempty|(k & v & Hin & Hlab & _)].
  - rewrite lookup_empty in Hempty. discriminate.
  - eauto.
Qed.

(** With a path, the video metadata function returns. *)
Lemma video_metadata_total instance repre path is_review :
  exists md,
    _prepare_video_component_metadata E cfg instance repre (Some path)
      is_review = Ok md.
Proof.
  unfold _prepare_video_component_metadata.
  destruct (add_labeled_total false (version_entries E) ∅
              version_entries_labeled) as [md0 ->].
  cbn [mbind result_bind]. cbv zeta.
  destruct (_ && _); [eauto|].
  destruct (add_labeled_total true
              (video_scalars
                 (video_fields E instance repre (probe_video_streams E path)))
              md0 (video_scalars_labeled _)) as [md1 ->].
  simpl. destruct (negb is_review); eauto.
Qed.

(** The entry found under the label of a scalar key, in any map the video
    metadata function returns. *)
Lemma video_scalar_lookup instance repre path is_review md key value label x :
  _prepare_video_component_metadata E cfg instance repre (Some path)
    is_review = Ok md ->
  In (key, value)
     (video_scalars
        (video_fields E instance repre (probe_video_streams E path))) ->
  label_of key = Ok label ->
  md !! label = Some x ->
  x = MVal value /\ truthy value = true
  /\ mem_str key (additional_metadata_keys cfg) = true.
Proof.
  unfold _prepare_video_component_metadata.
  intros Hrun Hin Hlab Hx.
  destruct (add_labeled cfg false (version_entries E) ∅) as [md0|] eqn:H0;
    [|discriminate].
  cbn [mbind result_bind] in Hrun. cbv zeta in Hrun.
  assert (Hmd0 : forall y, md0 !! label = Some y -> False).
  { intros y Hy.
    destruct (version_md_lookup _ _ _ H0 Hy) as (k & v & Hk & Hl).
    assert (k = key) as -> by (eapply label_of_inj; eauto).
    eapply video_scalars_not_version; eauto. }
  destruct (_ && _).
  { injection Hrun as <-. destruct (Hmd0 _ Hx). }
  set (vf := video_fields E instance repre (probe_video_streams E path)) in *.
  destruct (add_labeled cfg true (video_scalars vf) md0) as [md1|] eqn:H1;
    [|discriminate].
  simpl in Hrun.
  assert (Hne : "ftr_meta" <> label).
  { intros <-. eapply label_of_not_ftr_meta; eauto. }
  assert (Hx1 : md1 !! label = Some x).
  { destruct (negb is_review); injection Hrun as <-;
      now rewrite lookup_insert_ne in Hx. }
  destruct (add_labeled_lookup _ _ _ _ _ _ H1 Hx1)
    as [Hold|(k & v & Hk & Hl & -> & Ht & Hm)].
  - destruct (Hmd0 _ Hold).
  - assert (k = key) as -> by (eapply label_of_inj; eauto).
    rewrite (video_scalars_functional _ _ _ _ Hin Hk). auto.
Qed.

End MetadataFacts.

(** ** Video metadata *)

(** C10: in the map returned by [_prepare_video_component_metadata], the
    entry under the label of a scalar key (fps, frame_start, frame_end,
    duration, width, height, codec) exists only when the value of that key is
    truthy and the key is allow-listed: a key whose value is 0, None or empty
    has no entry, whatever the allow-list. *)
Theorem video_scalar_emitted_only_when_truthy
    (E : Env) (cfg : Config) (instance : Instance) (repre : Repre)
    (path : string) (is_review : bool) (md : metadata)
    (key : string) (value : pyval) (label : string) :
  _prepare_video_component_metadata E cfg instance repre (Some path)
    is_review = Ok md ->
  In (key, value)
     (video_scalars
        (video_fields E instance repre (probe_video_streams E path))) ->
  label_of key = Ok label ->
  (truthy value = false -> md !! label = None)
  /\ (forall x, md !! label = Some x ->
        x = MVal value /\ truthy value = true
        /\ mem_str key (additional_metadata_keys cfg) = true).
Proof.
  intros Hrun Hin Hlab. split.
  - intros Hfalsy. destruct (md !! label) as [x|] eqn:Hx; [|reflexivity].
    destruct (video_scalar_lookup _ _ _ _ _ _ _ _ _ _ _ Hrun Hin Hlab Hx)
      as (_ & Ht & _).
    congruence.
  - intros x Hx. eapply video_scalar_lookup; eauto.
Qed.

Lemma video_scalar_emitted_only_when_truthy_witness :
  let instance :=
    Scenario.instance (Some [Scenario.clip]) (Some 3%Z) 0 49 in
  let md :=
    match
      _prepare_video_component_metadata Scenario.env (Scenario.config true)
        instance Scenario.clip (Some "/pub/clip.mov") true
    with
    | Ok md => md
    | Raise _ => ∅
    end in
  (truthy (PNum (NInt 0)) = false -> md !! "Frame start" = None)
  /\ (forall x, md !! "Frame start" = Some x ->
        x = MVal (PNum (NInt 0)) /\ truthy (PNum (NInt 0)) = true
        /\ mem_str "frame_start"
             (additional_metadata_keys (Scenario.config true)) = true).
Proof.
  intros instance md.
  apply (video_scalar_emitted_only_when_truthy Scenario.env
           (Scenario.config true) instance Scenario.clip "/pub/clip.mov"
           true md "frame_start" (PNum (NInt 0)) "Frame start").
  - vm_compute. reflexivity.
  - right. left. vm_compute. reflexivity.
  - reflexivity.
Defined.

(** C3 as stated fails: for a ".mp4" review whose probe fails, with
    frameStart=1001 and frameEnd=1010 on the instance and every key
    allow-listed, the map has no duration entry and no payload. *)
Lemma probe_failure_mp4_counterexample :
  ~ (exists md,
       _prepare_video_component_metadata Scenario.env (Scenario.config true)
         Scenario.one_review Scenario.review_main (Some "/pub/h264.mp4")
         true = Ok md
       /\ md !! "Duration" = Some (MVal (PNum (NInt 10)))
       /\ exists rate,
            md !! "ftr_meta" =
              Some (MJson [("frameIn", PNum (NInt 0));
                           ("frameOut", PNum (NInt 10));
                           ("frameRate", rate)])).
Proof.
  intros (md & Hrun & Hdur & _).
  vm_compute in Hrun. injection Hrun as <-.
  vm_compute in Hdur. discriminate Hdur.
Qed.

(** ** The thumbnail matcher *)

Lemma find_none_of_forall {A : Type} (f : A -> bool) (l : list A) :
  Forall (fun x => f x = false) l -> List.find f l = None.
Proof.
  induction 1 as [|x l Hx _ IH]; simpl; [reflexivity|].
  now rewrite Hx.
Qed.

(** C8: the matcher returns None exactly when there is no binding; with
    multi-sync off it returns the first binding, and no warning, for every
    review; a single binding is what every review gets, in either mode; with
    multi-sync on and no binding whose sync key equals the output name of
    the review or is among its tags, it logs the warning and returns the
    first binding. *)
Theorem matching_thumbnail_item_fallbacks :
  (forall review items multi,
     fst (_get_matching_thumbnail_item review items multi) = None
     <-> items = [])
  /\ (forall review items,
        _get_matching_thumbnail_item review items false = (head items, []))
  /\ (forall review td multi,
        fst (_get_matching_thumbnail_item review [td] multi) = Some td)
  /\ (forall review first rest,
        Forall (fun td => binds td review = false) (first :: rest) ->
        _get_matching_thumbnail_item review (first :: rest) true
        = (Some first, [no_match_warning (repre_outputName review)])).
Proof.
  split; [|split; [|split]].
  - intros review items multi. split.
    + destruct items as [|first rest]; [reflexivity|].
      unfold _get_matching_thumbnail_item.
      destruct (negb multi); [discriminate|].
      destruct (List.find _ _); discriminate.
    + intros ->. reflexivity.
  - intros review items. destruct items; reflexivity.
  - intros review td multi. unfold _get_matching_thumbnail_item.
    destruct (negb multi); [reflexivity|].
    simpl. destruct (_ || _); reflexivity.
  - intros review first rest Hnone. unfold _get_matching_thumbnail_item.
    cbn [negb].
    erewrite find_none_of_forall; [reflexivity | exact Hnone].
Qed.

Lemma matching_thumbnail_item_fallbacks_witness :
  let td name l :=
    {| sync_key := Some name; representation := Scenario.thumbnail_a;
       item := l; src_component := None |} in
  _get_matching_thumbnail_item Scenario.review_main [td "a" 0; td "b" 1] true
  = (Some (td "a" 0), [no_match_warning (Some "main")]).
Proof.
  intros td.
  apply (proj2 (proj2 (proj2 matching_thumbnail_item_fallbacks))).
  repeat constructor.
Defined.

(** ** Instances without representations *)

(** C5, as the code has it: when the representation list is empty or
    absent, [process] returns before the version check and before anything
    is stored under "ftrackComponentsList": no exception is raised, not even
    for a missing version, and no component list is written. *)
Theorem no_representations_skips
    (E : Env) (cfg : Config) (instance : Instance) :
  representations instance = None \/ representations instance = Some [] ->
  process E cfg instance = Ok None.
Proof.
  unfold process. intros [-> | ->]; reflexivity.
Qed.

Lemma no_representations_skips_witness :
  process Scenario.env (Scenario.config true) Scenario.no_representations
  = Ok None.
Proof.
  apply (no_representations_skips Scenario.env (Scenario.config true)
           Scenario.no_representations).
  right. reflexivity.
Defined.

(** C5 as stated fails: for an instance with an empty representation list
    no run stores a component list, an empty one included. *)
Lemma no_representations_counterexample :
  ~ (exists run,
       process Scenario.env (Scenario.config true)
         Scenario.no_representations = Ok (Some run)
       /\ components run = []).
Proof.
  intros (run & Hrun & _). discriminate Hrun.
Qed.

(** ** The scenarios, evaluated *)

(** C4 as stated fails: the list of the one-review scenario is not
    thumbnail, thumbnail shadow, review, review shadow. *)
Lemma one_review_order_counterexample :
  ~ (exists run,
       process Scenario.env (Scenario.config true) Scenario.one_review
       = Ok (Some run)
       /\ Scenario.names run
          = ["thumbnail"; "thumbnail_src";
             "ftrackreview-mp4"; "ftrackreview-mp4_src"]).
Proof.
  intros (run & Hrun & Hnames).
  vm_compute in Hrun. injection Hrun as <-.
  vm_compute in Hnames. discriminate Hnames.
Qed.

(** C1 as stated fails: in the one-review scenario the thumbnail is matched
    to one review and the list holds two "_src" components with the path of
    the thumbnail, not exactly one. *)
Lemma one_review_two_shadows_counterexample :
  ~ (exists run,
       process Scenario.env (Scenario.config true) Scenario.one_review
       = Ok (Some run)
       /\ length
            (List.filter
               (fun c =>
                  String.eqb (component_name c) "thumbnail_src"
                  && opt_str_eqb (component_path c) (Some "/pub/thumb.jpg"))
               (components run)) = 1%nat).
Proof.
  intros (run & Hrun & Hcount).
  vm_compute in Hrun. injection Hrun as <-.
  vm_compute in Hcount. discriminate Hcount.
Qed.


(** C2, the code at the failing input: with two video reviews and one
    thumbnail, the "_src" component appended while the thumbnail is built is
    the object the thumbnail binding keeps; it is first in the final list
    and the renaming done for the second review has changed its asset name
    after it was appended. No location occurs twice in the list: the alias
    is between the list and the binding. *)
Theorem appended_shadow_renamed_later :
  let instance := Scenario.two_reviews_one_thumbnail in
  let cfg := Scenario.config true in
  let base := base_component_item_of Scenario.env cfg instance 3 in
  let b := classify Scenario.env instance
             [Scenario.review_a; Scenario.review_b;
              Scenario.thumbnail_main] in
  exists ts run l before after,
    thumbnail_loop Scenario.env cfg instance base b = Ok ts
    /\ process Scenario.env cfg instance = Ok (Some run)
    /\ ts_component_list ts = [l]
    /\ head (ftrackComponentsList run) = Some l
    /\ List.NoDup (ftrackComponentsList run)
    /\ (exists td, ts_thumbnail_data_items ts = [td]
                   /\ src_component td = Some l)
    /\ ts_heap ts !! l = Some before
    /\ run_heap run !! l = Some after
    /\ asset_name before = "reviewMain"
    /\ asset_name after = "reviewMain_prores".
Proof.
  intros instance cfg base b.
  destruct (thumbnail_loop Scenario.env cfg instance base b) as [ts|] eqn:Hts;
    [|vm_compute in Hts; discriminate Hts].
  destruct (process Scenario.env cfg instance) as [[run|]|] eqn:Hrun;
    [|vm_compute in Hrun; discriminate Hrun
     |vm_compute in Hrun; discriminate Hrun].
  vm_compute in Hts. injection Hts as <-.
  vm_compute in Hrun. injection Hrun as <-.
  eexists _, _, 1%nat, _, _.
  split; [reflexivity|]. split; [reflexivity|].
  split; [reflexivity|]. split; [reflexivity|].
  split.
  { vm_compute.
    repeat (constructor; [simpl; intros H; repeat destruct H as [H|H];
                          discriminate || exact H|]).
    constructor. }
  split; [eexists; split; reflexivity|].
  split; [reflexivity|]. split; [reflexivity|].
  split; reflexivity.
Qed.

(** ** The heap *)

Lemma set_asset_name_id c : set_asset_name (asset_name c) c = c.
Proof. destruct c; reflexivity. Qed.

Lemma heap_ext_refl h : heap_ext h h.
Proof.
  intros l c Hl. exists (asset_name c). now rewrite set_asset_name_id.
Qed.

Lemma heap_ext_trans h1 h2 h3 :
  heap_ext h1 h2 -> heap_ext h2 h3 -> heap_ext h1 h3.
Proof.
  intros H12 H23 l c Hl.
  destruct (H12 _ _ Hl) as [n Hn]. destruct (H23 _ _ Hn) as [n' Hn'].
  exists n'. exact Hn'.
Qed.

Lemma heap_ext_app h k : heap_ext h (h ++ k).
Proof.
  intros l c Hl. exists (asset_name c).
  rewrite set_asset_name_id, lookup_app_l; [exact Hl|].
  eapply lookup_lt_Some; eauto.
Qed.

Lemma heap_ext_rename l n h : heap_ext h (rename l n h).
Proof.
  intros l' c Hl. unfold rename.
  destruct (decide (l = l')) as [->|Hne].
  - exists n. now rewrite list_lookup_alter_eq, Hl.
  - exists (asset_name c).
    now rewrite list_lookup_alter_ne, set_asset_name_id.
Qed.

Lemma heap_ext_rename_opt o n h : heap_ext h (rename_opt o n h).
Proof.
  destruct o; [apply heap_ext_rename | apply heap_ext_refl].
Qed.

Lemma heap_ext_length h h' : heap_ext h h' -> length h <= length h'.
Proof.
  intros Hext. destruct (decide (length h <= length h')) as [|Hgt]; [done|].
  assert (Hlt : length h' < length h) by lia.
  destruct (lookup_lt_is_Some_2 h (length h') Hlt) as [c Hc].
  destruct (Hext _ _ Hc) as [n Hn].
  apply lookup_lt_Some in Hn. lia.
Qed.

Lemma heap_ext_blind Q h h' l c :
  name_blind Q -> heap_ext h h' -> h !! l = Some c -> Q c ->
  exists c', h' !! l = Some c' /\ Q c'.
Proof.
  intros HQ Hext Hl Hc. destruct (Hext _ _ Hl) as [n Hn].
  eexists; split; [exact Hn | now apply HQ].
Qed.

Lemma length_rename_opt o n h : length (rename_opt o n h) = length h.
Proof. destruct o; [apply length_alter | reflexivity]. Qed.

Lemma Forall_rename_opt Q o n h :
  name_blind Q -> Forall Q h -> Forall Q (rename_opt o n h).
Proof.
  intros HQ Hall. destruct o as [l|]; [|exact Hall].
  unfold rename_opt, rename. apply Forall_alter; [exact Hall|].
  intros c _ Hc. now apply HQ.
Qed.

(** After the renaming of [o], the object at [l] carries the name when [l]
    is the renamed location. *)
Lemma rename_opt_name l n h c :
  rename_opt (Some l) n h !! l = Some c -> asset_name c = n.
Proof.
  unfold rename_opt, rename. rewrite list_lookup_alter_eq.
  destruct (h !! l) as [c0|]; simpl; intros Heq; [|discriminate Heq].
  injection Heq as Heq. now subst c.
Qed.

Lemma rename_opt_keeps_name o l n h c :
  h !! l = Some c -> asset_name c = n ->
  exists c', rename_opt o n h !! l = Some c' /\ asset_name c' = n.
Proof.
  intros Hl Hn. destruct o as [l'|]; [|eauto].
  unfold rename_opt, rename. destruct (decide (l' = l)) as [->|Hne].
  - rewrite list_lookup_alter_eq, Hl. simpl. eauto.
  - rewrite list_lookup_alter_ne by done. eauto.
Qed.

Lemma rename_opt_frame o n h l :
  o <> Some l -> rename_opt o n h !! l = h !! l.
Proof.
  destruct o as [l'|]; [|reflexivity].
  intros Hne. unfold rename_opt, rename.
  apply list_lookup_alter_ne. congruence.
Qed.

(** [copy_opt] appends the copy, if any. *)
Lemma copy_opt_spec o h o' h' :
  copy_opt o h = (o', h') ->
  (o' = None /\ h' = h)
  \/ (exists l c, o = Some l /\ h !! l = Some c
                  /\ o' = Some (length h) /\ h' = (h ++ [c])%list).
Proof.
  unfold copy_opt. destruct o as [l|]; [|intros [= <- <-]; now left].
  destruct (h !! l) as [c|] eqn:Hl; [|intros [= <- <-]; now left].
  unfold alloc. intros [= <- <-]. right. eauto 6.
Qed.

(** ** The steps of [process] *)

Lemma extended_name_truthy cfg c repre index n :
  _make_extended_component_name cfg c repre index = Some n ->
  str_truthy n = true.
Proof.
  unfold _make_extended_component_name.
  destruct (_ && _); [discriminate|]. intros [= <-].
  destruct (asset_name c); reflexivity.
Qed.

Section StepFacts.

Context (E : Env) (cfg : Config) (instance : Instance).

Lemma create_src_spec repre c location c' :
  _create_src_component E cfg instance repre c location = Ok c' ->
  exists d md,
    component_data c = Some d
    /\ _prepare_component_metadata E cfg instance repre (component_path c)
         false = Ok md
    /\ c' = set_component_data
              {| cd_name := cd_name d ++ "_src"; cd_metadata := md |}
              (set_component_location_name location (set_thumbnail false c)).
Proof.
  unfold _create_src_component. cbn [component_data set_component_location_name
    set_thumbnail component_path].
  destruct (component_data c) as [d|]; [|discriminate].
  destruct (_prepare_component_metadata _ _ _ _ _ _) as [md|];
    [|discriminate].
  cbn [mbind result_bind]. intros [= <-]. eauto.
Qed.

Lemma build_review_item_spec repre ri1 ri :
  build_review_item E cfg instance repre ri1 = Ok ri ->
  asset_name ri = asset_name ri1
  /\ component_path ri = get_publish_repre_path E instance repre false
  /\ component_name ri =
       (if _is_repre_video E repre then "ftrackreview-mp4"
        else "ftrackreview-image").
Proof.
  unfold build_review_item.
  destruct (_is_repre_video E repre).
  - destruct (_prepare_video_component_metadata _ _ _ _ _ _) as [md|];
      [|discriminate].
    cbn [mbind result_bind]. intros [= <-]. auto.
  - cbn [mbind result_bind]. intros [= <-]. auto.
Qed.

Lemma append_review_spec repre ri h src_loc review_loc origin_loc h' :
  append_review E cfg instance repre ri h
  = Ok (src_loc, review_loc, origin_loc, h') ->
  exists news,
    h' = (h ++ news)%list
    /\ (option_list src_loc ++ [review_loc] ++ option_list origin_loc)%list
       = seq (length h) (length news)
    /\ Forall (fun c => asset_name c = asset_name ri
                        /\ component_path c = component_path ri) news
    /\ h' !! review_loc = Some ri.
Proof.
  unfold append_review.
  destruct (negb (mem_str "delete" (repre_tags repre))).
  - destruct (_create_src_component _ _ _ _ _ _) as [src|] eqn:Hsrc;
      [|discriminate].
    destruct (create_src_spec _ _ _ _ Hsrc) as (d & md & _ & _ & ->).
    cbn [mbind result_bind alloc].
    destruct (upload_reviewable_with_origin_name cfg).
    + destruct (get_publish_repre_path E instance repre false) as [p|];
        [|discriminate].
      cbn [mbind result_bind alloc]. intros [= <- <- <- <-].
      eexists [_; _; _]. rewrite <- !app_assoc. cbn [app].
      split; [reflexivity|]. split; [|split].
      * rewrite ?length_app. unfold option_list. simpl.
        repeat (f_equal; try lia).
      * repeat constructor.
      * rewrite !length_app. cbn [length].
        rewrite lookup_app_r by lia.
        replace (length h + 1 - length h) with 1 by lia. reflexivity.
    + cbn [mbind result_bind]. intros [= <- <- <- <-].
      eexists [_; _]. rewrite <- !app_assoc. cbn [app].
      split; [reflexivity|]. split; [|split].
      * rewrite ?length_app. unfold option_list. simpl.
        repeat (f_equal; try lia).
      * repeat constructor.
      * rewrite !length_app. cbn [length].
        rewrite lookup_app_r by lia.
        replace (length h + 1 - length h) with 1 by lia. reflexivity.
  - cbn [mbind result_bind alloc].
    destruct (upload_reviewable_with_origin_name cfg).
    + destruct (get_publish_repre_path E instance repre false) as [p|];
        [|discriminate].
      cbn [mbind result_bind alloc]. intros [= <- <- <- <-].
      eexists [_; _]. rewrite <- !app_assoc. cbn [app].
      split; [reflexivity|]. split; [|split].
      * rewrite ?length_app. unfold option_list. simpl.
        repeat (f_equal; try lia).
      * repeat constructor.
      * rewrite lookup_app_r by lia.
        replace (length h - length h) with 0 by lia. reflexivity.
    + cbn [mbind result_bind]. intros [= <- <- <- <-].
      eexists [_]. split; [reflexivity|]. split; [|split].
      * reflexivity.
      * repeat constructor.
      * rewrite lookup_app_r by lia.
        replace (length h - length h) with 0 by lia. reflexivity.
Qed.

Lemma rename_for_review_spec multiple ext sync_item sync_src ri0 h ri1 h2 :
  rename_for_review multiple ext sync_item sync_src ri0 h = (ri1, h2) ->
  length h2 = length h
  /\ heap_ext h h2
  /\ (exists n', ri1 = set_asset_name n' ri0)
  /\ (forall l, sync_item <> Some l -> sync_src <> Some l ->
        h2 !! l = h !! l)
  /\ (forall Q, name_blind Q -> Forall Q h -> Forall Q h2)
  /\ (forall n, multiple = true -> ext = Some n -> str_truthy n = true ->
        asset_name ri1 = n
        /\ forall l c, sync_item = Some l \/ sync_src = Some l ->
             h2 !! l = Some c -> asset_name c = n).
Proof.
  unfold rename_for_review.
  assert (Hid : forall hh : heap,
            length hh = length hh /\ heap_ext hh hh
            /\ (exists n', ri0 = set_asset_name n' ri0)
            /\ (forall l, sync_item <> Some l -> sync_src <> Some l ->
                  hh !! l = hh !! l)
            /\ (forall Q, name_blind Q -> Forall Q hh -> Forall Q hh)).
  { intros hh. repeat split; auto using heap_ext_refl.
    exists (asset_name ri0). now rewrite set_asset_name_id. }
  destruct ext as [n|].
  - destruct (multiple && str_truthy n) eqn:Hc.
    + intros [= <- <-]. rewrite !length_rename_opt.
      split; [reflexivity|]. split; [|split; [|split; [|split]]].
      * eapply heap_ext_trans; apply heap_ext_rename_opt.
      * eauto.
      * intros l H1 H2. now rewrite !rename_opt_frame.
      * intros Q HQ Hall. now apply Forall_rename_opt, Forall_rename_opt.
      * intros n0 _ [= <-] _. split; [reflexivity|].
        intros l c Hl Hc'.
        destruct (decide (sync_src = Some l)) as [->|Hne].
        -- eapply rename_opt_name; eauto.
        -- rewrite rename_opt_frame in Hc' by done.
           destruct Hl as [-> | ->]; [|done].
           eapply rename_opt_name; eauto.
    + intros [= <- <-]. destruct (Hid h) as (? & ? & ? & ? & ?).
      split; [|split; [|split; [|split; [|split]]]]; auto.
      intros n0 -> [= <-] Ht. rewrite Ht in Hc. discriminate Hc.
  - intros [= <- <-]. destruct (Hid h) as (? & ? & ? & ? & ?).
    split; [|split; [|split; [|split; [|split]]]]; auto.
    intros; discriminate.
Qed.

End StepFacts.

Lemma copy_opt_app o h o' h' :
  copy_opt o h = (o', h') ->
  exists k,
    h' = (h ++ k)%list
    /\ option_list o' = seq (length h) (length k)
    /\ Forall (fun c => exists l, o = Some l /\ h !! l = Some c) k
    /\ (forall l', o' = Some l' ->
          exists l c, o = Some l /\ h !! l = Some c /\ h' !! l' = Some c).
Proof.
  intros Hcopy.
  destruct (copy_opt_spec _ _ _ _ Hcopy)
    as [[-> ->]|(l & c & -> & Hl & -> & ->)].
  - exists []. rewrite app_nil_r. repeat split; [constructor|discriminate].
  - exists [c]. repeat split.
    + repeat constructor. eauto.
    + intros l' [= <-]. exists l, c. repeat split; [assumption|].
      rewrite lookup_app_r by lia.
      replace (length h - length h) with 0 by lia. reflexivity.
Qed.

Lemma matching_thumbnail_item_in review items multi td w :
  _get_matching_thumbnail_item review items multi = (Some td, w) ->
  In td items.
Proof.
  unfold _get_matching_thumbnail_item.
  destruct items as [|first rest]; [discriminate|].
  destruct (negb multi); [intros [= <- _]; now left|].
  destruct (List.find _ _) as [t|] eqn:Hfind.
  - intros [= <- _]. now apply find_some in Hfind as [? _].
  - intros [= <- _]. now left.
Qed.

Section ReviewLoopFacts.

Context (E : Env) (cfg : Config) (instance : Instance).
Context (base : ComponentItem) (tdi : list ThumbData).
Context (multi multiple has_movie : bool).

(** What one iteration that is not skipped does to the state. *)
Lemma review_iteration_spec index repre st st' :
  review_iteration E cfg instance base tdi multi multiple has_movie
    index repre st = Ok st' ->
  (forall td, In td tdi ->
     item td < length (rs_heap st)
     /\ forall s, src_component td = Some s -> s < length (rs_heap st)) ->
  st' = st
  \/ exists e td_opt w ri1 h2 added,
       _get_matching_thumbnail_item repre tdi multi = (td_opt, w)
       /\ rename_for_review multiple
            (_make_extended_component_name cfg base repre index)
            (item <$> td_opt) (td_opt ≫= src_component) base (rs_heap st)
          = (ri1, h2)
       /\ rs_heap st' = (h2 ++ added)%list
       /\ rs_entries st' = (rs_entries st ++ [e])%list
       /\ re_index e = index /\ re_repre e = repre
       /\ rs_extended_asset_name st'
          = _make_extended_component_name cfg base repre index
       /\ entries_locs e = seq (length h2) (length added)
       /\ Forall
            (fun c =>
               (exists td l,
                  td_opt = Some td
                  /\ (l = item td \/ src_component td = Some l)
                  /\ h2 !! l = Some c)
               \/ (asset_name c = asset_name ri1
                   /\ component_path c
                      = get_publish_repre_path E instance repre false))
            added
       /\ (forall l, re_thumbnail_src e = Some l ->
             exists td s c,
               td_opt = Some td /\ src_component td = Some s
               /\ h2 !! s = Some c /\ (h2 ++ added)%list !! l = Some c)
       /\ exists ri, (h2 ++ added)%list !! re_review e = Some ri
                     /\ build_review_item E cfg instance repre ri1 = Ok ri.
Proof.
  unfold review_iteration. intros Hrun Hbound.
  destruct (negb (_is_repre_video E repre) && has_movie);
    [injection Hrun as <-; now left|].
  right.
  destruct (_get_matching_thumbnail_item repre tdi multi)
    as [td_opt w] eqn:Hmatch.
  destruct (rename_for_review _ _ _ _ _ _) as [ri1 h2] eqn:Hren.
  destruct (copy_opt (item <$> td_opt) h2) as [thumb_copy h3] eqn:Hc1.
  destruct (copy_opt (td_opt ≫= src_component) h3) as [src_copy h4] eqn:Hc2.
  destruct (build_review_item E cfg instance repre ri1) as [ri|] eqn:Hri;
    [|discriminate].
  cbn [mbind result_bind] in Hrun.
  destruct (append_review E cfg instance repre ri h4)
    as [[[[src_loc review_loc] origin_loc] h7]|] eqn:Happ; [|discriminate].
  cbn [mbind result_bind] in Hrun. injection Hrun as <-.
  destruct (rename_for_review_spec _ _ _ _ _ _ _ _ Hren)
    as (Hlen & _ & _ & _ & _ & _).
  destruct (copy_opt_app _ _ _ _ Hc1) as (k1 & -> & Hs1 & Hk1 & _).
  destruct (copy_opt_app _ _ _ _ Hc2) as (k2 & -> & Hs2 & Hk2 & Hsrc).
  destruct (append_review_spec _ _ _ _ _ _ _ _ _ _ Happ)
    as (news & -> & Hs3 & Hnews & Hreview).
  destruct (build_review_item_spec _ _ _ _ _ _ Hri) as (Hname & Hpath & _).
  assert (Hsrc_bound : forall td s, td_opt = Some td ->
            src_component td = Some s -> s < length h2).
  { intros td s -> Hs. rewrite Hlen.
    apply (Hbound td); [|exact Hs].
    eapply matching_thumbnail_item_in; eauto. }
  eexists _, td_opt, w, ri1, h2, (k1 ++ k2 ++ news)%list.
  split; [reflexivity|]. split; [exact Hren|].
  cbn [rs_heap rs_entries rs_extended_asset_name].
  split; [now rewrite <- !app_assoc|].
  split; [reflexivity|]. split; [reflexivity|]. split; [reflexivity|].
  split; [reflexivity|].
  split; [|split; [|split]].
  - unfold entries_locs.
    cbn [re_thumbnail re_thumbnail_src re_src re_review re_origin].
    rewrite Hs1, Hs2, Hs3, !length_app, !seq_app.
    repeat (f_equal; try lia).
  - apply Forall_app. split; [|apply Forall_app; split].
    + eapply Forall_impl; [exact Hk1|]. cbn beta.
      intros c (l & Hl & Hc). left.
      destruct td_opt as [td|]; [|discriminate Hl].
      injection Hl as <-. eauto 6.
    + eapply Forall_impl; [exact Hk2|]. cbn beta.
      intros c (l & Hl & Hc). left.
      destruct td_opt as [td|]; [|discriminate Hl].
      cbn in Hl. exists td, l. split; [reflexivity|]. split; [now right|].
      rewrite lookup_app_l in Hc; [exact Hc | eauto].
    + eapply Forall_impl; [exact Hnews|]. cbn beta.
      intros c [Hn Hp]. right. split; congruence.
  - cbn [re_thumbnail_src]. intros l Hl.
    destruct (Hsrc _ Hl) as (s & c & Hs & Hc & Hl').
    destruct td_opt as [td|]; [|discriminate Hs]. cbn in Hs.
    exists td, s, c. split; [reflexivity|]. split; [exact Hs|].
    split.
    + rewrite lookup_app_l in Hc; [exact Hc | eauto].
    + rewrite !app_assoc. rewrite lookup_app_l; [exact Hl'|].
      eapply lookup_lt_Some; eauto.
  - cbn [re_review]. exists ri. split; [|exact Hri].
    rewrite !app_assoc. rewrite <- !app_assoc in Hreview.
    rewrite <- !app_assoc. exact Hreview.
Qed.

End ReviewLoopFacts.

Lemma path_resolved_blind E instance reps :
  name_blind (path_resolved E instance reps).
Proof. intros n c (r & b & p & ?). exists r, b, p. exact H. Qed.

Lemma path_truthy_Some p :
  path_truthy p = true -> exists s, p = Some s /\ str_truthy s = true.
Proof. destruct p as [s|]; [eauto | discriminate]. Qed.

Section ReviewInvariant.

Context (E : Env) (cfg : Config) (instance : Instance).
Context (reps : list Repre) (base : ComponentItem) (tdi : list ThumbData).
Context (multi multiple has_movie : bool) (h0 : heap).

Hypothesis tdi_bound :
  forall td, In td tdi ->
    item td < length h0
    /\ forall s, src_component td = Some s -> s < length h0.

Lemma review_iteration_inv index repre st st' :
  review_iteration E cfg instance base tdi multi multiple has_movie
    index repre st = Ok st' ->
  reviewable E instance reps repre ->
  review_inv E cfg instance reps base tdi multiple h0 st ->
  review_inv E cfg instance reps base tdi multiple h0 st'.
Proof.
  intros Hrun [Hin Hpath] (Hext & Hres & Hentries).
  pose proof (heap_ext_length _ _ Hext) as Hlen0.
  assert (Hbound : forall td, In td tdi ->
            item td < length (rs_heap st)
            /\ forall s, src_component td = Some s ->
                 s < length (rs_heap st)).
  { intros td Htd. destruct (tdi_bound td Htd) as [Hi Hs].
    split; [lia|]. intros s Hsrc. specialize (Hs s Hsrc). lia. }
  destruct (review_iteration_spec _ _ _ _ _ _ _ _ _ _ _ _ Hrun Hbound)
    as [-> | (e & td_opt & w & ri1 & h2 & added & Hmatch & Hren & Hheap
              & Hent & Hidx & Hrep & _ & Hlocs & Hadded & Hsrc & _)].
  { exact (conj Hext (conj Hres Hentries)). }
  unfold review_inv.
  destruct (rename_for_review_spec _ _ _ _ _ _ _ _ Hren)
    as (Hlen & Hext2 & _ & Hframe & Hblind & Hnames).
  assert (Hframe' : forall l, length h0 <= l -> h2 !! l = rs_heap st !! l).
  { intros l Hl. apply Hframe.
    - destruct td_opt as [td|]; [|discriminate].
      intros [= <-].
      destruct (tdi_bound td) as [Hi _]; [|lia].
      eapply matching_thumbnail_item_in; eauto.
    - destruct td_opt as [td|]; [|discriminate].
      cbn. intros Hs.
      destruct (tdi_bound td) as [_ Hb];
        [eapply matching_thumbnail_item_in; eauto|].
      specialize (Hb _ Hs). lia. }
  assert (Hkeep : forall l c, length h0 <= l -> rs_heap st !! l = Some c ->
            (h2 ++ added)%list !! l = Some c).
  { intros l c Hl Hc. rewrite lookup_app_l.
    - now rewrite Hframe'.
    - rewrite Hlen. eapply lookup_lt_Some; eauto. }
  rewrite Hheap, Hent. split; [|split].
  - eapply heap_ext_trans; [exact Hext|].
    eapply heap_ext_trans; [exact Hext2 | apply heap_ext_app].
  - apply Forall_app. split.
    + apply Hblind; [apply path_resolved_blind | exact Hres].
    + eapply Forall_impl; [exact Hadded|]. cbn beta.
      intros c [(td & l & _ & _ & Hc) | [_ Hp]].
      * assert (Hall : Forall (path_resolved E instance reps) h2)
          by (apply Hblind; [apply path_resolved_blind | exact Hres]).
        rewrite Forall_lookup in Hall. eapply Hall; eauto.
      * destruct (path_truthy_Some _ Hpath) as (p & Hp' & Htruthy).
        exists repre, false, p. rewrite Hp. auto.
  - intros e' He'. apply in_app_or in He' as [Hold | [<- | []]].
    + destruct (Hentries _ Hold) as [Hl Hs]. split.
      * intros l Hin'. destruct (Hl _ Hin') as (Hge & c & Hc & Hn).
        split; [exact Hge|]. exists c. split; [|exact Hn]. now apply Hkeep.
      * intros l Hsrc'.
        destruct (Hs _ Hsrc') as (td & s & c0 & n & Htd & Hsc & H0 & Hc).
        exists td, s, c0, n. repeat split; try assumption.
        apply Hkeep; [|exact Hc].
        apply (Hl l). unfold entries_locs. rewrite Hsrc'.
        apply in_or_app. right. apply in_or_app. left. now left.
    + split.
      * intros l Hin'. rewrite Hlocs in Hin'. apply in_seq in Hin'.
        split; [lia|].
        assert (Hlt : l - length h2 < length added) by lia.
        destruct (lookup_lt_is_Some_2 added _ Hlt) as [c Hc].
        exists c. split.
        -- rewrite lookup_app_r by lia. exact Hc.
        -- intros Hmult n Hn. rewrite Hidx, Hrep in Hn.
           destruct (Hnames n Hmult Hn (extended_name_truthy _ _ _ _ _ Hn))
             as [Hri Hcopies].
           rewrite Forall_lookup in Hadded.
           destruct (Hadded _ _ Hc) as [(td & l0 & -> & Hl0 & Hc0) | [Hc0 _]].
           ++ eapply Hcopies; [|exact Hc0].
              destruct Hl0 as [-> | Hl0]; [now left | now right].
           ++ congruence.
      * intros l Hl.
        destruct (Hsrc _ Hl) as (td & s & c & -> & Hs & Hc & Hc').
        assert (Htd : In td tdi)
          by (eapply matching_thumbnail_item_in; eauto).
        destruct (tdi_bound td Htd) as [_ Hb]. specialize (Hb _ Hs).
        destruct (lookup_lt_is_Some_2 h0 _ Hb) as [c0 Hc0].
        destruct (heap_ext_trans _ _ _ Hext Hext2 _ _ Hc0) as [n Hn].
        exists td, s, c0, n. repeat split; try assumption.
        congruence.
Qed.

Lemma review_loop_inv repres : forall index st st',
  review_loop E cfg instance base tdi multi multiple has_movie
    index repres st = Ok st' ->
  Forall (reviewable E instance reps) repres ->
  review_inv E cfg instance reps base tdi multiple h0 st ->
  review_inv E cfg instance reps base tdi multiple h0 st'.
Proof.
  induction repres as [|repre rest IH]; intros index st st' Hrun Hall Hinv.
  - injection Hrun as <-. exact Hinv.
  - cbn [review_loop] in Hrun.
    destruct (review_iteration _ _ _ _ _ _ _ _ _ _ _) as [st1|] eqn:Hit;
      [|discriminate].
    cbn [mbind result_bind] in Hrun.
    inversion Hall as [|? ? Hr Hrest]; subst.
    eapply IH; [exact Hrun | exact Hrest|].
    eapply review_iteration_inv; eauto.
Qed.

End ReviewInvariant.

Section ThumbnailLoopFacts.

Context (E : Env) (cfg : Config) (instance : Instance).
Context (reps : list Repre) (base : ComponentItem) (have_reviews : bool).

Lemma thumbnail_step_spec st repre st' :
  thumbnail_step E cfg instance base have_reviews st repre = Ok st' ->
  In repre reps ->
  thumb_inv E cfg instance reps have_reviews st ->
  thumb_inv E cfg instance reps have_reviews st'
  /\ (exists k, ts_heap st' = (ts_heap st ++ k)%list)
  /\ (exists cl, ts_component_list st' = (ts_component_list st ++ cl)%list)
  /\ (path_truthy (get_publish_repre_path E instance repre false) = true ->
      mem_str "delete" (repre_tags repre) = false ->
      exists l c,
        In l (ts_component_list st') /\ ts_heap st' !! l = Some c
        /\ thumbnail_shadow E cfg instance have_reviews repre c).
Proof.
  unfold thumbnail_step. intros Hrun Hin Hinv.
  destruct (path_truthy (get_publish_repre_path E instance repre false))
    eqn:Hpath; cbn [negb] in Hrun.
  2:{ injection Hrun as <-. split; [exact Hinv|].
      split; [exists []; now rewrite app_nil_r|].
      split; [exists []; now rewrite app_nil_r|]. discriminate. }
  destruct (path_truthy_Some _ Hpath) as (p & Hp & Htruthy).
  destruct Hinv as (Hres & Htdi & Hcl & Hti).
  set (titem := set_component_location_name _ _) in Hrun.
  assert (Hres_t : path_resolved E instance reps titem).
  { exists repre, false, p. subst titem. cbn. auto. }
  cbn [alloc] in Hrun.
  destruct (negb (mem_str "delete" (repre_tags repre))) eqn:Hdel.
  - destruct (_create_src_component _ _ _ _ _ _) as [src|] eqn:Hsrc;
      [|discriminate].
    cbn [mbind result_bind alloc] in Hrun. injection Hrun as <-.
    destruct (create_src_spec _ _ _ _ _ _ _ Hsrc)
      as (d & md & Hd & Hmd & Hsrc').
    assert (Hshadow : thumbnail_shadow E cfg instance have_reviews repre src).
    { subst src titem. cbn in Hd. injection Hd as <-.
      cbn in Hmd. unfold thumbnail_shadow. cbn.
      repeat split. exact Hmd. }
    assert (Hres_s : path_resolved E instance reps src).
    { exists repre, false, p. destruct Hshadow as (_ & -> & _). auto. }
    assert (Hlook : ((ts_heap st ++ [titem]) ++ [src])%list
                    !! length (ts_heap st ++ [titem]) = Some src).
    { rewrite lookup_app_r by lia.
      now replace (length (ts_heap st ++ [titem])
                   - length (ts_heap st ++ [titem])) with 0 by lia. }
    unfold thumb_inv.
    cbn [ts_heap ts_component_list ts_thumbnail_data_items ts_thumbnail_item].
    split; [split; [|split; [|split]]|split; [|split]].
    + repeat (apply Forall_app; split); auto.
    + intros td Htd. rewrite !length_app. cbn [length].
      apply in_app_or in Htd as [Hold | [<- | []]].
      * destruct (Htdi _ Hold) as (Hrp & Hi & Hs).
        split; [exact Hrp|]. split; [lia|].
        intros s Hsrc0. destruct (Hs _ Hsrc0) as (Hlt & c & Hc & Hsh).
        split; [lia|]. exists c. split; [|exact Hsh].
        rewrite <- app_assoc. rewrite lookup_app_l; assumption.
      * cbn [item src_component representation].
        split; [exact Hin|]. split; [lia|]. intros s [= <-].
        split; [rewrite length_app; cbn [length]; lia|].
        exists src. split; [exact Hlook | exact Hshadow].
    + intros l Hl. rewrite !length_app. cbn [length].
      apply in_app_or in Hl as [Hold | [<- | []]].
      * specialize (Hcl _ Hold). lia.
      * rewrite length_app. cbn [length]. lia.
    + intros l [= <-]. rewrite !length_app. cbn [length]. lia.
    + exists [titem; src]. now rewrite <- app_assoc.
    + eauto.
    + intros _ _. exists (length (ts_heap st ++ [titem])), src.
      split; [apply in_or_app; right; now left|].
      split; [exact Hlook | exact Hshadow].
  - injection Hrun as <-.
    unfold thumb_inv.
    cbn [ts_heap ts_component_list ts_thumbnail_data_items ts_thumbnail_item].
    split; [split; [|split; [|split]]|split; [|split]].
    + apply Forall_app; split; auto.
    + intros td Htd. rewrite !length_app. cbn [length].
      apply in_app_or in Htd as [Hold | [<- | []]].
      * destruct (Htdi _ Hold) as (Hrp & Hi & Hs).
        split; [exact Hrp|]. split; [lia|].
        intros s Hsrc0. destruct (Hs _ Hsrc0) as (Hlt & c & Hc & Hsh).
        split; [lia|]. exists c. split; [|exact Hsh].
        rewrite lookup_app_l; assumption.
      * cbn [item src_component representation].
        split; [exact Hin|]. split; [lia|]. discriminate.
    + intros l Hl. rewrite !length_app. cbn [length].
      specialize (Hcl _ Hl). lia.
    + intros l [= <-]. rewrite !length_app. cbn [length]. lia.
    + eauto.
    + exists []. now rewrite app_nil_r.
    + intros _ Hnd. rewrite Hnd in Hdel. discriminate Hdel.
Qed.

Lemma thumbnail_fold_inv thumbs : forall st st',
  foldl_result (thumbnail_step E cfg instance base have_reviews) thumbs st
  = Ok st' ->
  Forall (fun r => In r reps) thumbs ->
  thumb_inv E cfg instance reps have_reviews st ->
  thumb_inv E cfg instance reps have_reviews st'
  /\ (exists k, ts_heap st' = (ts_heap st ++ k)%list)
  /\ (exists cl, ts_component_list st' = (ts_component_list st ++ cl)%list)
  /\ (forall repre, In repre thumbs ->
      path_truthy (get_publish_repre_path E instance repre false) = true ->
      mem_str "delete" (repre_tags repre) = false ->
      exists l c,
        In l (ts_component_list st') /\ ts_heap st' !! l = Some c
        /\ thumbnail_shadow E cfg instance have_reviews repre c).
Proof.
  induction thumbs as [|repre rest IH]; intros st st' Hrun Hall Hinv.
  - injection Hrun as <-. split; [exact Hinv|].
    split; [exists []; now rewrite app_nil_r|].
    split; [exists []; now rewrite app_nil_r|]. intros ? [].
  - cbn [foldl_result] in Hrun.
    destruct (thumbnail_step _ _ _ _ _ _ _) as [st1|] eqn:Hstep;
      [|discriminate].
    cbn [mbind result_bind] in Hrun.
    inversion Hall as [|? ? Hr Hrest]; subst.
    destruct (thumbnail_step_spec _ _ _ Hstep Hr Hinv)
      as (Hinv1 & [k1 Hk1] & [cl1 Hcl1] & Hsh1).
    destruct (IH _ _ Hrun Hrest Hinv1)
      as (Hinv' & [k2 Hk2] & [cl2 Hcl2] & Hsh2).
    split; [exact Hinv'|].
    split; [exists (k1 ++ k2)%list; now rewrite Hk2, Hk1, app_assoc|].
    split; [exists (cl1 ++ cl2)%list; now rewrite Hcl2, Hcl1, app_assoc|].
    intros r [<- | Hin] Hp Hd; [|eauto].
    destruct (Hsh1 Hp Hd) as (l & c & Hl & Hc & Hsh).
    exists l, c. split; [|split; [|exact Hsh]].
    + rewrite Hcl2. apply in_or_app. now left.
    + rewrite Hk2. rewrite lookup_app_l; [exact Hc|].
      eapply lookup_lt_Some; eauto.
Qed.

End ThumbnailLoopFacts.

Lemma path_resolved_mono E instance reps reps' c :
  (forall r, In r reps -> In r reps') ->
  path_resolved E instance reps c -> path_resolved E instance reps' c.
Proof.
  intros Hsub (r & b & p & Hin & ?). exists r, b, p. split; auto.
Qed.

Section OtherLoopFacts.

Context (E : Env) (cfg : Config) (instance : Instance).
Context (reps : list Repre) (base : ComponentItem) (multiple : bool).
Context (extended : option string).

Lemma other_step_spec st repre st' :
  other_step E cfg instance base multiple extended st repre = Ok st' ->
  In repre reps ->
  exists k ol,
    fst st' = (fst st ++ k)%list /\ snd st' = (snd st ++ ol)%list
    /\ Forall (path_resolved E instance reps) k
    /\ Forall (fun l => l < length (fst st')) ol.
Proof.
  unfold other_step. intros Hrun Hin.
  destruct (path_truthy (get_publish_repre_path E instance repre true))
    eqn:Hpath; cbn [negb] in Hrun.
  2:{ injection Hrun as <-. exists [], []. rewrite !app_nil_r.
      repeat split; constructor. }
  destruct (path_truthy_Some _ Hpath) as (p & Hp & Htruthy).
  destruct (_prepare_component_metadata _ _ _ _ _ _) as [md|];
    [|discriminate].
  cbn [mbind result_bind alloc] in Hrun. injection Hrun as <-.
  eexists [_], [_]. cbn [fst snd].
  split; [reflexivity|]. split; [reflexivity|]. split.
  - repeat constructor. exists repre, true, p. cbn. auto.
  - repeat constructor. rewrite length_app. cbn [length]. lia.
Qed.

Lemma other_fold_spec others : forall st st',
  foldl_result (other_step E cfg instance base multiple extended) others st
  = Ok st' ->
  Forall (fun r => In r reps) others ->
  exists k ol,
    fst st' = (fst st ++ k)%list /\ snd st' = (snd st ++ ol)%list
    /\ Forall (path_resolved E instance reps) k
    /\ Forall (fun l => l < length (fst st')) ol.
Proof.
  induction others as [|repre rest IH]; intros st st' Hrun Hall.
  - injection Hrun as <-. exists [], []. rewrite !app_nil_r.
    repeat split; constructor.
  - cbn [foldl_result] in Hrun.
    destruct (other_step _ _ _ _ _ _ _ _) as [st1|] eqn:Hstep;
      [|discriminate].
    cbn [mbind result_bind] in Hrun.
    inversion Hall as [|? ? Hr Hrest]; subst.
    destruct (other_step_spec _ _ _ Hstep Hr)
      as (k1 & ol1 & Hh1 & Hl1 & Hk1 & Hol1).
    destruct (IH _ _ Hrun Hrest) as (k2 & ol2 & Hh2 & Hl2 & Hk2 & Hol2).
    exists (k1 ++ k2)%list, (ol1 ++ ol2)%list.
    rewrite Hh2, Hl2, Hh1, Hl1, <- !app_assoc.
    split; [reflexivity|]. split; [reflexivity|]. split.
    + apply Forall_app. auto.
    + apply Forall_app. split; [|now rewrite Hh2, Hh1, <- app_assoc in Hol2].
      eapply Forall_impl; [exact Hol1|]. cbn beta. intros l Hl.
      rewrite Hh1 in Hl. rewrite !length_app in *. lia.
Qed.

End OtherLoopFacts.

(** ** The classifier *)

Section ClassifyFacts.

Context (E : Env) (instance : Instance).

Lemma classify_step_within reps b repre :
  In repre reps -> buckets_within E instance reps b ->
  buckets_within E instance reps (classify_step E instance b repre).
Proof.
  intros Hin (Hr & Ht & Ho). unfold classify_step.
  destruct (mem_str "publish_on_farm" (repre_tags repre));
    [repeat split; assumption|].
  destruct (repre_thumbnail repre || mem_str "thumbnail" (repre_tags repre)).
  { repeat split; cbn; try assumption.
    apply Forall_app. split; [assumption | now repeat constructor]. }
  destruct (mem_str "ftrackreview" (repre_tags repre)
            && path_truthy (get_publish_repre_path E instance repre false))
    eqn:Hc.
  - apply andb_prop in Hc as [_ Hp].
    repeat split; cbn; try assumption.
    apply Forall_app. split; [assumption|].
    repeat constructor; assumption.
  - repeat split; cbn; try assumption.
    apply Forall_app. split; [assumption | now repeat constructor].
Qed.

Lemma classify_fold_within reps l : forall b,
  (forall r, In r l -> In r reps) -> buckets_within E instance reps b ->
  buckets_within E instance reps (fold_left (classify_step E instance) l b).
Proof.
  induction l as [|r l IH]; intros b Hsub Hb; [exact Hb|].
  cbn [fold_left]. apply IH; [intros; apply Hsub; now right|].
  apply classify_step_within; [apply Hsub; now left | exact Hb].
Qed.

Lemma classify_within reps :
  buckets_within E instance reps (classify E instance reps).
Proof.
  apply classify_fold_within; [auto|]. repeat split; constructor.
Qed.

(** The thumbnail bucket only grows, and a representation that is not for
    the farm and has the thumbnail flag or tag enters it. *)
Lemma classify_fold_thumbnail l : forall b r,
  In r (thumbnail_representations b)
  \/ (In r l /\ mem_str "publish_on_farm" (repre_tags r) = false
      /\ repre_thumbnail r || mem_str "thumbnail" (repre_tags r) = true) ->
  In r (thumbnail_representations
          (fold_left (classify_step E instance) l b)).
Proof.
  induction l as [|x l IH]; intros b r H.
  - destruct H as [H | [[] _]]. exact H.
  - cbn [fold_left]. apply IH.
    destruct H as [H | ([<- | Hin] & Hf & Ht)].
    + left. unfold classify_step.
      destruct (mem_str "publish_on_farm" (repre_tags x)); [exact H|].
      destruct (repre_thumbnail x || mem_str "thumbnail" (repre_tags x)).
      * cbn. apply in_or_app. now left.
      * destruct (_ && _); exact H.
    + left. unfold classify_step. rewrite Hf, Ht. cbn.
      apply in_or_app. right. now left.
    + right. auto.
Qed.

Lemma surviving_reviews_within reps b :
  buckets_within E instance reps b ->
  Forall (reviewable E instance reps) (surviving_reviews E b).
Proof.
  intros (Hr & _). unfold surviving_reviews.
  rewrite List.Forall_forall in *. intros r Hin.
  apply List.filter_In in Hin as [Hin _]. auto.
Qed.

End ClassifyFacts.

(** ** Non-review metadata *)

Lemma label_of_range k l :
  label_of k = Ok l -> In l (map snd metadata_keys_to_label).
Proof.
  unfold label_of, metadata_keys_to_label; cbn [assoc map snd].
  repeat (case_eqb k; [intros [= <-]; simpl; tauto|]). discriminate.
Qed.

Lemma label_of_not_frame k l :
  label_of k = Ok l -> l <> "frameIn" /\ l <> "frameOut" /\ l <> "ftr_meta".
Proof.
  intros H. apply label_of_range in H. simpl in H.
  repeat split; intros ->;
    repeat (destruct H as [H|H]; [discriminate H|]); exact H.
Qed.

Lemma add_labeled_no_frame cfg sf pairs md md' l :
  add_labeled cfg sf pairs md = Ok md' ->
  l = "frameIn" \/ l = "frameOut" \/ l = "ftr_meta" ->
  md !! l = None -> md' !! l = None.
Proof.
  intros Hadd Hl Hmd.
  destruct (md' !! l) as [x|] eqn:Hx; [|reflexivity].
  destruct (add_labeled_lookup _ _ _ _ _ _ _ Hadd Hx)
    as [Hold | (k & v & _ & Hlab & _)]; [congruence|].
  destruct (label_of_not_frame _ _ Hlab) as (H1 & H2 & H3).
  destruct Hl as [-> | [-> | ->]]; contradiction.
Qed.

(** The metadata of a component that is not a review has no frameIn or
    frameOut entry. *)
Lemma non_review_metadata_no_frames E cfg instance repre path md :
  _prepare_component_metadata E cfg instance repre path false = Ok md ->
  no_frame_payload md.
Proof.
  unfold _prepare_component_metadata.
  destruct (_is_repre_video E repre).
  - unfold _prepare_video_component_metadata.
    destruct (add_labeled cfg false (version_entries E) ∅) as [md0|] eqn:H0;
      [|discriminate].
    cbn [mbind result_bind].
    destruct path as [p|]; [|discriminate].
    cbn [mbind result_bind]. cbv zeta.
    assert (Hmd0 : forall l,
              l = "frameIn" \/ l = "frameOut" \/ l = "ftr_meta" ->
              md0 !! l = None).
    { intros l Hl. eapply add_labeled_no_frame; eauto. }
    destruct (_ && _).
    { intros [= <-]. repeat split; auto.
      all: intros; rewrite Hmd0 in *; auto; discriminate. }
    destruct (add_labeled cfg true _ md0) as [md1|] eqn:H1; [|discriminate].
    cbn [mbind result_bind negb].
    intros [= <-].
    assert (Hmd1 : forall l, l = "frameIn" \/ l = "frameOut" ->
              md1 !! l = None).
    { intros l Hl. eapply add_labeled_no_frame; eauto.
      - destruct Hl; auto.
      - apply Hmd0. destruct Hl; auto. }
    split; [|split].
    + rewrite lookup_insert_ne by discriminate. auto.
    + rewrite lookup_insert_ne by discriminate. auto.
    + intros obj. rewrite lookup_insert_eq. intros [= <-].
      destruct (number_truthy _);
        destruct (opt_int_truthy _ && opt_int_truthy _);
        split; reflexivity.
  - destruct (_is_repre_image E repre).
    + intros [= <-]. unfold _prepare_image_component_metadata.
      destruct (negb _ || negb _);
        [destruct (first_sized_stream _) as [[w h]|]|];
        destruct (opt_int_truthy _ && opt_int_truthy _);
        (split; [reflexivity|split; [reflexivity|]]);
        intros obj; rewrite ?lookup_empty, ?lookup_singleton_eq;
        intros [= <-]; split; reflexivity.
    + intros [= <-]. split; [reflexivity|split; [reflexivity|]].
      intros obj. rewrite lookup_empty. discriminate.
Qed.

(** ** [process] as a whole *)

Section ProcessFacts.

Context (E : Env) (cfg : Config) (instance : Instance).

(** The intermediate states of a run that stores a component list. *)
Lemma process_inversion run :
  process E cfg instance = Ok (Some run) ->
  exists reps v ts rs h others,
    representations instance = Some reps
    /\ version instance = Some v
    /\ thumbnail_loop E cfg instance (base_component_item_of E cfg instance v)
         (classify E instance reps) = Ok ts
    /\ review_loop E cfg instance (base_component_item_of E cfg instance v)
         (ts_thumbnail_data_items ts)
         (multiple_synced_thumbnails_of (classify E instance reps))
         (multiple_reviewable_of E (classify E instance reps))
         (has_movie_review (classify E instance reps)) 0
         (surviving_reviews E (classify E instance reps))
         {| rs_heap := ts_heap ts; rs_entries := [];
            rs_extended_asset_name := None; rs_warnings := [] |} = Ok rs
    /\ foldl_result
         (other_step E cfg instance (base_component_item_of E cfg instance v)
            (multiple_reviewable_of E (classify E instance reps))
            (rs_extended_asset_name rs))
         (other_representations (classify E instance reps))
         (rs_heap rs, []) = Ok (h, others)
    /\ run_heap run = h
    /\ run_thumbnail_srcs run = ts_component_list ts
    /\ run_thumbnail_data_items run = ts_thumbnail_data_items ts
    /\ run_reviews run = rs_entries rs
    /\ run_others run = others
    /\ run_thumbnail_alone run =
         match surviving_reviews E (classify E instance reps) with
         | [] => option_list (ts_thumbnail_item ts)
         | _ => []
         end.
Proof.
  unfold process.
  destruct (representations instance) as [[|r0 reps0]|]; try discriminate.
  destruct (version instance) as [v|]; [|discriminate].
  cbv zeta.
  destruct (thumbnail_loop _ _ _ _ _) as [ts|] eqn:Hts; [|discriminate].
  cbn [mbind result_bind].
  destruct (review_loop _ _ _ _ _ _ _ _ _ _ _) as [rs|] eqn:Hrs;
    [|discriminate].
  cbn [mbind result_bind].
  destruct (foldl_result _ _ _) as [[h others]|] eqn:Hoth; [|discriminate].
  cbn [mbind result_bind]. intros [= <-].
  exists (r0 :: reps0), v, ts, rs, h, others.
  cbn [run_heap run_thumbnail_srcs run_thumbnail_data_items run_reviews
       run_others run_thumbnail_alone].
  repeat split; assumption.
Qed.

Lemma review_loop_entries_length repres : forall base tdi multi multiple
    has_movie index st st',
  review_loop E cfg instance base tdi multi multiple has_movie index repres st
  = Ok st' ->
  length (rs_entries st') <= length (rs_entries st) + length repres.
Proof.
  induction repres as [|repre rest IH];
    intros base tdi multi multiple has_movie index st st' Hrun.
  - injection Hrun as <-. cbn [length]. lia.
  - cbn [review_loop] in Hrun.
    destruct (review_iteration _ _ _ _ _ _ _ _ _ _ _) as [st1|] eqn:Hit;
      [|discriminate].
    cbn [mbind result_bind] in Hrun. apply IH in Hrun.
    assert (length (rs_entries st1) <= S (length (rs_entries st))).
    { unfold review_iteration in Hit.
      destruct (_ && _); [injection Hit as <-; lia|].
      destruct (_get_matching_thumbnail_item _ _ _) as [? ?].
      destruct (rename_for_review _ _ _ _ _ _) as [? ?].
      destruct (copy_opt _ _) as [? ?].
      destruct (copy_opt _ _) as [? ?].
      destruct (build_review_item _ _ _ _ _) as [?|]; [|discriminate].
      cbn [mbind result_bind] in Hit.
      destruct (append_review _ _ _ _ _ _) as [[[[? ?] ?] ?]|];
        [|discriminate].
      cbn [mbind result_bind] in Hit. injection Hit as <-.
      cbn [rs_entries]. rewrite length_app. cbn [length]. lia. }
    cbn [length]. lia.
Qed.

(** What every run that stores a component list satisfies. *)
Lemma process_facts run reps :
  process E cfg instance = Ok (Some run) ->
  representations instance = Some reps ->
  exists v ts,
    version instance = Some v
    /\ run_thumbnail_srcs run = ts_component_list ts
    /\ run_thumbnail_data_items run = ts_thumbnail_data_items ts
    /\ thumb_inv E cfg instance (thumbnail_representations
                                   (classify E instance reps))
         (have_reviews_of (classify E instance reps)) ts
    /\ (forall repre,
          In repre (thumbnail_representations (classify E instance reps)) ->
          path_truthy (get_publish_repre_path E instance repre false) = true ->
          mem_str "delete" (repre_tags repre) = false ->
          exists l c,
            In l (ts_component_list ts) /\ ts_heap ts !! l = Some c
            /\ thumbnail_shadow E cfg instance
                 (have_reviews_of (classify E instance reps)) repre c)
    /\ review_inv E cfg instance reps
         (base_component_item_of E cfg instance v)
         (ts_thumbnail_data_items ts)
         (multiple_reviewable_of E (classify E instance reps))
         (ts_heap ts)
         {| rs_heap := run_heap run; rs_entries := run_reviews run;
            rs_extended_asset_name := None; rs_warnings := [] |}
    /\ length (run_reviews run)
       <= length (surviving_reviews E (classify E instance reps))
    /\ Forall (fun l => l < length (run_heap run)) (ftrackComponentsList run).
Proof.
  intros Hrun Hreps.
  destruct (process_inversion _ Hrun)
    as (reps' & v & ts & rs & h & others & Hreps' & Hv & Hts & Hrs & Hoth
        & Hheap & Hsrcs & Htdi & Hrev & Hothers & Halone).
  rewrite Hreps in Hreps'. injection Hreps' as <-.
  set (b := classify E instance reps) in *.
  set (base := base_component_item_of E cfg instance v) in *.
  destruct (classify_within E instance reps) as (Hbr & Hbt & Hbo).
  fold b in Hbr, Hbt, Hbo.
  (* the thumbnail loop *)
  unfold thumbnail_loop in Hts.
  destruct (thumbnail_fold_inv E cfg instance (thumbnail_representations b)
              base (have_reviews_of b) (thumbnail_representations b) _ _ Hts)
    as (Htinv & _ & _ & Hshadows).
  { apply List.Forall_forall. auto. }
  { repeat split; cbn; try constructor; intros; try contradiction;
      discriminate. }
  pose proof Htinv as (Hres0 & Htd0 & Hcl0 & Hti0).
  assert (Hres0' : Forall (path_resolved E instance reps) (ts_heap ts)).
  { eapply Forall_impl; [exact Hres0|]. cbn beta. intros c.
    apply path_resolved_mono. rewrite List.Forall_forall in Hbt. exact Hbt. }
  assert (Hbound : forall td, In td (ts_thumbnail_data_items ts) ->
            item td < length (ts_heap ts)
            /\ forall s, src_component td = Some s ->
                 s < length (ts_heap ts)).
  { intros td Htd. destruct (Htd0 _ Htd) as (_ & Hi & Hs).
    split; [exact Hi|]. intros s Hsrc. now destruct (Hs _ Hsrc). }
  (* the review loop *)
  assert (Hrinv : review_inv E cfg instance reps base
                    (ts_thumbnail_data_items ts)
                    (multiple_reviewable_of E b) (ts_heap ts) rs).
  { eapply review_loop_inv; [exact Hbound | exact Hrs | |].
    - apply surviving_reviews_within. repeat split; assumption.
    - split; [apply heap_ext_refl|]. split; [exact Hres0'|].
      intros e []. }
  pose proof (review_loop_entries_length _ _ _ _ _ _ _ _ _ Hrs) as Hlen.
  cbn [rs_entries length] in Hlen.
  (* the other representations *)
  destruct (other_fold_spec E cfg instance reps base _ _ _ _ _ Hoth)
    as (k & ol & Hk & Hol & Hkres & Holvalid).
  { exact Hbo. }
  cbn [fst snd] in Hk, Hol, Holvalid. cbn [app] in Hol.
  destruct Hrinv as (Hext & Hres & Hentries).
  pose proof (heap_ext_length _ _ Hext) as Hlen0.
  exists v, ts.
  split; [exact Hv|]. split; [exact Hsrcs|]. split; [exact Htdi|].
  split; [exact Htinv|]. split; [exact Hshadows|].
  rewrite Hheap, Hrev, Hk.
  split; [|split].
  - split; [|split]; cbn [rs_heap rs_entries].
    + eapply heap_ext_trans; [exact Hext | apply heap_ext_app].
    + apply Forall_app. auto.
    + intros e He. destruct (Hentries _ He) as [Hl Hs]. split.
      * intros l Hin. destruct (Hl _ Hin) as (Hge & c & Hc & Hn).
        split; [exact Hge|]. exists c. split; [|exact Hn].
        rewrite lookup_app_l; [exact Hc | eapply lookup_lt_Some; eauto].
      * intros l Hsrc.
        destruct (Hs _ Hsrc) as (td & s & c0 & n & ? & ? & ? & Hc).
        exists td, s, c0, n. repeat split; try assumption.
        rewrite lookup_app_l; [exact Hc | eapply lookup_lt_Some; eauto].
  - lia.
  - unfold ftrackComponentsList. rewrite Hsrcs, Hrev, Halone, Hothers, Hol.
    rewrite length_app.
    repeat (apply Forall_app; split).
    + apply List.Forall_forall. intros l Hl. specialize (Hcl0 _ Hl). lia.
    + apply List.Forall_forall. intros l Hl.
      apply in_flat_map in Hl as (e & He & Hl).
      destruct (Hentries _ He) as [Hloc _].
      destruct (Hloc _ Hl) as (_ & c & Hc & _).
      apply lookup_lt_Some in Hc. lia.
    + destruct (surviving_reviews E b); [|constructor].
      destruct (ts_thumbnail_item ts) as [l|] eqn:Hti; [|constructor].
      repeat constructor. specialize (Hti0 _ eq_refl). lia.
    + eapply Forall_impl; [exact Holvalid|]. cbn beta. intros l Hl.
      rewrite Hk, length_app in Hl. exact Hl.
Qed.

End ProcessFacts.

Lemma thumbnail_shadow_blind E cfg instance have_reviews repre :
  name_blind (thumbnail_shadow E cfg instance have_reviews repre).
Proof. intros n c H. exact H. Qed.

Lemma components_lookup run c :
  In c (components run) ->
  exists l, In l (ftrackComponentsList run) /\ run_heap run !! l = Some c.
Proof.
  unfold components. intros Hc. apply list_elem_of_In in Hc.
  apply list_elem_of_omap in Hc as (l & Hl & Hc).
  exists l. split; [now apply list_elem_of_In | exact Hc].
Qed.

(** ** Invariants of the component list *)



(** ** The one-review scenario *)

Section OneReview.

Context (E : Env) (cfg : Config) (instance : Instance).

Lemma component_metadata_total repre p is_review :
  exists md,
    _prepare_component_metadata E cfg instance repre (Some p) is_review
    = Ok md.
Proof.
  unfold _prepare_component_metadata.
  destruct (_is_repre_video E repre); [apply video_metadata_total|].
  destruct (_is_repre_image E repre); eauto.
Qed.

Lemma create_src_ok repre c location d md :
  component_data c = Some d ->
  _prepare_component_metadata E cfg instance repre (component_path c) false
  = Ok md ->
  _create_src_component E cfg instance repre c location
  = Ok (set_component_data
          {| cd_name := cd_name d ++ "_src"; cd_metadata := md |}
          (set_component_location_name location (set_thumbnail false c))).
Proof.
  intros Hd Hmd. unfold _create_src_component.
  cbn [component_data set_component_location_name set_thumbnail
       component_path].
  rewrite Hd, Hmd. reflexivity.
Qed.

Lemma matching_single review td multi :
  exists w, _get_matching_thumbnail_item review [td] multi = (Some td, w).
Proof.
  unfold _get_matching_thumbnail_item.
  destruct (negb multi); [eauto|].
  cbn [List.find]. destruct (_ || _); eauto.
Qed.

Context (review thumb : Repre) (v : Z).

Hypothesis mp4_is_video : mem_str ".mp4" (VIDEO_EXTENSIONS E) = true.
Hypothesis review_ok : scenario_review E instance review.
Hypothesis thumb_ok : scenario_thumbnail E instance thumb.
Hypothesis version_set : version instance = Some v.
Hypothesis keep_first :
  keep_first_product_name_for_review cfg = true.
Hypothesis no_origin_name :
  upload_reviewable_with_origin_name cfg = false.

Lemma scenario_review_is_video : _is_repre_video E review = true.
Proof.
  destruct review_ok as (Hext & _). unfold _is_repre_video.
  rewrite Hext. exact mp4_is_video.
Qed.

Lemma scenario_classify reps :
  reps = [review; thumb] \/ reps = [thumb; review] ->
  classify E instance reps
  = {| review_representations := [review];
       thumbnail_representations := [thumb];
       other_representations := [];
       has_movie_review := true |}.
Proof.
  destruct review_ok as (_ & _ & _ & Hth & Hfarm & Htag & Hrev & _ & Hpath).
  destruct thumb_ok as (_ & _ & _ & _ & Tfarm & Tth & _ & _).
  pose proof scenario_review_is_video as Hvideo.
  intros [-> | ->]; unfold classify; cbn [fold_left]; unfold classify_step;
    cbn [review_representations thumbnail_representations
         other_representations has_movie_review];
    rewrite ?Hfarm, ?Tfarm, ?Tth, ?Hth, ?Htag, ?Hrev, ?Hpath, ?Hvideo;
    cbn [orb andb app
         review_representations thumbnail_representations
         other_representations has_movie_review];
    rewrite ?Hfarm, ?Tfarm, ?Tth, ?Hth, ?Htag, ?Hrev, ?Hpath, ?Hvideo;
    reflexivity.
Qed.

Lemma scenario_run reps :
  reps = [review; thumb] \/ reps = [thumb; review] ->
  representations instance = Some reps ->
  exists run,
    process E cfg instance = Ok (Some run)
    /\ map component_name (components run)
       = ["thumbnail_src"; "thumbnail"; "thumbnail_src";
          "ftrackreview-mp4_src"; "ftrackreview-mp4"]
    /\ Forall (fun c => asset_name c = productName instance)
         (components run).
Proof.
  intros Horder Hreps.
  pose proof (scenario_classify reps Horder) as Hb.
  pose proof scenario_review_is_video as Hvideo.
  destruct review_ok as (_ & _ & _ & _ & _ & _ & _ & Hdel & Hpath).
  destruct thumb_ok as (_ & _ & _ & _ & _ & _ & Tdel & Tpath).
  destruct (path_truthy_Some _ Hpath) as (rp & Hrp & _).
  destruct (path_truthy_Some _ Tpath) as (tp & Htp & _).
  unfold process. rewrite Hreps.
  assert (Hcons : exists r0 rest, reps = r0 :: rest)
    by (destruct Horder as [-> | ->]; eauto).
  destruct Hcons as (r0 & rest & Hcons). rewrite Hcons, <- Hcons.
  rewrite version_set. cbv zeta. rewrite Hb.
  set (base := base_component_item_of E cfg instance v).
  (* thumbnail loop *)
  unfold thumbnail_loop, have_reviews_of.
  cbn [thumbnail_representations review_representations foldl_result].
  unfold thumbnail_step at 1.
  rewrite Tpath. cbn [negb alloc ts_heap length app].
  rewrite Tdel. cbn [negb].
  set (titem := set_component_location_name _ _).
  destruct (component_metadata_total thumb tp false) as [tmd Htmd].
  erewrite create_src_ok; [| reflexivity | subst titem; cbn; rewrite Htp; exact Htmd].
  cbn [mbind result_bind alloc length app ts_component_list
       ts_thumbnail_data_items ts_thumbnail_item ts_heap].
  set (tsrc := set_component_data _ (set_component_location_name _ _)).
  (* review loop *)
  unfold surviving_reviews, multiple_reviewable_of, surviving_reviews.
  cbn [review_representations has_movie_review List.filter negb orb].
  rewrite Hvideo. cbn [length Nat.ltb Nat.leb review_loop].
  unfold review_iteration. rewrite Hvideo. cbn [negb andb].
  set (td := {| sync_key := _ |}).
  destruct (matching_single review td
              (multiple_synced_thumbnails_of
                 {| review_representations := [review];
                    thumbnail_representations := [thumb];
                    other_representations := [];
                    has_movie_review := true |})) as [w ->].
  unfold _make_extended_component_name. rewrite keep_first.
  cbn [andb Nat.eqb rename_for_review rs_heap fmap option_fmap option_map
       mbind option_bind item src_component td].
  subst td. cbn [item src_component].
  unfold copy_opt. cbn [lookup list_lookup alloc length app].
  unfold build_review_item. rewrite Hvideo, Hrp.
  destruct (video_metadata_total E cfg instance review rp true) as [rmd ->].
  cbn [mbind result_bind].
  set (ritem := set_component_location_name _ _).
  unfold append_review. rewrite Hdel. cbn [negb].
  destruct (component_metadata_total review rp false) as [smd Hsmd].
  erewrite create_src_ok; [| reflexivity | subst ritem; cbn; exact Hsmd].
  cbn [mbind result_bind alloc length app]. rewrite no_origin_name.
  cbn [mbind result_bind rs_heap rs_entries rs_extended_asset_name
       rs_warnings app other_representations foldl_result].
  eexists. split; [reflexivity|].
  unfold components, ftrackComponentsList.
  cbn [run_heap run_thumbnail_srcs run_reviews run_thumbnail_alone
       run_others flat_map entries_locs re_thumbnail re_thumbnail_src
       re_src re_review re_origin option_list app omap list_omap
       lookup list_lookup].
  split.
  - reflexivity.
  - repeat constructor.
Qed.

End OneReview.

(** C4, as the code has it: for an instance with exactly one video review
    (output name "main", extension "mp4", no declared fps) and one thumbnail
    (output name "main", extension "jpg", 1920x1080), with
    keep_first_product_name_for_review set and no origin-name upload, the
    stored list is, in order: the "_src" component of the thumbnail appended
    while the thumbnail item is built, the thumbnail item "thumbnail", a
    copy of the thumbnail "_src" component, the "_src" component of the
    review and then the review item "ftrackreview-mp4"; every item keeps the
    product name as asset name. *)
Theorem one_review_component_order
    (E : Env) (cfg : Config) (instance : Instance) (review thumb : Repre)
    (v : Z) (reps : list Repre) :
  mem_str ".mp4" (VIDEO_EXTENSIONS E) = true ->
  scenario_review E instance review ->
  scenario_thumbnail E instance thumb ->
  version instance = Some v ->
  keep_first_product_name_for_review cfg = true ->
  upload_reviewable_with_origin_name cfg = false ->
  reps = [review; thumb] \/ reps = [thumb; review] ->
  representations instance = Some reps ->
  exists run,
    process E cfg instance = Ok (Some run)
    /\ map component_name (components run)
       = ["thumbnail_src"; "thumbnail"; "thumbnail_src";
          "ftrackreview-mp4_src"; "ftrackreview-mp4"]
    /\ Forall (fun c => asset_name c = productName instance)
         (components run).
Proof.
  intros. eapply scenario_run; eauto.
Qed.

Lemma one_review_component_order_witness :
  exists run,
    process Scenario.env (Scenario.config true) Scenario.one_review
    = Ok (Some run)
    /\ map component_name (components run)
       = ["thumbnail_src"; "thumbnail"; "thumbnail_src";
          "ftrackreview-mp4_src"; "ftrackreview-mp4"]
    /\ Forall (fun c => asset_name c = productName Scenario.one_review)
         (components run).
Proof.
  apply (one_review_component_order Scenario.env (Scenario.config true)
           Scenario.one_review Scenario.review_main Scenario.thumbnail_main
           3%Z [Scenario.review_main; Scenario.thumbnail_main]).
  - reflexivity.
  - repeat split; reflexivity.
  - repeat split; reflexivity.
  - reflexivity.
  - reflexivity.
  - reflexivity.
  - left. reflexivity.
  - reflexivity.
Defined.

(** * Further properties *)

(** ** The classifier, as three filters *)

Lemma classify_fold_filters E instance l : forall b,
  let b' := fold_left (classify_step E instance) l b in
  thumbnail_representations b'
  = (thumbnail_representations b ++ List.filter in_thumbnail_bucket l)%list
  /\ review_representations b'
     = (review_representations b
        ++ List.filter (in_review_bucket E instance) l)%list
  /\ other_representations b'
     = (other_representations b
        ++ List.filter (in_other_bucket E instance) l)%list
  /\ has_movie_review b'
     = has_movie_review b
       || existsb (_is_repre_video E)
            (List.filter (in_review_bucket E instance) l).
Proof.
  induction l as [|r l IH]; intros b; cbn zeta.
  - cbn. rewrite !app_nil_r, orb_false_r. auto.
  - cbn [fold_left List.filter].
    destruct (IH (classify_step E instance b r)) as (Ht & Hr & Ho & Hm).
    rewrite Ht, Hr, Ho, Hm. clear IH Ht Hr Ho Hm.
    unfold classify_step, in_thumbnail_bucket, in_review_bucket,
      in_other_bucket, on_farm, thumbnail_test, review_test.
    destruct (mem_str "publish_on_farm" (repre_tags r)); cbn [negb andb];
      [auto|].
    destruct (repre_thumbnail r || mem_str "thumbnail" (repre_tags r));
      cbn [negb andb thumbnail_representations review_representations
           other_representations has_movie_review].
    { rewrite <- !app_assoc. auto. }
    destruct (mem_str "ftrackreview" (repre_tags r)
              && path_truthy (get_publish_repre_path E instance r false));
      cbn [negb andb thumbnail_representations review_representations
           other_representations has_movie_review existsb].
    + rewrite <- !app_assoc. repeat split; try reflexivity.
      destruct (_is_repre_video E r); cbn [orb];
        [now rewrite orb_true_r | reflexivity].
    + rewrite <- !app_assoc. auto.
Qed.

(** X1: the classifier splits the representations that are not tagged
    "publish_on_farm" into three buckets that keep the input order: the
    thumbnail bucket takes those with the thumbnail flag or tag, the review
    bucket those of the rest that are tagged "ftrackreview" and have a path,
    the other bucket what is left; the movie flag says whether the review
    bucket holds a video. *)
Theorem classify_buckets_are_filters
    (E : Env) (instance : Instance) (reps : list Repre) :
  thumbnail_representations (classify E instance reps)
  = List.filter in_thumbnail_bucket reps
  /\ review_representations (classify E instance reps)
     = List.filter (in_review_bucket E instance) reps
  /\ other_representations (classify E instance reps)
     = List.filter (in_other_bucket E instance) reps
  /\ has_movie_review (classify E instance reps)
     = existsb (_is_repre_video E)
         (List.filter (in_review_bucket E instance) reps).
Proof.
  unfold classify.
  destruct (classify_fold_filters E instance reps
              {| review_representations := [];
                 thumbnail_representations := [];
                 other_representations := [];
                 has_movie_review := false |}) as (Ht & Hr & Ho & Hm).
  cbn in Ht, Hr, Ho, Hm. auto.
Qed.

(** X2: no representation is in two buckets, and one tagged
    "publish_on_farm" is in none. *)
Theorem classify_buckets_disjoint
    (E : Env) (instance : Instance) (reps : list Repre) (r : Repre) :
  let b := classify E instance reps in
  (In r (thumbnail_representations b) ->
     ~ In r (review_representations b) /\ ~ In r (other_representations b))
  /\ (In r (review_representations b) -> ~ In r (other_representations b))
  /\ (on_farm r = true ->
        ~ In r (thumbnail_representations b)
        /\ ~ In r (review_representations b)
        /\ ~ In r (other_representations b)).
Proof.
  cbn zeta. unfold classify.
  destruct (classify_fold_filters E instance reps
              {| review_representations := [];
                 thumbnail_representations := [];
                 other_representations := [];
                 has_movie_review := false |}) as (Ht & Hr & Ho & _).
  cbn in Ht, Hr, Ho. rewrite Ht, Hr, Ho.
  unfold in_thumbnail_bucket, in_review_bucket, in_other_bucket.
  rewrite !List.filter_In.
  destruct (on_farm r), (thumbnail_test r), (review_test E instance r);
    cbn; intuition discriminate.
Qed.

Lemma classify_buckets_disjoint_witness :
  let b := classify Scenario.env Scenario.one_review
             [Scenario.review_main; Scenario.thumbnail_main] in
  ~ In Scenario.thumbnail_main (review_representations b)
  /\ ~ In Scenario.thumbnail_main (other_representations b).
Proof.
  intros b.
  apply (proj1 (classify_buckets_disjoint Scenario.env Scenario.one_review
                  [Scenario.review_main; Scenario.thumbnail_main]
                  Scenario.thumbnail_main)).
  vm_compute. tauto.
Defined.

(** ** Multi-sync mode and the matcher *)

Lemma synced_inner_length review_repre thumbs :
  length
    (flat_map
       (fun thumb_repre =>
          if (opt_str_truthy (repre_outputName thumb_repre)
              && opt_str_eqb (repre_outputName thumb_repre)
                   (repre_outputName review_repre))
             || opt_mem_str (repre_outputName thumb_repre)
                  (repre_tags review_repre)
          then [repre_outputName thumb_repre] else [])
       thumbs)
  <= length thumbs.
Proof.
  induction thumbs as [|t thumbs IH]; cbn [flat_map length]; [lia|].
  rewrite length_app. destruct (_ || _); cbn [length]; lia.
Qed.

(** X3: the list of synced output names has at most one entry per pair of
    a review with an output name and a thumbnail, so multi-sync mode is off
    whenever there is at most one such review and one thumbnail; reviews
    without an output name count for nothing, whatever their tags. *)
Theorem multi_sync_needs_two_pairs
    (reviews thumbs : list Repre) :
  length (synced_multiple_output_names reviews thumbs)
  <= length (List.filter (fun r => opt_str_truthy (repre_outputName r))
               reviews)
     * length thumbs
  /\ (length reviews * length thumbs <= 1 ->
      multiple_synced_thumbnails_of
        {| review_representations := reviews;
           thumbnail_representations := thumbs;
           other_representations := [];
           has_movie_review := false |} = false).
Proof.
  assert (Hlen : length (synced_multiple_output_names reviews thumbs)
                 <= length (List.filter
                              (fun r => opt_str_truthy (repre_outputName r))
                              reviews)
                    * length thumbs).
  { unfold synced_multiple_output_names.
    induction reviews as [|r reviews IH]; cbn [flat_map List.filter length];
      [lia|].
    rewrite length_app.
    destruct (opt_str_truthy (repre_outputName r)); cbn [negb length].
    - pose proof (synced_inner_length r thumbs). lia.
    - lia. }
  split; [exact Hlen|].
  intros Hsmall. unfold multiple_synced_thumbnails_of.
  cbn [review_representations thumbnail_representations].
  apply Nat.ltb_ge.
  pose proof (List.filter_length_le
                (fun r => opt_str_truthy (repre_outputName r)) reviews).
  nia.
Qed.

Lemma multi_sync_needs_two_pairs_witness :
  multiple_synced_thumbnails_of
    {| review_representations := [Scenario.review_main];
       thumbnail_representations := [Scenario.thumbnail_main];
       other_representations := [];
       has_movie_review := false |} = false.
Proof.
  apply (proj2 (multi_sync_needs_two_pairs [Scenario.review_main]
                  [Scenario.thumbnail_main])).
  simpl. lia.
Defined.

(** X4: in multi-sync mode the matcher returns the first binding, in list
    order, whose sync key is the output name of the review or one of its
    tags, and logs nothing; a binding without sync key is such a match for a
    review without output name (None equals None). *)
Theorem matching_thumbnail_item_first_match
    (review : Repre) (before after : list ThumbData) (td : ThumbData) :
  Forall (fun t => binds t review = false) before ->
  binds td review = true ->
  _get_matching_thumbnail_item review (before ++ td :: after)%list true
  = (Some td, [])
  /\ (forall t, sync_key t = None -> repre_outputName review = None ->
        binds t review = true).
Proof.
  intros Hbefore Htd. split.
  - unfold _get_matching_thumbnail_item.
    assert (Hfind : List.find
                      (fun thumb_item =>
                         opt_str_eqb (sync_key thumb_item)
                           (repre_outputName review)
                         || opt_mem_str (sync_key thumb_item)
                              (repre_tags review))
                      (before ++ td :: after)%list = Some td).
    { induction Hbefore as [|t before Ht _ IH]; cbn [app List.find].
      - unfold binds in Htd. now rewrite Htd.
      - unfold binds in Ht. now rewrite Ht. }
    destruct (before ++ td :: after)%list eqn:Hl;
      [destruct before; discriminate Hl|].
    cbn [negb]. now rewrite Hfind.
  - intros t Hk Ho. unfold binds. now rewrite Hk, Ho.
Qed.

Lemma matching_thumbnail_item_first_match_witness :
  let td name l :=
    {| sync_key := Some name; representation := Scenario.thumbnail_a;
       item := l; src_component := None |} in
  _get_matching_thumbnail_item Scenario.review_b
    ([td "a" 0] ++ td "b" 1 :: [td "b" 2])%list true
  = (Some (td "b" 1), []).
Proof.
  intros td.
  apply (proj1 (matching_thumbnail_item_first_match Scenario.review_b
                  [td "a" 0] [td "b" 2] (td "b" 1)
                  ltac:(repeat constructor) eq_refl)).
Defined.

(** ** Asset type and status name *)

Lemma find_first_match {A : Type} (f : A -> bool) (before after : list A)
    (x : A) :
  Forall (fun y => f y = false) before -> f x = true ->
  List.find f (before ++ x :: after)%list = Some x.
Proof.
  induction 1 as [|y l Hy _ IH]; intros Hx; cbn [app List.find].
  - now rewrite Hx.
  - rewrite Hy. now apply IH.
Qed.

(** X5: the asset type is never empty. A truthy "ftrackFamily" is taken as
    it is; otherwise the first entry of the mapping whose name equals the
    product type once both are lower-cased gives the asset type, "upload"
    standing in for an empty one, and a product type that matches no entry
    gets "upload". *)
Theorem asset_type_resolution
    (E : Env) (cfg : Config) (instance : Instance) :
  asset_type_of E cfg instance <> ""
  /\ (forall family, ftrackFamily instance = Some family -> family <> "" ->
        asset_type_of E cfg instance = family)
  /\ (opt_str_truthy (ftrackFamily instance) = false ->
      (forall before name short after,
         product_type_mapping cfg = (before ++ (name, short) :: after)%list ->
         Forall
           (fun item =>
              str_lower E (fst item) <> str_lower E (productType instance))
           before ->
         str_lower E name = str_lower E (productType instance) ->
         asset_type_of E cfg instance
         = if str_truthy short then short else "upload")
      /\ (Forall
            (fun item =>
               str_lower E (fst item) <> str_lower E (productType instance))
            (product_type_mapping cfg) ->
          asset_type_of E cfg instance = "upload")).
Proof.
  split; [|split].
  - unfold asset_type_of.
    destruct (if opt_str_truthy (ftrackFamily instance) then _ else _)
      as [a|]; [|discriminate].
    destruct (str_truthy a) eqn:Ha; [|discriminate].
    intros ->. discriminate Ha.
  - intros family Hf Hne. unfold asset_type_of. rewrite Hf.
    assert (Ht : str_truthy family = true)
      by (destruct family; [contradiction | reflexivity]).
    cbn [opt_str_truthy]. rewrite Ht. cbv beta iota. now rewrite Ht.
  - intros Hfam. split.
    + intros before name short after Hmap Hbefore Hname.
      unfold asset_type_of. rewrite Hfam, Hmap.
      rewrite (find_first_match _ before after (name, short)).
      * reflexivity.
      * eapply Forall_impl; [exact Hbefore|].
        intros item Hne. now apply String.eqb_neq.
      * cbn [fst]. now apply String.eqb_eq.
    + intros Hnone. unfold asset_type_of. rewrite Hfam.
      rewrite find_none_of_forall.
      * destruct (ftrackFamily instance) as [f|]; [|reflexivity].
        cbn in Hfam. now rewrite Hfam.
      * eapply Forall_impl; [exact Hnone|].
        intros item Hne. now apply String.eqb_neq.
Qed.

Lemma asset_type_resolution_witness :
  let instance :=
    Scenario.instance (Some [Scenario.review_main]) (Some 3%Z) 1 2 in
  let cfg :=
    {| product_type_mapping := default_product_type_mapping;
       keep_first_product_name_for_review := true;
       upload_reviewable_with_origin_name := false;
       asset_versions_status_profiles := [];
       additional_metadata_keys := [] |} in
  asset_type_of Scenario.env cfg instance = "mov".
Proof.
  intros instance cfg.
  apply (proj1 (proj2 (proj2 (asset_type_resolution Scenario.env cfg
                                instance)) eq_refl)
           (firstn 12 default_product_type_mapping) "review" "mov"
           (skipn 13 default_product_type_mapping)).
  - reflexivity.
  - repeat constructor; vm_compute; discriminate.
  - reflexivity.
Defined.

(** X6: the status name of the asset version is None when no profile is
    configured, when no profile matches and when the matching profile has
    an empty status; it is never the empty string. *)
Theorem status_name_never_empty
    (E : Env) (cfg : Config) (instance : Instance) :
  (asset_versions_status_profiles cfg = [] ->
   _get_asset_version_status_name E cfg instance = None)
  /\ (filter_profiles E (asset_versions_status_profiles cfg)
        (productType instance) (context_hostName instance)
        (task_type instance) = None ->
      _get_asset_version_status_name E cfg instance = None)
  /\ (forall s, _get_asset_version_status_name E cfg instance = Some s ->
        s <> ""
        /\ exists p,
             filter_profiles E (asset_versions_status_profiles cfg)
               (productType instance) (context_hostName instance)
               (task_type instance) = Some p
             /\ profile_status p = s).
Proof.
  unfold _get_asset_version_status_name. split; [|split].
  - now intros ->.
  - intros Hnone.
    destruct (asset_versions_status_profiles cfg); [reflexivity|].
    now rewrite Hnone.
  - intros s.
    destruct (asset_versions_status_profiles cfg) as [|p0 ps];
      [discriminate|].
    destruct (filter_profiles _ _ _ _ _) as [p|]; [|discriminate].
    destruct (str_truthy (profile_status p)) eqn:Ht; [|discriminate].
    intros [= <-]. split; [|eauto].
    intros Hempty. rewrite Hempty in Ht. discriminate Ht.
Qed.

Lemma status_name_never_empty_witness :
  _get_asset_version_status_name Scenario.env (Scenario.config true)
    Scenario.one_review = None.
Proof.
  apply (proj1 (status_name_never_empty Scenario.env (Scenario.config true)
                  Scenario.one_review)).
  reflexivity.
Defined.

(** ** More on the metadata functions *)

Lemma scan_unusable E streams : forall st,
  Forall (fun s => usable_stream E s = None) streams ->
  stream_fps (scan_video_streams E streams st) = stream_fps st
  /\ frame_out (scan_video_streams E streams st) = frame_out st.
Proof.
  induction streams as [|s streams IH]; intros st Hall; [now split|].
  inversion Hall as [|? ? Hs Hrest]; subst.
  cbn [scan_video_streams]. unfold usable_stream in Hs.
  destruct (r_frame_rate s) as [rate|], (duration s) as [d|];
    try exact (IH _ Hrest).
  destruct (convert_ffprobe_fps_to_float E rate); [discriminate|].
  exact (IH _ Hrest).
Qed.

(** X8: the scan of the video streams stops at the first stream that has
    both a rate and a duration and whose rate converts: fps, frame count,
    width, height and codec label are read from that stream (its width and
    height even when they are missing), and the streams after it are not
    looked at. When no stream is usable, fps and frame count stay None. *)
Theorem scan_stops_at_first_usable_stream
    (E : Env) (before after : list Stream) (s : Stream) (f out : Q) :
  Forall (fun s' => usable_stream E s' = None) before ->
  usable_stream E s = Some (f, out) ->
  scan_video_streams E (before ++ s :: after)%list scan_init
  = {| stream_width := width s;
       stream_height := height s;
       stream_fps := Some f;
       frame_out := Some out;
       codec_label := stream_codec_label s |}
  /\ (forall streams,
        Forall (fun s' => usable_stream E s' = None) streams ->
        stream_fps (scan_video_streams E streams scan_init) = None
        /\ frame_out (scan_video_streams E streams scan_init) = None).
Proof.
  intros Hbefore Hs. split; [|intros streams; apply scan_unusable].
  generalize scan_init.
  induction Hbefore as [|s' before Hs' _ IH]; intros st.
  - cbn [app scan_video_streams]. unfold usable_stream in Hs.
    destruct (r_frame_rate s) as [rate|]; [|discriminate].
    destruct (duration s) as [d|]; [|discriminate].
    destruct (convert_ffprobe_fps_to_float E rate) as [f'|];
      [|discriminate].
    injection Hs as <- <-. reflexivity.
  - cbn [app scan_video_streams]. unfold usable_stream in Hs'.
    destruct (r_frame_rate s') as [rate|], (duration s') as [d|];
      try apply IH.
    destruct (convert_ffprobe_fps_to_float E rate); [discriminate|].
    apply IH.
Qed.

Lemma scan_stops_at_first_usable_stream_witness :
  let bare :=
    {| codec_type := "video"; codec_long_name := None; codec := None;
       pix_fmt := None; width := Some 640%Z; height := Some 480%Z;
       r_frame_rate := None; duration := Some (1 # 1)%Q |} in
  scan_video_streams Scenario.env
    ([bare] ++ Scenario.clip_stream :: [bare])%list scan_init
  = {| stream_width := Some 1920%Z;
       stream_height := Some 1080%Z;
       stream_fps := Some (25 # 1)%Q;
       frame_out := Some ((2 # 1) * (25 # 1))%Q;
       codec_label := Some "H.264 (yuv420p)" |}.
Proof.
  intros bare.
  apply (proj1 (scan_stops_at_first_usable_stream Scenario.env
                  [bare] [bare] Scenario.clip_stream (25 # 1)%Q
                  ((2 # 1) * (25 # 1))%Q
                  ltac:(repeat constructor) eq_refl)).
Defined.

(** An entry under a label that no pair of the list has is left as it was. *)
Lemma add_labeled_preserves cfg sf pairs l : forall md md',
  add_labeled cfg sf pairs md = Ok md' ->
  (forall k v, In (k, v) pairs -> label_of k <> Ok l) ->
  md' !! l = md !! l.
Proof.
  induction pairs as [|[k v] rest IH]; simpl; intros md md' Hadd Hnot.
  - now injection Hadd as <-.
  - assert (Hrest : forall k' v', In (k', v') rest -> label_of k' <> Ok l)
      by (intros; eapply Hnot; eauto).
    destruct (sf && negb (truthy v)
              || negb (mem_str k (additional_metadata_keys cfg)));
      [now apply IH|].
    destruct (label_of k) as [label|] eqn:Hlab; [|discriminate].
    simpl in Hadd. rewrite (IH _ _ Hadd Hrest).
    apply lookup_insert_ne. intros ->. eapply Hnot; eauto.
Qed.

(** The first loop emits every allow-listed pair, whatever its value. *)
Lemma add_labeled_all cfg pairs key value l : forall md md',
  add_labeled cfg false pairs md = Ok md' ->
  label_of key = Ok l ->
  mem_str key (additional_metadata_keys cfg) = true ->
  (forall v, In (key, v) pairs -> v = value) ->
  md !! l = Some (MVal value) \/ In (key, value) pairs ->
  md' !! l = Some (MVal value).
Proof.
  induction pairs as [|[k v] rest IH]; simpl;
    intros md md' Hadd Hlab Hm Hfun Hin.
  - injection Hadd as <-. destruct Hin as [?|[]]; assumption.
  - destruct (negb (mem_str k (additional_metadata_keys cfg))) eqn:Hc.
    + apply (IH md md' Hadd Hlab Hm); [intros; apply Hfun; now right|].
      destruct Hin as [?|[Heq|?]]; [now left| |now right].
      injection Heq as -> ->. rewrite Hm in Hc. discriminate Hc.
    + destruct (label_of k) as [label|] eqn:Hlab'; [|discriminate].
      simpl in Hadd.
      apply (IH _ md' Hadd Hlab Hm); [intros; apply Hfun; now right|].
      destruct (decide (label = l)) as [->|Hne].
      * left. rewrite lookup_insert_eq.
        assert (k = key) as -> by (eapply label_of_inj; eauto).
        rewrite (Hfun v); [reflexivity | now left].
      * destruct Hin as [Hmd|[Heq|?]]; [| |now right].
        -- left. now rewrite lookup_insert_ne.
        -- injection Heq as -> ->. congruence.
Qed.

(** X9: the two version entries are written before the probe: whenever the
    video metadata function returns, an allow-listed "ayon_ftrack_version"
    or "ayon_launcher_version" is in the map under its label with the
    version string, also after a failed probe and whatever the string is;
    a version key that is not allow-listed has no entry. *)
Theorem version_entries_always_emitted
    (E : Env) (cfg : Config) (instance : Instance) (repre : Repre)
    (path : string) (is_review : bool) (md : metadata)
    (key : string) (value : string) (label : string) :
  _prepare_video_component_metadata E cfg instance repre (Some path)
    is_review = Ok md ->
  In (key, PStr value) (version_entries E) ->
  label_of key = Ok label ->
  md !! label
  = (if mem_str key (additional_metadata_keys cfg)
     then Some (MVal (PStr value)) else None).
Proof.
  unfold _prepare_video_component_metadata. intros Hrun Hin Hlab.
  destruct (add_labeled cfg false (version_entries E) ∅) as [md0|] eqn:H0;
    [|discriminate].
  cbn [mbind result_bind] in Hrun. cbv zeta in Hrun.
  assert (Hfun : forall v, In (key, v) (version_entries E) ->
            v = PStr value).
  { unfold version_entries in *. simpl in *. intros v Hv.
    destruct Hin as [Hin|[Hin|[]]]; injection Hin as <- <-;
      destruct Hv as [Hv|[Hv|[]]]; first [discriminate Hv | now injection Hv]. }
  assert (Hmd0 : md0 !! label
                 = (if mem_str key (additional_metadata_keys cfg)
                    then Some (MVal (PStr value)) else None)).
  { destruct (mem_str key (additional_metadata_keys cfg)) eqn:Hm.
    - eapply add_labeled_all; eauto.
    - destruct (md0 !! label) as [x|] eqn:Hx; [|reflexivity].
      destruct (add_labeled_lookup _ _ _ _ _ _ _ H0 Hx)
        as [Hempty|(k & v & _ & Hkl & _ & _ & Hk)].
      + rewrite lookup_empty in Hempty. discriminate Hempty.
      + assert (k = key) as -> by (eapply label_of_inj; eauto).
        congruence. }
  destruct (_ && _); [now injection Hrun as <-|].
  destruct (add_labeled cfg true _ md0) as [md1|] eqn:H1; [|discriminate].
  cbn [mbind result_bind] in Hrun.
  assert (Hmd1 : md1 !! label = md0 !! label).
  { eapply add_labeled_preserves; [exact H1|].
    intros k v Hk Hkl.
    assert (k = key) as -> by (eapply label_of_inj; eauto).
    eapply video_scalars_not_version; eauto. }
  assert (Hne : "ftr_meta" <> label)
    by (intros <-; eapply label_of_not_ftr_meta; eauto).
  destruct (negb is_review); injection Hrun as <-;
    rewrite lookup_insert_ne by exact Hne; congruence.
Qed.

Lemma version_entries_always_emitted_witness :
  let cfg :=
    {| product_type_mapping := [];
       keep_first_product_name_for_review := true;
       upload_reviewable_with_origin_name := false;
       asset_versions_status_profiles := [];
       additional_metadata_keys := ["ayon_ftrack_version"] |} in
  let md :=
    match
      _prepare_video_component_metadata Scenario.env cfg Scenario.one_review
        Scenario.review_main (Some "/pub/h264.mp4") true
    with
    | Ok md => md
    | Raise _ => ∅
    end in
  md !! "AYON ftrack version" = Some (MVal (PStr "1.4.0")).
Proof.
  intros cfg md.
  apply (version_entries_always_emitted Scenario.env cfg Scenario.one_review
           Scenario.review_main "/pub/h264.mp4" true md
           "ayon_ftrack_version" "1.4.0" "AYON ftrack version").
  - vm_compute. reflexivity.
  - left. reflexivity.
  - reflexivity.
Defined.

(** X11: the image metadata is either empty or the payload of a width and
    a height that are both non-zero, with format "image". Declared
    dimensions that are both truthy are used without looking at the probe;
    when one is missing or zero, the first stream of the probe that has both
    keys replaces both; without such a stream, or without a path, the map is
    empty unless both were declared. *)
Theorem image_metadata_dimensions
    (E : Env) (repre : Repre) (path : option string) :
  let md := _prepare_image_component_metadata E repre path in
  let payload w h : metadata :=
    {[ "ftr_meta" := MJson [("width", PNum (NInt w));
                            ("height", PNum (NInt h));
                            ("format", PStr "image")] ]} in
  (md = ∅ \/ exists w h, md = payload w h /\ w <> 0%Z /\ h <> 0%Z)
  /\ (forall w h, repre_width repre = Some w -> repre_height repre = Some h ->
        w <> 0%Z -> h <> 0%Z -> md = payload w h)
  /\ (opt_int_truthy (repre_width repre)
      && opt_int_truthy (repre_height repre) = false ->
      (forall p w h, path = Some p ->
         first_sized_stream (probe_streams E p) = Some (w, h) ->
         md = if (negb (w =? 0) && negb (h =? 0))%Z then payload w h else ∅)
      /\ ((forall p, path = Some p ->
             first_sized_stream (probe_streams E p) = None) ->
          md = ∅)).
Proof.
  cbv zeta. unfold _prepare_image_component_metadata.
  assert (Htruthy : forall w, opt_int_truthy (Some w) = negb (w =? 0)%Z)
    by reflexivity.
  split; [|split].
  - destruct (negb _ || negb _);
      [destruct (first_sized_stream _) as [[w h]|]|].
    all: match goal with
         | |- context [opt_int_truthy ?a && opt_int_truthy ?b] =>
             destruct a as [w'|], b as [h'|]; cbn [opt_int_truthy opt_int
               truthy number_truthy andb];
             try (left; reflexivity);
             try (destruct (negb (w' =? 0)%Z); left; reflexivity)
         end.
    all: destruct (Z.eqb_spec w' 0), (Z.eqb_spec h' 0); cbn [negb andb];
      try (left; reflexivity); right; eauto.
  - intros w h -> -> Hw Hh.
    rewrite !Htruthy.
    destruct (Z.eqb_spec w 0); [contradiction|].
    destruct (Z.eqb_spec h 0); [contradiction|].
    cbn [negb orb andb]. rewrite !Htruthy.
    destruct (Z.eqb_spec w 0); [contradiction|].
    destruct (Z.eqb_spec h 0); [contradiction|]. reflexivity.
  - intros Hdecl.
    assert (Hor : negb (opt_int_truthy (repre_width repre))
                  || negb (opt_int_truthy (repre_height repre)) = true).
    { destruct (opt_int_truthy (repre_width repre)),
        (opt_int_truthy (repre_height repre)); auto. }
    rewrite Hor. split.
    + intros p w h -> ->. rewrite !Htruthy. reflexivity.
    + intros Hnone. destruct path as [p|].
      * rewrite (Hnone p eq_refl). now rewrite Hdecl.
      * cbn [first_sized_stream]. now rewrite Hdecl.
Qed.

Lemma image_metadata_dimensions_witness :
  _prepare_image_component_metadata Scenario.env Scenario.thumbnail_main
    (Some "/pub/thumb.jpg")
  = {[ "ftr_meta" := MJson [("width", PNum (NInt 1920));
                            ("height", PNum (NInt 1080));
                            ("format", PStr "image")] ]}.
Proof.
  apply (proj1 (proj2 (image_metadata_dimensions Scenario.env
                         Scenario.thumbnail_main (Some "/pub/thumb.jpg")))
           1920%Z 1080%Z eq_refl eq_refl); discriminate.
Defined.

(** ** One block of entries per surviving review *)

Section ReviewEntriesFacts.

Context (E : Env) (cfg : Config) (instance : Instance).

(** An iteration that is not skipped appends one block of entries. *)
Lemma review_iteration_entry base tdi multi multiple has_movie index repre
    st st' :
  review_iteration E cfg instance base tdi multi multiple has_movie index
    repre st = Ok st' ->
  negb (_is_repre_video E repre) && has_movie = false ->
  exists e,
    rs_entries st' = (rs_entries st ++ [e])%list
    /\ re_index e = index /\ re_repre e = repre
    /\ rs_extended_asset_name st'
       = _make_extended_component_name cfg base repre index.
Proof.
  unfold review_iteration. intros Hrun Hskip. rewrite Hskip in Hrun.
  destruct (_get_matching_thumbnail_item _ _ _) as [? ?].
  destruct (rename_for_review _ _ _ _ _ _) as [? ?].
  destruct (copy_opt _ _) as [? ?]. destruct (copy_opt _ _) as [? ?].
  destruct (build_review_item _ _ _ _ _) as [?|]; [|discriminate].
  cbn [mbind result_bind] in Hrun.
  destruct (append_review _ _ _ _ _ _) as [[[[? ?] ?] ?]|];
    [|discriminate].
  cbn [mbind result_bind] in Hrun. injection Hrun as <-.
  eexists. cbn. repeat split; reflexivity.
Qed.

Lemma review_loop_entries base tdi multi multiple has_movie repres :
  forall index st st',
  review_loop E cfg instance base tdi multi multiple has_movie index repres
    st = Ok st' ->
  Forall (fun r => negb (_is_repre_video E r) && has_movie = false) repres ->
  map re_repre (rs_entries st')
  = (map re_repre (rs_entries st) ++ repres)%list
  /\ map re_index (rs_entries st')
     = (map re_index (rs_entries st) ++ seq index (length repres))%list
  /\ rs_extended_asset_name st'
     = match list.last repres with
       | Some r =>
           _make_extended_component_name cfg base r
             (index + length repres - 1)
       | None => rs_extended_asset_name st
       end.
Proof.
  induction repres as [|r repres IH]; intros index st st' Hrun Hall.
  - injection Hrun as <-. cbn. now rewrite !app_nil_r.
  - cbn [review_loop] in Hrun.
    destruct (review_iteration _ _ _ _ _ _ _ _ _ _ _) as [st1|] eqn:Hit;
      [|discriminate].
    cbn [mbind result_bind] in Hrun.
    inversion Hall as [|? ? Hr Hrest]; subst.
    destruct (review_iteration_entry _ _ _ _ _ _ _ _ _ Hit Hr)
      as (e & He & Hi & Hre & Hext).
    destruct (IH _ _ _ Hrun Hrest) as (-> & -> & ->).
    rewrite He, !map_app. cbn [map length seq]. rewrite Hi, Hre.
    rewrite <- !app_assoc. cbn [app].
    split; [reflexivity|]. split; [reflexivity|].
    destruct repres as [|r' repres'].
    + cbn [list.last length]. rewrite Hext.
      replace (index + 1 - 1) with index by lia. reflexivity.
    + change (list.last (r :: r' :: repres'))
        with (list.last (r' :: repres')).
      destruct (list.last (r' :: repres')) eqn:Hlast.
      * f_equal. cbn [length]. lia.
      * apply last_None in Hlast. discriminate Hlast.
Qed.

Lemma surviving_reviews_not_skipped b :
  Forall (fun r => negb (_is_repre_video E r) && has_movie_review b = false)
    (surviving_reviews E b).
Proof.
  unfold surviving_reviews. apply List.Forall_forall. intros r Hr.
  apply List.filter_In in Hr as [_ Hr].
  destruct (has_movie_review b), (_is_repre_video E r); auto.
Qed.

End ReviewEntriesFacts.

(** X13: every review that survives the filter gets one block of entries,
    in the order of the review bucket and with its index in the filtered
    list: the guard at the head of the loop never skips one. When the
    bucket holds a video, the survivors are its videos, so no image review
    gets a review item; without a video every review survives. *)
Theorem one_block_per_surviving_review
    (E : Env) (cfg : Config) (instance : Instance) (reps : list Repre)
    (run : Run) :
  process E cfg instance = Ok (Some run) ->
  representations instance = Some reps ->
  let b := classify E instance reps in
  map re_repre (run_reviews run) = surviving_reviews E b
  /\ map re_index (run_reviews run)
     = seq 0 (length (surviving_reviews E b))
  /\ surviving_reviews E b
     = (if has_movie_review b
        then List.filter (_is_repre_video E) (review_representations b)
        else review_representations b).
Proof.
  intros Hrun Hreps. cbv zeta.
  destruct (process_inversion E cfg instance run Hrun)
    as (reps' & v & ts & rs & h & others & Hreps' & _ & _ & Hrs & _ & _ & _
        & _ & Hrev & _).
  rewrite Hreps in Hreps'. injection Hreps' as <-.
  destruct (review_loop_entries E cfg instance _ _ _ _ _ _ _ _ _ Hrs
              (surviving_reviews_not_skipped E _)) as (Hr & Hi & _).
  cbn [rs_entries map app] in Hr, Hi.
  rewrite Hrev. split; [exact Hr|]. split; [exact Hi|].
  unfold surviving_reviews.
  destruct (has_movie_review (classify E instance reps)); cbn [negb orb].
  - reflexivity.
  - induction (review_representations (classify E instance reps))
      as [|r l IH]; cbn [List.filter]; [reflexivity | now rewrite IH].
Qed.

Lemma one_block_per_surviving_review_witness :
  let run := Scenario.two_reviews_two_thumbnails_run true in
  map re_repre (run_reviews run) = [Scenario.review_a; Scenario.review_b]
  /\ map re_index (run_reviews run) = [0; 1].
Proof.
  intros run.
  destruct (one_block_per_surviving_review Scenario.env (Scenario.config true)
              Scenario.two_reviews_two_thumbnails
              [Scenario.review_a; Scenario.review_b;
               Scenario.thumbnail_a; Scenario.thumbnail_b] run)
    as (Hr & Hi & _); [vm_compute; reflexivity | reflexivity |].
  split; [exact Hr | exact Hi].
Defined.

(** ** What every item of the heap keeps from the base item *)

Section BaseInvariant.

Context (E : Env) (cfg : Config) (instance : Instance).
Context (base : ComponentItem) (reps : list Repre).

Hypothesis base_overwrite : component_overwrite base = false.
Hypothesis base_location : component_location base = None.
Hypothesis base_thumbnail : thumbnail base = false.

Local Abbreviation wb := (well_built base reps).
Local Abbreviation ok_name := (allowed_name base reps).

Lemma well_built_rename n c :
  ok_name n -> wb c -> wb (set_asset_name n c).
Proof.
  intros (r & Hr & ->) [(H1 & H2 & H3 & H4 & H5 & H6 & H7 & _) Hp].
  split; [|exact Hp].
  repeat split; try assumption. right. exists r. auto.
Qed.

Lemma well_built_rename_opt o n h :
  ok_name n -> Forall wb h -> Forall wb (rename_opt o n h).
Proof.
  intros Hn Hall. destruct o as [l|]; [|exact Hall].
  unfold rename_opt, rename. apply Forall_alter; [exact Hall|].
  intros c _ Hc. now apply well_built_rename.
Qed.

Lemma from_base_base : from_base base reps base.
Proof. repeat split; auto. Qed.

Lemma from_base_rename_base n :
  ok_name n -> from_base base reps (set_asset_name n base).
Proof.
  intros (r & Hr & ->). repeat split; auto. right. exists r. auto.
Qed.

(** An item made from [c0] by setting path, data, thumbnail flag and the
    server location. *)
Lemma well_built_server c0 p d t :
  from_base base reps c0 ->
  wb
    (set_component_location_name ftrack_server_location_name
       (set_component_data d (set_component_path p (set_thumbnail t c0)))).
Proof.
  intros (H1 & H2 & H3 & H4 & H5 & H6 & H7 & H8).
  split; [repeat split; assumption|].
  split; [cbn; eauto | left; reflexivity].
Qed.

Lemma well_built_src c d :
  wb c ->
  wb
    (set_component_data d
       (set_component_location_name unmanaged_location_name
          (set_thumbnail false c))).
Proof.
  intros [(H1 & H2 & H3 & H4 & H5 & H6 & H7 & H8) _].
  split; [repeat split; assumption|].
  split; [cbn; eauto | right; split; reflexivity].
Qed.

Lemma well_built_data c d :
  wb c -> wb (set_component_data d c).
Proof.
  intros [(H1 & H2 & H3 & H4 & H5 & H6 & H7 & H8) [_ Hp]].
  split; [repeat split; assumption|].
  split; [cbn; eauto | exact Hp].
Qed.

Lemma thumbnail_step_well_built have_reviews st repre st' :
  thumbnail_step E cfg instance base have_reviews st repre = Ok st' ->
  Forall wb (ts_heap st) -> Forall wb (ts_heap st').
Proof.
  unfold thumbnail_step. intros Hrun Hall.
  destruct (negb (path_truthy _)); [now injection Hrun as <-|].
  set (titem := set_component_location_name _ _) in Hrun.
  assert (Ht : wb titem).
  { subst titem.
    pose proof (well_built_server base
                  (get_publish_repre_path E instance repre false)
                  {| cd_name :=
                       if have_reviews then "thumbnail"
                       else "ftrackreview-image";
                     cd_metadata :=
                       _prepare_image_component_metadata E repre
                         (get_publish_repre_path E instance repre false) |}
                  true from_base_base) as H.
    exact H. }
  cbn [alloc] in Hrun.
  destruct (negb (mem_str "delete" (repre_tags repre))).
  - destruct (_create_src_component _ _ _ _ _ _) as [src|] eqn:Hsrc;
      [|discriminate].
    destruct (create_src_spec _ _ _ _ _ _ _ Hsrc) as (d & md & _ & _ & ->).
    cbn [mbind result_bind alloc] in Hrun. injection Hrun as <-.
    cbn [ts_heap].
    apply Forall_app; split;
      [apply Forall_app; split; [exact Hall | constructor; [exact Ht | constructor]]|].
    constructor; [apply well_built_src; exact Ht | constructor].
  - injection Hrun as <-. cbn [ts_heap].
    apply Forall_app; split; [exact Hall | constructor; [exact Ht | constructor]].
Qed.

Lemma thumbnail_fold_well_built have_reviews thumbs : forall st st',
  foldl_result (thumbnail_step E cfg instance base have_reviews) thumbs st
  = Ok st' ->
  Forall wb (ts_heap st) -> Forall wb (ts_heap st').
Proof.
  induction thumbs as [|r thumbs IH]; intros st st' Hrun Hall.
  - now injection Hrun as <-.
  - cbn [foldl_result] in Hrun.
    destruct (thumbnail_step _ _ _ _ _ _ _) as [st1|] eqn:Hstep;
      [|discriminate].
    cbn [mbind result_bind] in Hrun.
    eapply IH; [exact Hrun|]. eapply thumbnail_step_well_built; eauto.
Qed.

Lemma copy_opt_well_built o h o' h' :
  copy_opt o h = (o', h') -> Forall wb h -> Forall wb h'.
Proof.
  intros Hcopy Hall.
  destruct (copy_opt_spec _ _ _ _ Hcopy)
    as [[_ ->]|(l & c & _ & Hl & _ & ->)]; [exact Hall|].
  apply Forall_app. split; [exact Hall|].
  constructor; [|constructor]. rewrite Forall_lookup in Hall. eauto.
Qed.

Lemma build_review_item_well_built repre ri1 ri :
  build_review_item E cfg instance repre ri1 = Ok ri ->
  from_base base reps ri1 -> wb ri.
Proof.
  unfold build_review_item. intros Hrun Hb.
  destruct (_is_repre_video E repre).
  - destruct (_prepare_video_component_metadata _ _ _ _ _ _) as [md|];
      [|discriminate].
    cbn [mbind result_bind] in Hrun. injection Hrun as <-.
    destruct Hb as (H1 & H2 & H3 & H4 & H5 & H6 & H7 & H8).
    split; [repeat split; assumption|].
    split; [cbn; eauto | left; reflexivity].
  - cbn [mbind result_bind] in Hrun. injection Hrun as <-.
    destruct Hb as (H1 & H2 & H3 & H4 & H5 & H6 & H7 & H8).
    split; [repeat split; assumption|].
    split; [cbn; eauto | left; reflexivity].
Qed.

Lemma append_review_well_built repre ri h r :
  append_review E cfg instance repre ri h = Ok r ->
  wb ri -> Forall wb h -> Forall wb (snd r).
Proof.
  unfold append_review. intros Hrun Hri Hall.
  assert (Horigin : forall h1 r1,
            (if upload_reviewable_with_origin_name cfg then
               match get_publish_repre_path E instance repre false with
               | None =>
                   Raise
                     (TypeError "expected str, bytes or os.PathLike object")
               | Some p =>
                   let filename := os_path_basename E p in
                   let origin_name_component :=
                     set_component_data
                       {| cd_name := fst (os_path_splitext E filename);
                          cd_metadata := component_metadata ri |} ri in
                   let '(l, h') := alloc h1 origin_name_component in
                   Ok (Some l, h')
               end
             else Ok (None, h1)) = Ok r1 ->
            Forall wb h1 -> Forall wb (snd r1)).
  { intros h1 r1 Hr1 Hh1.
    destruct (upload_reviewable_with_origin_name cfg);
      [|now injection Hr1 as <-].
    destruct (get_publish_repre_path E instance repre false);
      [|discriminate].
    cbn [alloc] in Hr1. injection Hr1 as <-. cbn [snd].
    apply Forall_app. split; [exact Hh1|].
    constructor; [now apply well_built_data | constructor]. }
  destruct (negb (mem_str "delete" (repre_tags repre))).
  - destruct (_create_src_component _ _ _ _ _ _) as [src|] eqn:Hsrc;
      [|discriminate].
    destruct (create_src_spec _ _ _ _ _ _ _ Hsrc) as (d & md & _ & _ & ->).
    cbn [mbind result_bind alloc] in Hrun.
    match type of Hrun with
    | mbind _ ?m = _ => destruct m as [[o h3]|] eqn:Hm; [|discriminate]
    end.
    cbn [mbind result_bind] in Hrun. injection Hrun as <-. cbn [snd].
    apply (Horigin _ _ Hm).
    repeat (apply Forall_app; split); auto.
    constructor; [now apply well_built_src | constructor].
  - cbn [mbind result_bind alloc] in Hrun.
    match type of Hrun with
    | mbind _ ?m = _ => destruct m as [[o h3]|] eqn:Hm; [|discriminate]
    end.
    cbn [mbind result_bind] in Hrun. injection Hrun as <-. cbn [snd].
    apply (Horigin _ _ Hm).
    apply Forall_app; split; auto.
Qed.

Lemma review_iteration_well_built tdi multi multiple has_movie index repre
    st st' :
  review_iteration E cfg instance base tdi multi multiple has_movie index
    repre st = Ok st' ->
  In repre reps ->
  Forall wb (rs_heap st) -> Forall wb (rs_heap st').
Proof.
  unfold review_iteration. intros Hrun Hin Hall.
  destruct (_ && _); [now injection Hrun as <-|].
  destruct (_get_matching_thumbnail_item _ _ _) as [td_opt w].
  destruct (rename_for_review _ _ _ _ _ _) as [ri1 h2] eqn:Hren.
  destruct (copy_opt (item <$> td_opt) h2) as [tc h3] eqn:Hc1.
  destruct (copy_opt (td_opt ≫= src_component) h3) as [sc h4] eqn:Hc2.
  destruct (build_review_item _ _ _ _ _) as [ri|] eqn:Hri; [|discriminate].
  cbn [mbind result_bind] in Hrun.
  destruct (append_review _ _ _ _ _ _) as [[[[s r] o] h7]|] eqn:Happ;
    [|discriminate].
  cbn [mbind result_bind] in Hrun. injection Hrun as <-. cbn [rs_heap].
  assert (Hh2 : from_base base reps ri1 /\ Forall wb h2).
  { unfold rename_for_review, _make_extended_component_name in Hren.
    destruct (_ && (index =? 0)%nat).
    - injection Hren as <- <-. split; [apply from_base_base | exact Hall].
    - destruct (multiple && _).
      + injection Hren as <- <-.
        assert (Hn : ok_name (asset_name base ++ "_" ++ repre_name repre))
          by (exists repre; auto).
        split; [now apply from_base_rename_base|].
        now apply well_built_rename_opt, well_built_rename_opt.
      + injection Hren as <- <-. split; [apply from_base_base | exact Hall]. }
  destruct Hh2 as [Hri1 Hh2].
  change h7 with (snd (s, r, o, h7)).
  eapply append_review_well_built; [exact Happ | |].
  - eapply build_review_item_well_built; eauto.
  - eapply copy_opt_well_built; [exact Hc2|].
    eapply copy_opt_well_built; [exact Hc1 | exact Hh2].
Qed.

Lemma review_loop_well_built tdi multi multiple has_movie repres :
  forall index st st',
  review_loop E cfg instance base tdi multi multiple has_movie index repres
    st = Ok st' ->
  Forall (fun r => In r reps) repres ->
  Forall wb (rs_heap st) -> Forall wb (rs_heap st').
Proof.
  induction repres as [|r repres IH]; intros index st st' Hrun Hin Hall.
  - now injection Hrun as <-.
  - cbn [review_loop] in Hrun.
    destruct (review_iteration _ _ _ _ _ _ _ _ _ _ _) as [st1|] eqn:Hit;
      [|discriminate].
    cbn [mbind result_bind] in Hrun.
    inversion Hin as [|? ? Hr Hrest]; subst.
    eapply IH; [exact Hrun | exact Hrest|].
    eapply review_iteration_well_built; eauto.
Qed.

Lemma other_fold_well_built multiple extended others : forall st st',
  foldl_result (other_step E cfg instance base multiple extended) others st
  = Ok st' ->
  (forall n, extended = Some n -> ok_name n) ->
  Forall wb (fst st) -> Forall wb (fst st').
Proof.
  induction others as [|r others IH]; intros st st' Hrun Hext Hall.
  - now injection Hrun as <-.
  - cbn [foldl_result] in Hrun.
    destruct (other_step _ _ _ _ _ _ _ _) as [st1|] eqn:Hstep;
      [|discriminate].
    cbn [mbind result_bind] in Hrun.
    eapply IH; [exact Hrun | exact Hext|].
    unfold other_step in Hstep.
    destruct (negb (path_truthy _)); [now injection Hstep as <-|].
    destruct (_prepare_component_metadata _ _ _ _ _ _) as [md|];
      [|discriminate].
    cbn [mbind result_bind alloc] in Hstep. injection Hstep as <-.
    cbn [fst]. apply Forall_app. split; [exact Hall|].
    constructor; [|constructor].
    assert (Hb : from_base base reps
                   match extended with
                   | Some n =>
                       if multiple
                          && negb (keep_first_product_name_for_review cfg)
                          && str_truthy n
                       then set_asset_name n base else base
                   | None => base
                   end).
    { destruct extended as [n|]; [|apply from_base_base].
      destruct (_ && _); [|apply from_base_base].
      apply from_base_rename_base. now apply Hext. }
    destruct Hb as (H1 & H2 & H3 & H4 & H5 & H6 & H7 & H8).
    split; [repeat split; assumption|].
    split; [cbn; eauto|]. right. split; [reflexivity|].
    cbn. destruct extended as [n|]; [|exact base_thumbnail].
    destruct (_ && _); exact base_thumbnail.
Qed.

End BaseInvariant.

Lemma process_well_built E cfg instance reps v run :
  process E cfg instance = Ok (Some run) ->
  representations instance = Some reps ->
  version instance = Some v ->
  Forall
    (well_built (base_component_item_of E cfg instance v)
       (surviving_reviews E (classify E instance reps)))
    (run_heap run).
Proof.
  intros Hrun Hreps Hv.
  destruct (process_inversion E cfg instance run Hrun)
    as (reps' & v' & ts & rs & h & others & Hreps' & Hv' & Hts & Hrs & Hoth
        & Hheap & _).
  rewrite Hreps in Hreps'. injection Hreps' as <-.
  rewrite Hv in Hv'. injection Hv' as <-.
  set (b := classify E instance reps) in *.
  set (base := base_component_item_of E cfg instance v) in *.
  rewrite Hheap.
  assert (Hts' : Forall (well_built base (surviving_reviews E b))
                   (ts_heap ts)).
  { unfold thumbnail_loop in Hts.
    eapply thumbnail_fold_well_built; [| | exact Hts |];
      [reflexivity | reflexivity | constructor]. }
  assert (Hrs' : Forall (well_built base (surviving_reviews E b))
                   (rs_heap rs)).
  { eapply review_loop_well_built; [| | exact Hrs | | exact Hts'];
      [reflexivity | reflexivity |].
    apply List.Forall_forall. auto. }
  change h with (fst (h, others)).
  eapply other_fold_well_built; [| | | exact Hoth | | exact Hrs'];
    [reflexivity | reflexivity | reflexivity |].
  intros n Hn.
  destruct (review_loop_entries E cfg instance _ _ _ _ _ _ _ _ _ Hrs
              (surviving_reviews_not_skipped E _)) as (_ & _ & Hext).
  rewrite Hext in Hn. cbn [rs_extended_asset_name] in Hn.
  destruct (list.last (surviving_reviews E b)) as [r|] eqn:Hlast;
    [|discriminate Hn].
  exists r. split.
  - apply list_elem_of_In. eapply last_Some_elem_of. exact Hlast.
  - unfold _make_extended_component_name in Hn.
    destruct (_ && _); [discriminate Hn|]. now injection Hn as <-.
Qed.

(** X14: every item of the stored list has the asset type, version number,
    comment, status name and custom attributes of the base item, is never
    set to overwrite and has no location object; its asset name is the
    product name or the product name extended with "_" and the name of a
    surviving review representation. *)
Theorem components_keep_base_fields
    (E : Env) (cfg : Config) (instance : Instance) (reps : list Repre)
    (v : Z) (run : Run) (c : ComponentItem) :
  process E cfg instance = Ok (Some run) ->
  representations instance = Some reps ->
  version instance = Some v ->
  In c (components run) ->
  assettype_short c = asset_type_of E cfg instance
  /\ assetversion_version c = v
  /\ assetversion_comment c
     = match context_comment instance with Some s => s | None => "" end
  /\ assetversion_status_name c
     = _get_asset_version_status_name E cfg instance
  /\ assetversion_custom_attributes c = av_custom_attributes_of E instance
  /\ component_overwrite c = false
  /\ component_location c = None
  /\ (asset_name c = productName instance
      \/ exists r,
           In r (surviving_reviews E (classify E instance reps))
           /\ asset_name c = productName instance ++ "_" ++ repre_name r).
Proof.
  intros Hrun Hreps Hv Hc.
  pose proof (process_well_built E cfg instance reps v run Hrun Hreps Hv)
    as Hall.
  destruct (components_lookup _ _ Hc) as (l & _ & Hl).
  rewrite Forall_lookup in Hall. destruct (Hall _ _ Hl) as [Hb _].
  exact Hb.
Qed.

Lemma components_keep_base_fields_witness :
  let run := Scenario.two_reviews_two_thumbnails_run true in
  exists c,
    nth_error (components run) 6 = Some c
    /\ assettype_short c = "mov"
    /\ assetversion_version c = 3%Z
    /\ asset_name c = "reviewMain_prores".
Proof.
  intros run.
  destruct (nth_error (components run) 6) as [c|] eqn:Hc;
    [|vm_compute in Hc; discriminate Hc].
  exists c. split; [reflexivity|].
  destruct (components_keep_base_fields Scenario.env (Scenario.config true)
              Scenario.two_reviews_two_thumbnails
              [Scenario.review_a; Scenario.review_b;
               Scenario.thumbnail_a; Scenario.thumbnail_b] 3%Z run c)
    as (Ht & Hver & _); [vm_compute; reflexivity | reflexivity | reflexivity
                        | eapply nth_error_In; exact Hc |].
  split; [exact Ht|]. split; [exact Hver|].
  vm_compute in Hc. injection Hc as <-. reflexivity.
Defined.

(** X15: every item of the stored list has its component data and is
    placed on "ftrack.server" or on "ftrack.unmanaged"; an item on the
    unmanaged location is never flagged as thumbnail. *)
Theorem components_placed
    (E : Env) (cfg : Config) (instance : Instance) (run : Run)
    (c : ComponentItem) :
  process E cfg instance = Ok (Some run) ->
  In c (components run) ->
  (exists d, component_data c = Some d)
  /\ (component_location_name c = Some "ftrack.server"
      \/ (component_location_name c = Some "ftrack.unmanaged"
          /\ thumbnail c = false)).
Proof.
  intros Hrun Hc.
  destruct (process_inversion E cfg instance run Hrun)
    as (reps & v & _ & _ & _ & _ & Hreps & Hv & _).
  pose proof (process_well_built E cfg instance reps v run Hrun Hreps Hv)
    as Hall.
  destruct (components_lookup _ _ Hc) as (l & _ & Hl).
  rewrite Forall_lookup in Hall. destruct (Hall _ _ Hl) as [_ Hp].
  exact Hp.
Qed.

Lemma components_placed_witness :
  exists c,
    nth_error (components Scenario.one_review_run) 0 = Some c
    /\ component_location_name c = Some "ftrack.unmanaged"
    /\ (exists d, component_data c = Some d)
    /\ (component_location_name c = Some "ftrack.server"
        \/ (component_location_name c = Some "ftrack.unmanaged"
            /\ thumbnail c = false)).
Proof.
  destruct (nth_error (components Scenario.one_review_run) 0) as [c|] eqn:Hc;
    [|vm_compute in Hc; discriminate Hc].
  exists c. split; [reflexivity|]. split.
  - vm_compute in Hc. injection Hc as <-. reflexivity.
  - apply (components_placed Scenario.env (Scenario.config true)
             Scenario.one_review Scenario.one_review_run c).
    + vm_compute. reflexivity.
    + eapply nth_error_In. exact Hc.
Defined.

(** ** The filter of the image reviews *)

Lemma classify_has_movie E instance reps :
  has_movie_review (classify E instance reps)
  = existsb (_is_repre_video E)
      (review_representations (classify E instance reps)).
Proof.
  unfold classify.
  pose proof (classify_fold_filters E instance reps
                {| review_representations := [];
                   thumbnail_representations := [];
                   other_representations := [];
                   has_movie_review := false |}) as H.
  cbv zeta in H. destruct H as (_ & Hr & _ & Hm).
  rewrite Hr, Hm. reflexivity.
Qed.

Lemma surviving_reviews_nil E instance reps :
  surviving_reviews E (classify E instance reps) = []
  -> review_representations (classify E instance reps) = [].
Proof.
  intros Hnil.
  pose proof (classify_has_movie E instance reps) as Hm.
  unfold surviving_reviews in Hnil.
  destruct (review_representations (classify E instance reps))
    as [|r l] eqn:Hrevs; [reflexivity|].
  exfalso.
  destruct (has_movie_review (classify E instance reps)).
  - symmetry in Hm. apply existsb_exists in Hm as (x & Hx & Hvideo).
    assert (Hin : In x []); [|exact Hin].
    rewrite <- Hnil. apply List.filter_In. split; [exact Hx|].
    rewrite Hvideo. reflexivity.
  - cbn in Hnil. discriminate Hnil.
Qed.

(** X16: the filter that drops the image reviews when there is a movie
    review never empties the review list of the classifier: the filtered
    list is empty exactly when the review bucket is, and when the movie
    flag is set a video review is among the survivors. So the test that
    names the thumbnail items (made before the filter) and the test that
    appends the thumbnail alone (made after it) always agree. *)
Theorem movie_filter_keeps_a_review
    (E : Env) (instance : Instance) (reps : list Repre) :
  let b := classify E instance reps in
  (surviving_reviews E b = [] <-> review_representations b = [])
  /\ (has_movie_review b = true ->
      exists r, In r (surviving_reviews E b) /\ _is_repre_video E r = true)
  /\ have_reviews_of b
     = match surviving_reviews E b with [] => false | _ => true end.
Proof.
  cbv zeta.
  assert (Hiff : surviving_reviews E (classify E instance reps) = []
                 <-> review_representations (classify E instance reps) = []).
  { split; [apply surviving_reviews_nil|].
    intros H. unfold surviving_reviews. rewrite H. reflexivity. }
  split; [exact Hiff|]. split.
  - intros Hm. rewrite classify_has_movie in Hm.
    apply existsb_exists in Hm as (x & Hx & Hvideo).
    exists x. split; [|exact Hvideo].
    unfold surviving_reviews. apply List.filter_In. split; [exact Hx|].
    rewrite Hvideo. apply orb_true_r.
  - unfold have_reviews_of.
    destruct (review_representations (classify E instance reps))
      as [|r l] eqn:Hrevs.
    + rewrite (proj2 Hiff eq_refl). reflexivity.
    + destruct (surviving_reviews E (classify E instance reps)) eqn:Hs;
        [|reflexivity].
      destruct Hiff as [Hiff _]. discriminate (Hiff eq_refl).
Qed.

Lemma movie_filter_keeps_a_review_witness :
  let b :=
    classify Scenario.env Scenario.one_review
      [Scenario.review_main; Scenario.thumbnail_main] in
  has_movie_review b = true
  /\ exists r,
       In r (surviving_reviews Scenario.env b)
       /\ _is_repre_video Scenario.env r = true.
Proof.
  intros b. split; [vm_compute; reflexivity|].
  destruct (movie_filter_keeps_a_review Scenario.env Scenario.one_review
              [Scenario.review_main; Scenario.thumbnail_main])
    as (_ & H & _).
  apply H. vm_compute. reflexivity.
Defined.

(** ** The thumbnail items *)

Section ThumbnailItemFacts.

Context (E : Env) (cfg : Config) (instance : Instance).
Context (base : ComponentItem) (have_reviews : bool).

Local Abbreviation resolved :=
  (fun r : Repre => path_truthy (get_publish_repre_path E instance r false)).

Local Abbreviation item_of r c :=
  (component_name c
   = (if have_reviews then "thumbnail" else "ftrackreview-image")
   /\ thumbnail c = true
   /\ component_location_name c = Some ftrack_server_location_name
   /\ component_path c = get_publish_repre_path E instance r false
   /\ asset_name c = asset_name base
   /\ component_metadata c
      = _prepare_image_component_metadata E r
          (get_publish_repre_path E instance r false)).

Local Abbreviation data_of td :=
  (sync_key td = repre_outputName (representation td)
   /\ (src_component td = None
       <-> mem_str "delete" (repre_tags (representation td)) = true)).

Lemma thumbnail_step_item st repre st' :
  thumbnail_step E cfg instance base have_reviews st repre = Ok st' ->
  (exists k, ts_heap st' = (ts_heap st ++ k)%list)
  /\ if resolved repre then
       (exists l c,
          ts_thumbnail_item st' = Some l /\ ts_heap st' !! l = Some c
          /\ item_of repre c)
       /\ exists td,
            ts_thumbnail_data_items st'
            = (ts_thumbnail_data_items st ++ [td])%list
            /\ representation td = repre /\ data_of td
            /\ ts_component_list st'
               = (ts_component_list st
                  ++ option_list (src_component td))%list
     else st' = st.
Proof.
  unfold thumbnail_step.
  destruct (path_truthy (get_publish_repre_path E instance repre false))
    eqn:Hpath; cbn [negb].
  2:{ intros [= <-]. split; [exists []; now rewrite app_nil_r | reflexivity]. }
  cbn [alloc].
  destruct (mem_str "delete" (repre_tags repre)) eqn:Hdel; cbn [negb].
  - intros [= <-]. cbn [ts_heap ts_thumbnail_item ts_thumbnail_data_items
                        ts_component_list].
    split; [eexists; reflexivity|]. split.
    + eexists _, _. split; [reflexivity|]. split.
      * apply list_lookup_middle. reflexivity.
      * cbn. repeat split; reflexivity.
    + eexists. split; [reflexivity|].
      cbn [representation sync_key src_component option_list].
      rewrite app_nil_r. repeat split; auto.
  - destruct (_create_src_component _ _ _ _ _ _) as [src|];
      [|discriminate].
    cbn [mbind result_bind]. intros [= <-].
    cbn [ts_heap ts_thumbnail_item ts_thumbnail_data_items
         ts_component_list].
    split; [rewrite <- app_assoc; eexists; reflexivity|]. split.
    + eexists _, _. split; [reflexivity|]. split.
      * rewrite <- app_assoc. apply list_lookup_middle. reflexivity.
      * cbn. repeat split; reflexivity.
    + eexists. split; [reflexivity|].
      cbn [representation sync_key src_component option_list].
      split; [reflexivity|]. split; [|reflexivity].
      split; [reflexivity|]. rewrite Hdel. split; discriminate.
Qed.

Lemma thumbnail_fold_item thumbs : forall st st',
  foldl_result (thumbnail_step E cfg instance base have_reviews) thumbs st
  = Ok st' ->
  (exists k, ts_heap st' = (ts_heap st ++ k)%list)
  /\ match list.last (List.filter resolved thumbs) with
     | Some r =>
         exists l c,
           ts_thumbnail_item st' = Some l /\ ts_heap st' !! l = Some c
           /\ item_of r c
     | None => ts_thumbnail_item st' = ts_thumbnail_item st
     end
  /\ exists tds,
       ts_thumbnail_data_items st'
       = (ts_thumbnail_data_items st ++ tds)%list
       /\ map representation tds = List.filter resolved thumbs
       /\ Forall (fun td => data_of td) tds
       /\ ts_component_list st'
          = (ts_component_list st ++ omap src_component tds)%list.
Proof.
  induction thumbs as [|repre rest IH]; intros st st' Hrun.
  - injection Hrun as <-. cbn [List.filter list.last].
    split; [exists []; now rewrite app_nil_r|]. split; [reflexivity|].
    exists []. rewrite !app_nil_r. repeat split. constructor.
  - cbn [foldl_result] in Hrun.
    destruct (thumbnail_step _ _ _ _ _ _ _) as [st1|] eqn:Hstep;
      [|discriminate].
    cbn [mbind result_bind] in Hrun.
    destruct (thumbnail_step_item _ _ _ Hstep) as [[k1 Hk1] Hstep'].
    destruct (IH _ _ Hrun) as ([k2 Hk2] & Hlast & tds & Htds & Hreps
                               & Hdata & Hcl).
    split; [exists (k1 ++ k2)%list; rewrite Hk2, Hk1; now rewrite app_assoc|].
    cbn [List.filter].
    destruct (path_truthy (get_publish_repre_path E instance repre false)).
    + destruct Hstep' as [(l & c & Hl & Hc & Hitem)
                            (td & Htd & Hrep & Hd & Hcl1)].
      split.
      * destruct (List.filter resolved rest) as [|r' rest'] eqn:Hf.
        -- cbn [list.last] in Hlast |- *. exists l, c.
           split; [congruence|]. split; [|exact Hitem].
           rewrite Hk2. rewrite lookup_app_l; [exact Hc|].
           eapply lookup_lt_Some. exact Hc.
        -- change (list.last (repre :: r' :: rest'))
             with (list.last (r' :: rest')).
           destruct (list.last (r' :: rest')) eqn:Hl'; [exact Hlast|].
           apply last_None in Hl'. discriminate Hl'.
      * exists (td :: tds). rewrite Htds, Htd, <- app_assoc.
        split; [reflexivity|]. cbn [map]. rewrite Hrep, Hreps.
        split; [reflexivity|]. split; [constructor; assumption|].
        rewrite Hcl, Hcl1, <- app_assoc. f_equal.
        cbn [omap list_omap]. destruct (src_component td); reflexivity.
    + subst st1. split; [exact Hlast|]. exists tds. auto.
Qed.

End ThumbnailItemFacts.

(** X17: without review representations no review block is appended and
    the thumbnail item of the last thumbnail representation with a path is
    appended alone, named "ftrackreview-image", flagged as thumbnail, on
    the server location, under the product name and with the image
    metadata of that representation; without such a thumbnail nothing is
    appended for it. With a review representation no thumbnail item is
    appended alone. *)
Theorem thumbnail_alone_fallback
    (E : Env) (cfg : Config) (instance : Instance) (reps : list Repre)
    (run : Run) :
  process E cfg instance = Ok (Some run) ->
  representations instance = Some reps ->
  let b := classify E instance reps in
  match
    review_representations b,
    list.last
      (List.filter
         (fun r => path_truthy (get_publish_repre_path E instance r false))
         (thumbnail_representations b))
  with
  | [], Some r =>
      run_reviews run = []
      /\ exists l c,
           run_thumbnail_alone run = [l] /\ run_heap run !! l = Some c
           /\ component_name c = "ftrackreview-image"
           /\ thumbnail c = true
           /\ component_location_name c = Some "ftrack.server"
           /\ component_path c = get_publish_repre_path E instance r false
           /\ asset_name c = productName instance
           /\ component_metadata c
              = _prepare_image_component_metadata E r
                  (get_publish_repre_path E instance r false)
  | [], None => run_reviews run = [] /\ run_thumbnail_alone run = []
  | _ :: _, _ => run_thumbnail_alone run = []
  end.
Proof.
  intros Hrun Hreps. cbv zeta.
  destruct (process_inversion E cfg instance run Hrun)
    as (reps' & v & ts & rs & h & others & Hreps' & _ & Hts & Hrs & Hoth
        & Hheap & _ & _ & Hrev & _ & Halone).
  rewrite Hreps in Hreps'. injection Hreps' as <-.
  set (b := classify E instance reps) in *.
  unfold thumbnail_loop in Hts.
  destruct (thumbnail_fold_item E cfg instance _ _ _ _ _ Hts)
    as (_ & Hlast & _).
  cbn [ts_thumbnail_item] in Hlast.
  destruct (review_representations b) as [|r0 revs] eqn:Hrevs.
  - assert (Hs : surviving_reviews E b = []).
    { unfold surviving_reviews. rewrite Hrevs. reflexivity. }
    rewrite Hs in Hrs, Halone. cbn [review_loop] in Hrs.
    injection Hrs as <-. cbn [rs_entries rs_heap] in *.
    unfold have_reviews_of in Hlast. rewrite Hrevs in Hlast.
    destruct (other_fold_spec E cfg instance (other_representations b)
                _ _ _ _ _ _ Hoth) as (k & _ & Hk & _).
    { apply List.Forall_forall. auto. }
    cbn [fst] in Hk.
    destruct (list.last _) as [r|].
    + split; [exact Hrev|].
      destruct Hlast as (l & c & Hl & Hc & Hn & Ht & Hloc & Hp & Ha & Hmd).
      exists l, c. rewrite Halone, Hl. split; [reflexivity|].
      split; [|repeat split; assumption].
      rewrite Hheap, Hk. rewrite lookup_app_l; [exact Hc|].
      eapply lookup_lt_Some. exact Hc.
    + split; [exact Hrev|]. rewrite Halone, Hlast. reflexivity.
  - destruct (surviving_reviews E b) eqn:Hs; [|exact Halone].
    apply surviving_reviews_nil in Hs. fold b in Hs. congruence.
Qed.

Lemma thumbnail_alone_fallback_witness :
  let instance :=
    Scenario.instance (Some [Scenario.thumbnail_a; Scenario.thumbnail_b])
      (Some 3%Z) 1001 1010 in
  let run := Scenario.run_of (process Scenario.env (Scenario.config true)
                                instance) in
  exists l c,
    run_thumbnail_alone run = [l] /\ run_heap run !! l = Some c
    /\ component_name c = "ftrackreview-image"
    /\ component_path c
       = get_publish_repre_path Scenario.env instance Scenario.thumbnail_b
           false.
Proof.
  intros instance run.
  pose proof (thumbnail_alone_fallback Scenario.env (Scenario.config true)
                instance [Scenario.thumbnail_a; Scenario.thumbnail_b] run)
    as H.
  assert (Hrun : process Scenario.env (Scenario.config true) instance
                 = Ok (Some run)) by (vm_compute; reflexivity).
  specialize (H Hrun eq_refl). cbv zeta in H.
  assert (Hrevs : review_representations
                    (classify Scenario.env instance
                       [Scenario.thumbnail_a; Scenario.thumbnail_b]) = [])
    by (vm_compute; reflexivity).
  rewrite Hrevs in H.
  assert (Hlast :
    list.last
      (List.filter
         (fun r => path_truthy
                     (get_publish_repre_path Scenario.env instance r false))
         (thumbnail_representations
            (classify Scenario.env instance
               [Scenario.thumbnail_a; Scenario.thumbnail_b])))
    = Some Scenario.thumbnail_b) by (vm_compute; reflexivity).
  rewrite Hlast in H.
  destruct H as (_ & l & c & Hl & Hc & Hn & _ & _ & Hp & _).
  exists l, c. auto.
Defined.

(** X18: the thumbnail data items are one per thumbnail representation
    with a path, in the order of the thumbnail bucket, each with the output
    name of its representation as sync key and with a "_src" component
    exactly when the representation is not tagged "delete"; the "_src"
    components appended by the thumbnail loop are those of the data items,
    in the same order. *)
Theorem thumbnail_data_items_follow_bucket
    (E : Env) (cfg : Config) (instance : Instance) (reps : list Repre)
    (run : Run) :
  process E cfg instance = Ok (Some run) ->
  representations instance = Some reps ->
  let b := classify E instance reps in
  map representation (run_thumbnail_data_items run)
  = List.filter
      (fun r => path_truthy (get_publish_repre_path E instance r false))
      (thumbnail_representations b)
  /\ Forall
       (fun td =>
          sync_key td = repre_outputName (representation td)
          /\ (src_component td = None
              <-> mem_str "delete" (repre_tags (representation td)) = true))
       (run_thumbnail_data_items run)
  /\ run_thumbnail_srcs run
     = omap src_component (run_thumbnail_data_items run).
Proof.
  intros Hrun Hreps. cbv zeta.
  destruct (process_inversion E cfg instance run Hrun)
    as (reps' & v & ts & rs & h & others & Hreps' & _ & Hts & _ & _
        & _ & Hsrcs & Htdi & _).
  rewrite Hreps in Hreps'. injection Hreps' as <-.
  unfold thumbnail_loop in Hts.
  destruct (thumbnail_fold_item E cfg instance _ _ _ _ _ Hts)
    as (_ & _ & tds & Htds & Hmap & Hdata & Hcl).
  cbn [ts_thumbnail_data_items ts_component_list app] in Htds, Hcl.
  rewrite Hsrcs, Htdi, Hcl, Htds. auto.
Qed.

Lemma thumbnail_data_items_follow_bucket_witness :
  let run := Scenario.two_reviews_two_thumbnails_run true in
  map representation (run_thumbnail_data_items run)
  = [Scenario.thumbnail_a; Scenario.thumbnail_b]
  /\ run_thumbnail_srcs run
     = omap src_component (run_thumbnail_data_items run).
Proof.
  intros run.
  destruct (thumbnail_data_items_follow_bucket Scenario.env
              (Scenario.config true) Scenario.two_reviews_two_thumbnails
              [Scenario.review_a; Scenario.review_b;
               Scenario.thumbnail_a; Scenario.thumbnail_b] run)
    as (Hm & _ & Hs); [vm_compute; reflexivity | reflexivity |].
  split; [exact Hm | exact Hs].
Defined.

(** ** The components of the other representations *)

Lemma omap_lookup_seq (h items : heap) :
  omap (fun l => (h ++ items)%list !! l) (seq (length h) (length items))
  = items.
Proof.
  revert h. induction items as [|c items IH]; intros h; [reflexivity|].
  cbn [length seq omap list_omap].
  rewrite list_lookup_middle by reflexivity. f_equal.
  specialize (IH (h ++ [c])%list).
  rewrite <- app_assoc, length_app in IH. cbn [length app] in IH.
  replace (length h + 1) with (S (length h)) in IH by lia. exact IH.
Qed.

Section OtherItemsFacts.

Context (E : Env) (cfg : Config) (instance : Instance).
Context (base : ComponentItem) (multiple : bool) (extended : option string).

Local Abbreviation published :=
  (fun r : Repre => path_truthy (get_publish_repre_path E instance r true)).

Local Abbreviation other_name :=
  (match extended with
   | Some n =>
       if multiple && negb (keep_first_product_name_for_review cfg)
          && str_truthy n
       then n else asset_name base
   | None => asset_name base
   end).

Local Abbreviation other_of r c :=
  (component_name c = repre_name r
   /\ component_path c = get_publish_repre_path E instance r true
   /\ component_location_name c = Some unmanaged_location_name
   /\ thumbnail c = thumbnail base
   /\ asset_name c = other_name
   /\ _prepare_component_metadata E cfg instance r
        (get_publish_repre_path E instance r true) false
      = Ok (component_metadata c)).

Lemma other_step_item st repre st' :
  other_step E cfg instance base multiple extended st repre = Ok st' ->
  if published repre then
    exists c,
      fst st' = (fst st ++ [c])%list
      /\ snd st' = (snd st ++ [length (fst st)])%list
      /\ other_of repre c
  else st' = st.
Proof.
  unfold other_step.
  destruct (path_truthy (get_publish_repre_path E instance repre true));
    cbn [negb]; [|now intros [= <-]].
  destruct (_prepare_component_metadata _ _ _ _ _ _) as [md|] eqn:Hmd;
    [|discriminate].
  cbn [mbind result_bind alloc]. intros [= <-]. cbn [fst snd].
  eexists. split; [reflexivity|]. split; [reflexivity|].
  cbn. split; [reflexivity|]. split; [reflexivity|]. split; [reflexivity|].
  split; [|split; [|reflexivity]].
  - destruct extended as [n|]; [|reflexivity].
    destruct (_ && _); reflexivity.
  - destruct extended as [n|]; [|reflexivity].
    destruct (_ && _); reflexivity.
Qed.

Lemma other_fold_items others : forall st st',
  foldl_result (other_step E cfg instance base multiple extended) others st
  = Ok st' ->
  exists items,
    fst st' = (fst st ++ items)%list
    /\ snd st' = (snd st ++ seq (length (fst st)) (length items))%list
    /\ Forall2 (fun r c => other_of r c) (List.filter published others)
         items.
Proof.
  induction others as [|repre rest IH]; intros st st' Hrun.
  - injection Hrun as <-. exists []. rewrite !app_nil_r.
    repeat split. constructor.
  - cbn [foldl_result] in Hrun.
    destruct (other_step _ _ _ _ _ _ _ _) as [st1|] eqn:Hstep;
      [|discriminate].
    cbn [mbind result_bind] in Hrun.
    pose proof (other_step_item _ _ _ Hstep) as Hitem.
    destruct (IH _ _ Hrun) as (items & Hh & Hl & Hall).
    cbn [List.filter].
    destruct (path_truthy (get_publish_repre_path E instance repre true)).
    + destruct Hitem as (c & Hc & Hlc & Hof).
      exists (c :: items). rewrite Hh, Hl, Hc, Hlc, <- !app_assoc.
      split; [reflexivity|]. split.
      * f_equal. cbn [app length seq]. f_equal. f_equal.
        rewrite length_app. cbn [length]. lia.
      * constructor; assumption.
    + subst st1. exists items. auto.
Qed.

End OtherItemsFacts.

(** X19: the components of the other representations come last, one per
    other representation with a published path, in the order of the
    bucket: each is named after its representation, has the published path,
    sits on the unmanaged location, is not flagged as thumbnail and carries
    the metadata of a component that is not a review. Its asset name is the
    product name, unless the first review does not keep the product name
    and more than one review survives the filter: it then carries the
    extended name of the last surviving review. *)
Theorem other_components_follow_bucket
    (E : Env) (cfg : Config) (instance : Instance) (reps : list Repre)
    (run : Run) :
  process E cfg instance = Ok (Some run) ->
  representations instance = Some reps ->
  let b := classify E instance reps in
  let survivors := surviving_reviews E b in
  let published :=
    List.filter
      (fun r => path_truthy (get_publish_repre_path E instance r true))
      (other_representations b) in
  length (run_others run) = length published
  /\ Forall2
       (fun r c =>
          component_name c = repre_name r
          /\ component_path c = get_publish_repre_path E instance r true
          /\ component_location_name c = Some "ftrack.unmanaged"
          /\ thumbnail c = false
          /\ asset_name c
             = match list.last survivors with
               | Some review =>
                   if (1 <? length survivors)%nat
                      && negb (keep_first_product_name_for_review cfg)
                   then productName instance ++ "_" ++ repre_name review
                   else productName instance
               | None => productName instance
               end
          /\ _prepare_component_metadata E cfg instance r
               (get_publish_repre_path E instance r true) false
             = Ok (component_metadata c))
       published
       (omap (fun l => run_heap run !! l) (run_others run)).
Proof.
  intros Hrun Hreps. cbv zeta.
  destruct (process_inversion E cfg instance run Hrun)
    as (reps' & v & ts & rs & h & others & Hreps' & _ & _ & Hrs & Hoth
        & Hheap & _ & _ & _ & Hothers & _).
  rewrite Hreps in Hreps'. injection Hreps' as <-.
  set (b := classify E instance reps) in *.
  destruct (review_loop_entries E cfg instance _ _ _ _ _ _ _ _ _ Hrs
              (surviving_reviews_not_skipped E _)) as (_ & _ & Hext).
  cbn [rs_extended_asset_name] in Hext.
  destruct (other_fold_items E cfg instance _ _ _ _ _ _ Hoth)
    as (items & Hh & Hl & Hall).
  cbn [fst snd app] in Hh, Hl.
  rewrite Hothers, Hheap, Hl, Hh, omap_lookup_seq, length_seq.
  split; [symmetry; eapply Forall2_length; exact Hall|].
  eapply Forall2_impl; [exact Hall|].
  intros r c (Hn & Hp & Hloc & Ht & Ha & Hmd).
  split; [exact Hn|]. split; [exact Hp|]. split; [exact Hloc|].
  split; [exact Ht|]. split; [|exact Hmd].
  rewrite Ha, Hext. unfold multiple_reviewable_of. fold b.
  destruct (list.last (surviving_reviews E b)) as [review|];
    [|reflexivity].
  unfold _make_extended_component_name. cbn [asset_name base_component_item_of].
  destruct (keep_first_product_name_for_review cfg); cbn [andb negb].
  - rewrite andb_false_r.
    destruct (_ =? _)%nat; reflexivity.
  - rewrite andb_true_r.
    destruct (1 <? length (surviving_reviews E b))%nat; cbn [andb];
      [|reflexivity].
    destruct (productName instance); reflexivity.
Qed.

Lemma other_components_follow_bucket_witness :
  let cache := Scenario.repre "cache" "abc" [] None None None in
  let instance :=
    Scenario.instance
      (Some [Scenario.review_a; Scenario.review_b; cache])
      (Some 3%Z) 1001 1010 in
  let run :=
    Scenario.run_of (process Scenario.env (Scenario.config false) instance) in
  map asset_name (omap (fun l => run_heap run !! l) (run_others run))
  = ["reviewMain_prores"]
  /\ length (run_others run) = 1.
Proof.
  intros cache instance run.
  destruct (other_components_follow_bucket Scenario.env
              (Scenario.config false) instance
              [Scenario.review_a; Scenario.review_b; cache] run)
    as (Hlen & Hall); [vm_compute; reflexivity | reflexivity |].
  split; [|exact Hlen].
  destruct (omap (fun l => run_heap run !! l) (run_others run))
    as [|c l] eqn:Ho; [vm_compute in Ho; discriminate Ho|].
  destruct l as [|c' l]; [|vm_compute in Ho; discriminate Ho].
  assert (Hf :
    List.filter
      (fun r => path_truthy
                  (get_publish_repre_path Scenario.env instance r true))
      (other_representations
         (classify Scenario.env instance
            [Scenario.review_a; Scenario.review_b; cache])) = [cache])
    by (vm_compute; reflexivity).
  rewrite Hf in Hall.
  inversion Hall as [|? ? ? ? (_ & _ & _ & _ & Ha & _) _]; subst.
  cbn [map]. rewrite Ha. vm_compute. reflexivity.
Defined.

(** ** The block of entries of a review *)

Section ReviewBlockFacts.

Context (E : Env) (cfg : Config) (instance : Instance).

Lemma review_block_ext h h' e :
  heap_ext h h' ->
  review_block E cfg instance h e -> review_block E cfg instance h' e.
Proof.
  unfold review_block. cbv zeta.
  intros Hext (c & Hc & Hitem & Hsrc & Horigin).
  destruct (Hext _ _ Hc) as [n Hn].
  exists (set_asset_name n c). split; [exact Hn|]. split; [exact Hitem|].
  split.
  - destruct (re_src e) as [l|]; [|exact Hsrc].
    destruct Hsrc as (Hdel & s & Hs & Hfacts).
    destruct (Hext _ _ Hs) as [n' Hn'].
    split; [exact Hdel|]. exists (set_asset_name n' s).
    split; [exact Hn' | exact Hfacts].
  - destruct (re_origin e) as [l|]; [|exact Horigin].
    destruct Horigin as (Hflag & o & q & Ho & Hfacts).
    destruct (Hext _ _ Ho) as [n' Hn'].
    split; [exact Hflag|]. exists (set_asset_name n' o), q.
    split; [exact Hn' | exact Hfacts].
Qed.

Lemma build_review_item_of repre ri1 ri :
  build_review_item E cfg instance repre ri1 = Ok ri ->
  thumbnail ri1 = false ->
  review_item_of E cfg instance repre ri.
Proof.
  unfold build_review_item, review_item_of. cbv zeta. intros Hrun Hthumb.
  destruct (_is_repre_video E repre).
  - destruct (_prepare_video_component_metadata _ _ _ _ _ _) as [md|];
      [|discriminate].
    cbn [mbind result_bind] in Hrun. injection Hrun as <-.
    cbn. auto.
  - cbn [mbind result_bind] in Hrun. injection Hrun as <-.
    cbn. auto.
Qed.

Lemma append_review_block repre ri h src_loc review_loc origin_loc h' :
  append_review E cfg instance repre ri h
  = Ok (src_loc, review_loc, origin_loc, h') ->
  review_item_of E cfg instance repre ri ->
  heap_ext h h'
  /\ review_block E cfg instance h'
       {| re_index := 0; re_repre := repre; re_thumbnail := None;
          re_thumbnail_src := None; re_src := src_loc;
          re_review := review_loc; re_origin := origin_loc |}.
Proof.
  unfold append_review. intros Hrun Hitem.
  pose proof Hitem as (Hname & Hthumb & Hloc & Hpath & Hmd).
  cbv zeta in Hpath.
  destruct (mem_str "delete" (repre_tags repre)) eqn:Hdel; cbn [negb] in Hrun.
  - cbn [mbind result_bind alloc] in Hrun.
    destruct (upload_reviewable_with_origin_name cfg) eqn:Hflag.
    + destruct (get_publish_repre_path E instance repre false) as [q|]
        eqn:Hq; [|discriminate].
      cbn [mbind result_bind alloc] in Hrun. injection Hrun as <- <- <- <-.
      split; [rewrite <- app_assoc; apply heap_ext_app|].
      unfold review_block. cbv zeta. cbn [re_repre re_review re_src re_origin].
      exists ri. split.
      { rewrite <- app_assoc. apply list_lookup_middle. reflexivity. }
      split; [exact Hitem|]. split; [exact Hdel|]. split; [exact Hflag|].
      eexists _, q. split.
      { rewrite length_app. cbn [length].
        apply list_lookup_middle. rewrite length_app. reflexivity. }
      rewrite Hq. cbn. rewrite Hloc, Hpath. repeat split; reflexivity.
    + cbn [mbind result_bind] in Hrun. injection Hrun as <- <- <- <-.
      split; [apply heap_ext_app|].
      unfold review_block. cbv zeta. cbn [re_repre re_review re_src re_origin].
      exists ri. split; [apply list_lookup_middle; reflexivity|].
      split; [exact Hitem|]. split; [exact Hdel | exact Hflag].
  - destruct (_create_src_component _ _ _ _ _ _) as [src|] eqn:Hsrc;
      [|discriminate].
    destruct (create_src_spec _ _ _ _ _ _ _ Hsrc) as (d & md & Hd & Hmd' & ->).
    cbn [mbind result_bind alloc] in Hrun.
    assert (Hsrc_facts :
      forall s, s = set_component_data
                      {| cd_name := cd_name d ++ "_src"; cd_metadata := md |}
                      (set_component_location_name unmanaged_location_name
                         (set_thumbnail false ri)) ->
        component_name s = component_name ri ++ "_src"
        /\ thumbnail s = false
        /\ component_location_name s = Some unmanaged_location_name
        /\ component_path s = get_publish_repre_path E instance repre false
        /\ _prepare_component_metadata E cfg instance repre
             (get_publish_repre_path E instance repre false) false
           = Ok (component_metadata s)).
    { intros s ->. unfold component_name, component_metadata. cbn.
      rewrite Hd. rewrite <- Hpath. auto. }
    destruct (upload_reviewable_with_origin_name cfg) eqn:Hflag.
    + destruct (get_publish_repre_path E instance repre false) as [q|]
        eqn:Hq; [|discriminate].
      cbn [mbind result_bind alloc] in Hrun. injection Hrun as <- <- <- <-.
      split; [rewrite <- !app_assoc; apply heap_ext_app|].
      unfold review_block. cbv zeta. cbn [re_repre re_review re_src re_origin].
      exists ri. split.
      { rewrite lookup_app_l by (rewrite !length_app; cbn [length]; lia).
        apply list_lookup_middle. reflexivity. }
      split; [exact Hitem|]. split.
      { split; [exact Hdel|]. eexists. split.
        - rewrite <- !app_assoc. apply list_lookup_middle. reflexivity.
        - rewrite Hq. apply Hsrc_facts. reflexivity. }
      split; [exact Hflag|]. eexists _, q. split.
      { apply list_lookup_middle. reflexivity. }
      rewrite Hq. cbn. rewrite Hloc, Hpath. repeat split; reflexivity.
    + cbn [mbind result_bind] in Hrun. injection Hrun as <- <- <- <-.
      split; [rewrite <- !app_assoc; apply heap_ext_app|].
      unfold review_block. cbv zeta. cbn [re_repre re_review re_src re_origin].
      exists ri. split.
      { apply list_lookup_middle. reflexivity. }
      split; [exact Hitem|]. split; [|exact Hflag].
      split; [exact Hdel|]. eexists. split.
      * rewrite <- !app_assoc. apply list_lookup_middle. reflexivity.
      * apply Hsrc_facts. reflexivity.
Qed.

End ReviewBlockFacts.

Section ReviewBlockLoop.

Context (E : Env) (cfg : Config) (instance : Instance).
Context (base : ComponentItem) (tdi : list ThumbData).
Context (multi multiple has_movie : bool).

Hypothesis base_thumbnail : thumbnail base = false.

Lemma review_block_entry h e e' :
  re_repre e = re_repre e' -> re_src e = re_src e' ->
  re_review e = re_review e' -> re_origin e = re_origin e' ->
  review_block E cfg instance h e -> review_block E cfg instance h e'.
Proof.
  unfold review_block. cbv zeta. intros -> -> -> ->. auto.
Qed.

Lemma review_iteration_blocks index repre st st' :
  review_iteration E cfg instance base tdi multi multiple has_movie index
    repre st = Ok st' ->
  Forall (review_block E cfg instance (rs_heap st)) (rs_entries st) ->
  heap_ext (rs_heap st) (rs_heap st')
  /\ Forall (review_block E cfg instance (rs_heap st')) (rs_entries st').
Proof.
  unfold review_iteration. intros Hrun Hall.
  destruct (negb (_is_repre_video E repre) && has_movie).
  { injection Hrun as <-. split; [apply heap_ext_refl | exact Hall]. }
  destruct (_get_matching_thumbnail_item _ _ _) as [td_opt w].
  destruct (rename_for_review _ _ _ _ _ _) as [ri1 h2] eqn:Hren.
  destruct (rename_for_review_spec _ _ _ _ _ _ _ _ Hren)
    as (_ & Hext2 & [n' Hri1] & _).
  destruct (copy_opt (item <$> td_opt) h2) as [tc h3] eqn:Hc1.
  destruct (copy_opt_app _ _ _ _ Hc1) as (k1 & Hk1 & _).
  destruct (copy_opt (td_opt ≫= src_component) h3) as [sc h4] eqn:Hc2.
  destruct (copy_opt_app _ _ _ _ Hc2) as (k2 & Hk2 & _).
  destruct (build_review_item _ _ _ _ _) as [ri|] eqn:Hbuild;
    [|discriminate].
  cbn [mbind result_bind] in Hrun.
  destruct (append_review _ _ _ _ _ _) as [[[[src_loc review_loc]
                                             origin_loc] h7]|] eqn:Happ;
    [|discriminate].
  cbn [mbind result_bind] in Hrun. injection Hrun as <-.
  cbn [rs_heap rs_entries].
  assert (Hitem : review_item_of E cfg instance repre ri).
  { eapply build_review_item_of; [exact Hbuild|].
    rewrite Hri1. exact base_thumbnail. }
  destruct (append_review_block E cfg instance _ _ _ _ _ _ _ Happ Hitem)
    as [Hext7 Hblock].
  assert (Hext : heap_ext (rs_heap st) h7).
  { eapply heap_ext_trans; [exact Hext2|].
    eapply heap_ext_trans; [|exact Hext7].
    rewrite Hk2, Hk1, <- app_assoc. apply heap_ext_app. }
  split; [exact Hext|].
  apply Forall_app. split.
  - eapply Forall_impl; [exact Hall|].
    intros e He. eapply review_block_ext; eassumption.
  - constructor; [|constructor].
    eapply review_block_entry; [| | | |exact Hblock]; reflexivity.
Qed.

Lemma review_loop_blocks repres : forall index st st',
  review_loop E cfg instance base tdi multi multiple has_movie index repres
    st = Ok st' ->
  Forall (review_block E cfg instance (rs_heap st)) (rs_entries st) ->
  heap_ext (rs_heap st) (rs_heap st')
  /\ Forall (review_block E cfg instance (rs_heap st')) (rs_entries st').
Proof.
  induction repres as [|repre rest IH]; intros index st st' Hrun Hall.
  - injection Hrun as <-. split; [apply heap_ext_refl | exact Hall].
  - cbn [review_loop] in Hrun.
    destruct (review_iteration _ _ _ _ _ _ _ _ _ _ _) as [st1|] eqn:Hit;
      [|discriminate].
    cbn [mbind result_bind] in Hrun.
    destruct (review_iteration_blocks _ _ _ _ Hit Hall) as [Hext1 Hall1].
    destruct (IH _ _ _ Hrun Hall1) as [Hext2 Hall2].
    split; [eapply heap_ext_trans; eassumption | exact Hall2].
Qed.

End ReviewBlockLoop.

(** X20: every block of review entries of the stored list has its review
    item on the server location with the path of its representation, named
    "ftrackreview-mp4" with the review metadata when the representation is
    a video and "ftrackreview-image", flagged as thumbnail, with the image
    metadata otherwise; it has a "_src" component (same name with the
    suffix, unmanaged location, not a thumbnail, metadata of a component
    that is not a review) exactly when the representation is not tagged
    "delete", and a component named after the file of the path, with the
    metadata of the review item, exactly when the upload with the origin
    name is switched on. *)
Theorem review_blocks_shape
    (E : Env) (cfg : Config) (instance : Instance) (run : Run) :
  process E cfg instance = Ok (Some run) ->
  Forall (review_block E cfg instance (run_heap run)) (run_reviews run).
Proof.
  intros Hrun.
  destruct (process_inversion E cfg instance run Hrun)
    as (reps & v & ts & rs & h & others & _ & _ & _ & Hrs & Hoth
        & Hheap & _ & _ & Hrev & _).
  destruct (review_loop_blocks E cfg instance
              (base_component_item_of E cfg instance v) _ _ _ _ eq_refl
              _ _ _ _ Hrs) as [_ Hall]; [constructor|].
  destruct (other_fold_spec E cfg instance
              (other_representations (classify E instance reps))
              _ _ _ _ _ _ Hoth) as (k & _ & Hk & _).
  { apply List.Forall_forall. auto. }
  cbn [fst] in Hk. rewrite Hrev, Hheap, Hk.
  eapply Forall_impl; [exact Hall|].
  intros e He. eapply review_block_ext; [apply heap_ext_app | exact He].
Qed.

Lemma review_blocks_shape_witness :
  let run := Scenario.two_reviews_two_thumbnails_run true in
  Forall (review_block Scenario.env (Scenario.config true)
            Scenario.two_reviews_two_thumbnails (run_heap run))
    (run_reviews run)
  /\ length (run_reviews run) = 2.
Proof.
  intros run. split.
  - apply (review_blocks_shape Scenario.env (Scenario.config true)
             Scenario.two_reviews_two_thumbnails run).
    vm_compute. reflexivity.
  - vm_compute. reflexivity.
Defined.

(** ** The copy of the matched thumbnail in a block *)

Section ThumbnailCells.

Context (E : Env) (cfg : Config) (instance : Instance).

Lemma thumbnail_cells_ext name h h' td :
  heap_ext h h' ->
  thumbnail_cells E instance name h td ->
  thumbnail_cells E instance name h' td.
Proof.
  intros Hext [(c & Hc & Hitem) Hsrc].
  destruct (Hext _ _ Hc) as [n Hn]. split.
  - exists (set_asset_name n c). split; [exact Hn | exact Hitem].
  - intros s Hs. destruct (Hsrc s Hs) as [c' Hc'].
    destruct (Hext _ _ Hc') as [n' Hn']. eauto.
Qed.

Lemma thumbnail_block_ext tdi multi name h h' e :
  heap_ext h h' ->
  thumbnail_block E instance tdi multi name h e ->
  thumbnail_block E instance tdi multi name h' e.
Proof.
  unfold thumbnail_block. intros Hext.
  destruct (fst (_get_matching_thumbnail_item _ _ _)) as [td|];
    [|exact (fun H => H)].
  intros [(l & c & Hl & Hc & Hitem) Hsrc].
  destruct (Hext _ _ Hc) as [n Hn].
  split; [|exact Hsrc].
  exists l, (set_asset_name n c). split; [exact Hl|].
  split; [exact Hn | exact Hitem].
Qed.

Context (base : ComponentItem) (have_reviews : bool).

Local Abbreviation thumbnail_name :=
  (if have_reviews then "thumbnail" else "ftrackreview-image").

Lemma thumbnail_step_cells st repre st' :
  thumbnail_step E cfg instance base have_reviews st repre = Ok st' ->
  Forall (thumbnail_cells E instance thumbnail_name (ts_heap st))
    (ts_thumbnail_data_items st) ->
  Forall (thumbnail_cells E instance thumbnail_name (ts_heap st'))
    (ts_thumbnail_data_items st').
Proof.
  unfold thumbnail_step. intros Hrun Hall.
  destruct (path_truthy (get_publish_repre_path E instance repre false));
    cbn [negb] in Hrun; [|now injection Hrun as <-].
  cbn [alloc] in Hrun.
  destruct (mem_str "delete" (repre_tags repre)); cbn [negb] in Hrun.
  - injection Hrun as <-. cbn [ts_heap ts_thumbnail_data_items].
    apply Forall_app. split.
    + eapply Forall_impl; [exact Hall|]. intros td Htd.
      eapply thumbnail_cells_ext; [apply heap_ext_app | exact Htd].
    + constructor; [|constructor]. split.
      * eexists. cbn [item representation]. split.
        -- apply list_lookup_middle. reflexivity.
        -- unfold thumbnail_item_of. cbn. repeat split; reflexivity.
      * cbn [src_component]. discriminate.
  - destruct (_create_src_component _ _ _ _ _ _) as [src|];
      [|discriminate].
    cbn [mbind result_bind] in Hrun. injection Hrun as <-.
    cbn [ts_heap ts_thumbnail_data_items].
    apply Forall_app. split.
    + eapply Forall_impl; [exact Hall|]. intros td Htd.
      eapply thumbnail_cells_ext; [|exact Htd].
      rewrite <- app_assoc. apply heap_ext_app.
    + constructor; [|constructor]. split.
      * eexists. cbn [item representation]. split.
        -- rewrite <- app_assoc. apply list_lookup_middle. reflexivity.
        -- unfold thumbnail_item_of. cbn. repeat split; reflexivity.
      * cbn [src_component]. intros s [= <-]. exists src.
        apply list_lookup_middle. reflexivity.
Qed.

Lemma thumbnail_fold_cells thumbs : forall st st',
  foldl_result (thumbnail_step E cfg instance base have_reviews) thumbs st
  = Ok st' ->
  Forall (thumbnail_cells E instance thumbnail_name (ts_heap st))
    (ts_thumbnail_data_items st) ->
  Forall (thumbnail_cells E instance thumbnail_name (ts_heap st'))
    (ts_thumbnail_data_items st').
Proof.
  induction thumbs as [|repre rest IH]; intros st st' Hrun Hall.
  - injection Hrun as <-. exact Hall.
  - cbn [foldl_result] in Hrun.
    destruct (thumbnail_step _ _ _ _ _ _ _) as [st1|] eqn:Hstep;
      [|discriminate].
    cbn [mbind result_bind] in Hrun.
    eapply IH; [exact Hrun|]. eapply thumbnail_step_cells; eassumption.
Qed.

End ThumbnailCells.

Section ThumbnailBlockLoop.

Context (E : Env) (cfg : Config) (instance : Instance).
Context (base : ComponentItem) (tdi : list ThumbData).
Context (multi multiple has_movie : bool) (name : string).

Lemma review_iteration_thumbnails index repre st st' :
  review_iteration E cfg instance base tdi multi multiple has_movie index
    repre st = Ok st' ->
  Forall (thumbnail_cells E instance name (rs_heap st)) tdi ->
  Forall (thumbnail_block E instance tdi multi name (rs_heap st))
    (rs_entries st) ->
  heap_ext (rs_heap st) (rs_heap st')
  /\ Forall (thumbnail_block E instance tdi multi name (rs_heap st'))
       (rs_entries st').
Proof.
  unfold review_iteration. intros Hrun Hcells Hall.
  destruct (negb (_is_repre_video E repre) && has_movie).
  { injection Hrun as <-. split; [apply heap_ext_refl | exact Hall]. }
  destruct (_get_matching_thumbnail_item repre tdi multi) as [td_opt w]
    eqn:Hmatch.
  destruct (rename_for_review _ _ _ _ _ _) as [ri1 h2] eqn:Hren.
  destruct (rename_for_review_spec _ _ _ _ _ _ _ _ Hren)
    as (_ & Hext2 & _).
  destruct (copy_opt (item <$> td_opt) h2) as [tc h3] eqn:Hc1.
  destruct (copy_opt_app _ _ _ _ Hc1) as (k1 & Hk1 & _).
  destruct (copy_opt (td_opt ≫= src_component) h3) as [sc h4] eqn:Hc2.
  destruct (copy_opt_app _ _ _ _ Hc2) as (k2 & Hk2 & _).
  destruct (build_review_item _ _ _ _ _) as [ri|]; [|discriminate].
  cbn [mbind result_bind] in Hrun.
  destruct (append_review _ _ _ _ _ _) as [[[[src_loc review_loc]
                                             origin_loc] h7]|] eqn:Happ;
    [|discriminate].
  cbn [mbind result_bind] in Hrun. injection Hrun as <-.
  cbn [rs_heap rs_entries].
  destruct (append_review_spec _ _ _ _ _ _ _ _ _ _ Happ)
    as (news & Hnews & _).
  assert (Hext4 : heap_ext h3 h7).
  { rewrite Hnews, Hk2, <- app_assoc. apply heap_ext_app. }
  assert (Hext : heap_ext (rs_heap st) h7).
  { eapply heap_ext_trans; [exact Hext2|].
    eapply heap_ext_trans; [|exact Hext4].
    rewrite Hk1. apply heap_ext_app. }
  split; [exact Hext|].
  apply Forall_app. split.
  - eapply Forall_impl; [exact Hall|].
    intros e He. eapply thumbnail_block_ext; eassumption.
  - constructor; [|constructor].
    eapply thumbnail_block_ext; [exact Hext4|].
    unfold thumbnail_block. cbn [re_repre re_thumbnail re_thumbnail_src].
    rewrite Hmatch. cbn [fst].
    destruct td_opt as [td|].
    + pose proof (matching_thumbnail_item_in _ _ _ _ _ Hmatch) as Hin.
      rewrite List.Forall_forall in Hcells.
      pose proof (thumbnail_cells_ext _ _ _ _ _ _ Hext2 (Hcells _ Hin))
        as [(c & Hc & Hitem) Hsrc].
      cbn [fmap option_fmap option_map] in Hc1.
      unfold copy_opt, alloc in Hc1. rewrite Hc in Hc1.
      injection Hc1 as <- <-.
      split.
      * exists (length h2), c. split; [reflexivity|].
        split; [apply list_lookup_middle; reflexivity | exact Hitem].
      * cbn [mbind option_bind] in Hc2.
        destruct (src_component td) as [s|] eqn:Hs.
        -- destruct (Hsrc s eq_refl) as [c' Hc'].
           unfold copy_opt, alloc in Hc2.
           rewrite (lookup_app_l_Some _ _ _ _ Hc') in Hc2.
           injection Hc2 as <- _. split; discriminate.
        -- cbn [copy_opt] in Hc2. injection Hc2 as <- _.
           split; reflexivity.
    + cbn [fmap option_fmap option_map mbind option_bind copy_opt]
        in Hc1, Hc2.
      injection Hc1 as <- <-. injection Hc2 as <- _. auto.
Qed.

Lemma review_loop_thumbnails repres : forall index st st',
  review_loop E cfg instance base tdi multi multiple has_movie index repres
    st = Ok st' ->
  Forall (thumbnail_cells E instance name (rs_heap st)) tdi ->
  Forall (thumbnail_block E instance tdi multi name (rs_heap st))
    (rs_entries st) ->
  heap_ext (rs_heap st) (rs_heap st')
  /\ Forall (thumbnail_block E instance tdi multi name (rs_heap st'))
       (rs_entries st').
Proof.
  induction repres as [|repre rest IH]; intros index st st' Hrun Hcells Hall.
  - injection Hrun as <-. split; [apply heap_ext_refl | exact Hall].
  - cbn [review_loop] in Hrun.
    destruct (review_iteration _ _ _ _ _ _ _ _ _ _ _) as [st1|] eqn:Hit;
      [|discriminate].
    cbn [mbind result_bind] in Hrun.
    destruct (review_iteration_thumbnails _ _ _ _ Hit Hcells Hall)
      as [Hext1 Hall1].
    destruct (IH _ _ _ Hrun) as [Hext2 Hall2]; [|exact Hall1|].
    + eapply Forall_impl; [exact Hcells|]. intros td Htd.
      eapply thumbnail_cells_ext; eassumption.
    + split; [eapply heap_ext_trans; eassumption | exact Hall2].
Qed.

End ThumbnailBlockLoop.

(** X21: every block of review entries carries a copy of the item of the
    thumbnail data item matched to its review: named "thumbnail", flagged
    as thumbnail, on the server location, with the path and the image
    metadata of the thumbnail representation. The copy of a "_src"
    component is in the block exactly when the matched data item has one.
    When no thumbnail data item is matched the block has neither copy. *)
Theorem review_blocks_carry_matched_thumbnail
    (E : Env) (cfg : Config) (instance : Instance) (reps : list Repre)
    (run : Run) :
  process E cfg instance = Ok (Some run) ->
  representations instance = Some reps ->
  Forall
    (thumbnail_block E instance (run_thumbnail_data_items run)
       (multiple_synced_thumbnails_of (classify E instance reps))
       "thumbnail" (run_heap run))
    (run_reviews run).
Proof.
  intros Hrun Hreps.
  destruct (process_inversion E cfg instance run Hrun)
    as (reps' & v & ts & rs & h & others & Hreps' & _ & Hts & Hrs & Hoth
        & Hheap & _ & Htdi & Hrev & _).
  rewrite Hreps in Hreps'. injection Hreps' as <-.
  set (b := classify E instance reps) in *.
  rewrite Hrev, Htdi, Hheap.
  destruct (review_representations b) as [|r0 revs] eqn:Hrevs.
  { assert (Hs : surviving_reviews E b = []).
    { unfold surviving_reviews. rewrite Hrevs. reflexivity. }
    rewrite Hs in Hrs. injection Hrs as <-. constructor. }
  assert (Hcells :
    Forall (thumbnail_cells E instance "thumbnail" (ts_heap ts))
      (ts_thumbnail_data_items ts)).
  { unfold thumbnail_loop in Hts.
    pose proof (thumbnail_fold_cells E cfg instance _ _ _ _ _ Hts) as H.
    unfold have_reviews_of in H. rewrite Hrevs in H.
    apply H. constructor. }
  destruct (review_loop_thumbnails E cfg instance _ _ _ _ _ "thumbnail"
              _ _ _ _ Hrs Hcells) as [_ Hall]; [constructor|].
  destruct (other_fold_spec E cfg instance (other_representations b)
              _ _ _ _ _ _ Hoth) as (k & _ & Hk & _).
  { apply List.Forall_forall. auto. }
  cbn [fst] in Hk. rewrite Hk.
  eapply Forall_impl; [exact Hall|].
  intros e He. eapply thumbnail_block_ext; [apply heap_ext_app | exact He].
Qed.

Lemma review_blocks_carry_matched_thumbnail_witness :
  let run := Scenario.two_reviews_two_thumbnails_run true in
  Forall
    (thumbnail_block Scenario.env Scenario.two_reviews_two_thumbnails
       (run_thumbnail_data_items run) true "thumbnail" (run_heap run))
    (run_reviews run)
  /\ map re_thumbnail (run_reviews run) = [Some 4; Some 8].
Proof.
  intros run. split.
  - apply (review_blocks_carry_matched_thumbnail Scenario.env
             (Scenario.config true) Scenario.two_reviews_two_thumbnails
             [Scenario.review_a; Scenario.review_b;
              Scenario.thumbnail_a; Scenario.thumbnail_b] run);
      [vm_compute; reflexivity | reflexivity].
  - vm_compute. reflexivity.
Defined.

(** * Probe failure, shadows, renaming and paths *)

(** ** The map of the version entries *)

Lemma version_md_exact E cfg md0 l x :
  add_labeled cfg false (version_entries E) ∅ = Ok md0 ->
  md0 !! l = Some x
  <-> exists key value,
        In (key, value) (version_entries E)
        /\ mem_str key (additional_metadata_keys cfg) = true
        /\ label_of key = Ok l /\ x = MVal value.
Proof.
  intros H0. split.
  - intros Hx.
    destruct (add_labeled_lookup _ _ _ _ _ _ _ H0 Hx)
      as [Hempty|(k & v & Hin & Hkl & -> & _ & Hk)].
    + rewrite lookup_empty in Hempty. discriminate Hempty.
    + exists k, v. auto.
  - intros (key & value & Hin & Hm & Hlab & ->).
    eapply add_labeled_all; eauto.
    intros v Hv. unfold version_entries in *. simpl in *.
    destruct Hin as [Hin|[Hin|[]]]; injection Hin as <- <-;
      destruct Hv as [Hv|[Hv|[]]]; first [discriminate Hv | now injection Hv].
Qed.

(** C3, as the code has it: when the probe of the file of a video
    representation fails, the video metadata function returns early unless
    the extension of the path is ".exr": the map then holds the allow-listed
    version entries and nothing else, so no frame start, frame end,
    duration, width, height, fps or codec entry and no "ftr_meta" payload.
    For a ".exr" path it goes on: with frameStart=1001 and frameEnd=1010
    taken from the instance and "duration" allow-listed the map has the
    duration entry 10, no codec entry, and the review payload has frameIn=0
    and frameOut=10. [_prepare_component_metadata] returns the same map. *)
Theorem probe_failure_video_metadata
    (E : Env) (cfg : Config) (instance : Instance) (repre : Repre)
    (path : string)
    (Hvideo : _is_repre_video E repre = true)
    (Hprobe : get_ffprobe_streams E path = None) :
  (snd (os_path_splitext E path) <> ".exr" ->
   forall is_review, exists md,
     _prepare_video_component_metadata E cfg instance repre (Some path)
       is_review = Ok md
     /\ _prepare_component_metadata E cfg instance repre (Some path)
          is_review = Ok md
     /\ (forall l x,
           md !! l = Some x
           <-> exists key value,
                 In (key, value) (version_entries E)
                 /\ mem_str key (additional_metadata_keys cfg) = true
                 /\ label_of key = Ok l /\ x = MVal value)
     /\ md !! "Frame start" = None /\ md !! "Frame end" = None
     /\ md !! "Resolution width" = None /\ md !! "Resolution height" = None
     /\ md !! "Duration" = None /\ md !! "FPS" = None
     /\ md !! "Codec" = None /\ md !! "ftr_meta" = None)
  /\ (snd (os_path_splitext E path) = ".exr" ->
      frameStart instance = 1001%Z -> frameEnd instance = 1010%Z ->
      repre_frameStartFtrack repre = None
      \/ repre_frameEndFtrack repre = None ->
      mem_str "duration" (additional_metadata_keys cfg) = true ->
      exists md rate,
        _prepare_video_component_metadata E cfg instance repre (Some path)
          true = Ok md
        /\ _prepare_component_metadata E cfg instance repre (Some path)
             true = Ok md
        /\ md !! "Duration" = Some (MVal (PNum (NInt 10)))
        /\ md !! "Codec" = None
        /\ md !! "ftr_meta" =
             Some (MJson [("frameIn", PNum (NInt 0));
                          ("frameOut", PNum (NInt 10));
                          ("frameRate", PNum (NFloat rate))])).
Proof.
  assert (Hvs : probe_video_streams E path = []).
  { unfold probe_video_streams, probe_streams. now rewrite Hprobe. }
  assert (Hdispatch : forall is_review,
            _prepare_component_metadata E cfg instance repre (Some path)
              is_review
            = _prepare_video_component_metadata E cfg instance repre
                (Some path) is_review).
  { intros is_review. unfold _prepare_component_metadata.
    now rewrite Hvideo. }
  split.
  - intros Hext is_review.
    destruct (video_metadata_total E cfg instance repre path is_review)
      as [md Hmd].
    exists md. split; [exact Hmd|].
    split; [rewrite Hdispatch; exact Hmd|].
    unfold _prepare_video_component_metadata in Hmd.
    destruct (add_labeled cfg false (version_entries E) ∅) as [md0|] eqn:H0;
      [|discriminate].
    cbn [mbind result_bind] in Hmd. cbv zeta in Hmd.
    rewrite Hvs in Hmd.
    destruct (String.eqb_spec (snd (os_path_splitext E path)) ".exr")
      as [Heq|_]; [contradiction|].
    cbn [andb negb] in Hmd. injection Hmd as <-.
    assert (Hnone : forall key l, label_of key = Ok l ->
              (forall v, ~ In (key, v) (version_entries E)) ->
              md0 !! l = None).
    { intros key l Hl Hnot.
      destruct (md0 !! l) as [x|] eqn:Hx; [|reflexivity].
      destruct (version_md_lookup _ _ _ _ _ H0 Hx) as (k & v & Hk & Hkl).
      assert (k = key) as -> by (eapply label_of_inj; eauto).
      destruct (Hnot _ Hk). }
    split; [intros l x; apply version_md_exact; exact H0|].
    repeat split.
    + apply (Hnone "frame_start"); [reflexivity|].
      intros v [Hv|[Hv|[]]]; discriminate Hv.
    + apply (Hnone "frame_end"); [reflexivity|].
      intros v [Hv|[Hv|[]]]; discriminate Hv.
    + apply (Hnone "width"); [reflexivity|].
      intros v [Hv|[Hv|[]]]; discriminate Hv.
    + apply (Hnone "height"); [reflexivity|].
      intros v [Hv|[Hv|[]]]; discriminate Hv.
    + apply (Hnone "duration"); [reflexivity|].
      intros v [Hv|[Hv|[]]]; discriminate Hv.
    + apply (Hnone "fps"); [reflexivity|].
      intros v [Hv|[Hv|[]]]; discriminate Hv.
    + apply (Hnone "codec"); [reflexivity|].
      intros v [Hv|[Hv|[]]]; discriminate Hv.
    + destruct (md0 !! "ftr_meta") as [x|] eqn:Hx; [|reflexivity].
      destruct (version_md_lookup _ _ _ _ _ H0 Hx) as (k & v & _ & Hkl).
      destruct (label_of_not_ftr_meta _ Hkl).
  - intros Hext Hfs Hfe Hrange Hallow.
    destruct (video_metadata_total E cfg instance repre path true)
      as [md Hmd].
    assert (Hdur : vf_duration (video_fields E instance repre []) = 10%Z).
    { unfold video_fields.
      destruct Hrange as [-> | ->];
        [|destruct (repre_frameStartFtrack repre)];
        cbn; rewrite Hfs, Hfe; reflexivity. }
    assert (Hscan : vf_scan (video_fields E instance repre []) = scan_init).
    { unfold video_fields.
      destruct (repre_frameStartFtrack repre), (repre_frameEndFtrack repre);
        reflexivity. }
    pose proof Hmd as Hrun.
    unfold _prepare_video_component_metadata in Hmd.
    destruct (add_labeled cfg false (version_entries E) ∅) as [md0|] eqn:H0;
      [|discriminate].
    cbn [mbind result_bind] in Hmd. cbv zeta in Hmd.
    rewrite Hvs, Hext in Hmd.
    cbn [String.eqb Ascii.eqb Bool.eqb andb negb] in Hmd.
    destruct (add_labeled cfg true
                (video_scalars (video_fields E instance repre [])) md0)
      as [md1|] eqn:H1; [|discriminate].
    cbn [mbind result_bind negb] in Hmd.
    rewrite Hscan, Hdur in Hmd. cbn [frame_out scan_init] in Hmd.
    injection Hmd as <-.
    eexists _, _. split; [exact Hrun|].
    split; [rewrite Hdispatch; exact Hrun|]. split; [|split].
    + rewrite lookup_insert_ne by discriminate.
      eapply add_labeled_complete; eauto.
      * reflexivity.
      * intros v Hv. eapply video_scalars_functional; [exact Hv|].
        unfold video_scalars. rewrite Hdur. simpl. tauto.
      * right. unfold video_scalars. rewrite Hdur. simpl. tauto.
    + destruct (_ !! "Codec") as [x|] eqn:Hx; [|reflexivity].
      assert (Hin : In ("codec", PNone)
                      (video_scalars
                         (video_fields E instance repre
                            (probe_video_streams E path)))).
      { rewrite Hvs. unfold video_scalars. rewrite Hscan. simpl. tauto. }
      destruct (video_scalar_lookup E cfg _ _ _ _ _ _ _ _ _ Hrun Hin
                  eq_refl Hx) as (_ & Ht & _).
      discriminate Ht.
    + rewrite lookup_insert_eq. reflexivity.
Qed.

Lemma probe_failure_video_metadata_witness :
  let cfg :=
    {| product_type_mapping := [];
       keep_first_product_name_for_review := true;
       upload_reviewable_with_origin_name := false;
       asset_versions_status_profiles := [];
       additional_metadata_keys :=
         "ayon_ftrack_version" :: Scenario.all_keys |} in
  (_is_repre_video Scenario.env Scenario.review_main = true
   /\ exists md,
        _prepare_video_component_metadata Scenario.env cfg
          Scenario.one_review Scenario.review_main (Some "/pub/h264.mp4")
          true = Ok md
        /\ md !! "AYON ftrack version" = Some (MVal (PStr "1.4.0"))
        /\ md !! "AYON launcher version" = None
        /\ md !! "Duration" = None /\ md !! "FPS" = None
        /\ md !! "Codec" = None /\ md !! "ftr_meta" = None)
  /\ (_is_repre_video Scenario.exr_env Scenario.plate_exr = true
      /\ exists md rate,
           _prepare_video_component_metadata Scenario.exr_env cfg
             Scenario.one_review Scenario.plate_exr
             (Some "/pub/plate.exr") true = Ok md
           /\ _prepare_component_metadata Scenario.exr_env cfg
                Scenario.one_review Scenario.plate_exr
                (Some "/pub/plate.exr") true = Ok md
           /\ md !! "Duration" = Some (MVal (PNum (NInt 10)))
           /\ md !! "Codec" = None
           /\ md !! "ftr_meta" =
                Some (MJson [("frameIn", PNum (NInt 0));
                             ("frameOut", PNum (NInt 10));
                             ("frameRate", PNum (NFloat rate))])).
Proof.
  intros cfg. split.
  - split; [reflexivity|].
    destruct (proj1 (probe_failure_video_metadata Scenario.env cfg
                       Scenario.one_review Scenario.review_main
                       "/pub/h264.mp4" eq_refl eq_refl)
                ltac:(vm_compute; discriminate) true)
      as (md & Hmd & _ & Honly & _ & _ & _ & _ & Hd & Hf & Hc & Hp).
    exists md. split; [exact Hmd|]. split; [|split].
    + apply Honly. exists "ayon_ftrack_version", (PStr "1.4.0").
      split; [left; reflexivity|]. repeat split; reflexivity.
    + destruct (md !! "AYON launcher version") as [x|] eqn:Hx;
        [|reflexivity].
      apply Honly in Hx as (key & value & Hin & Hm & Hl & _).
      destruct Hin as [Hin|[Hin|[]]]; injection Hin as <- <-;
        [discriminate Hl | vm_compute in Hm; discriminate Hm].
    + repeat split; assumption.
  - split; [reflexivity|].
    apply (proj2 (probe_failure_video_metadata Scenario.exr_env cfg
                    Scenario.one_review Scenario.plate_exr
                    "/pub/plate.exr" eq_refl eq_refl)).
    + vm_compute. reflexivity.
    + reflexivity.
    + reflexivity.
    + left. reflexivity.
    + vm_compute. reflexivity.
Defined.

(** ** The copy of the matched "_src" component in a block *)

Section ShadowBlockLoop.

Context (E : Env) (cfg : Config) (instance : Instance).
Context (base : ComponentItem) (tdi : list ThumbData).
Context (multi multiple has_movie have_reviews : bool).

Lemma shadow_cells_ext h h' td :
  heap_ext h h' ->
  shadow_cells E cfg instance have_reviews h td ->
  shadow_cells E cfg instance have_reviews h' td.
Proof.
  intros Hext Hcells s Hs. destruct (Hcells s Hs) as (c & Hc & Hsh).
  destruct (Hext _ _ Hc) as [n Hn].
  exists (set_asset_name n c). split; [exact Hn | exact Hsh].
Qed.

Lemma shadow_block_ext h h' e :
  heap_ext h h' ->
  shadow_block E cfg instance tdi multi have_reviews h e ->
  shadow_block E cfg instance tdi multi have_reviews h' e.
Proof.
  intros Hext Hblock td s Htd Hs.
  destruct (Hblock td s Htd Hs) as (l & c & Hl & Hc & Hsh).
  destruct (Hext _ _ Hc) as [n Hn].
  exists l, (set_asset_name n c). split; [exact Hl|].
  split; [exact Hn | exact Hsh].
Qed.

Lemma review_iteration_shadows index repre st st' :
  review_iteration E cfg instance base tdi multi multiple has_movie index
    repre st = Ok st' ->
  Forall (shadow_cells E cfg instance have_reviews (rs_heap st)) tdi ->
  Forall (shadow_block E cfg instance tdi multi have_reviews (rs_heap st))
    (rs_entries st) ->
  heap_ext (rs_heap st) (rs_heap st')
  /\ Forall (shadow_block E cfg instance tdi multi have_reviews (rs_heap st'))
       (rs_entries st').
Proof.
  unfold review_iteration. intros Hrun Hcells Hall.
  destruct (negb (_is_repre_video E repre) && has_movie).
  { injection Hrun as <-. split; [apply heap_ext_refl | exact Hall]. }
  destruct (_get_matching_thumbnail_item repre tdi multi) as [td_opt w]
    eqn:Hmatch.
  destruct (rename_for_review _ _ _ _ _ _) as [ri1 h2] eqn:Hren.
  destruct (rename_for_review_spec _ _ _ _ _ _ _ _ Hren)
    as (_ & Hext2 & _).
  destruct (copy_opt (item <$> td_opt) h2) as [tc h3] eqn:Hc1.
  destruct (copy_opt_app _ _ _ _ Hc1) as (k1 & Hk1 & _).
  destruct (copy_opt (td_opt ≫= src_component) h3) as [sc h4] eqn:Hc2.
  destruct (copy_opt_app _ _ _ _ Hc2) as (k2 & Hk2 & _).
  destruct (build_review_item _ _ _ _ _) as [ri|]; [|discriminate].
  cbn [mbind result_bind] in Hrun.
  destruct (append_review _ _ _ _ _ _) as [[[[src_loc review_loc]
                                             origin_loc] h7]|] eqn:Happ;
    [|discriminate].
  cbn [mbind result_bind] in Hrun. injection Hrun as <-.
  cbn [rs_heap rs_entries].
  destruct (append_review_spec _ _ _ _ _ _ _ _ _ _ Happ)
    as (news & Hnews & _).
  assert (Hext4 : heap_ext h4 h7).
  { rewrite Hnews. apply heap_ext_app. }
  assert (Hext : heap_ext (rs_heap st) h7).
  { eapply heap_ext_trans; [exact Hext2|].
    eapply heap_ext_trans; [|exact Hext4].
    rewrite Hk2, Hk1, <- app_assoc. apply heap_ext_app. }
  split; [exact Hext|].
  apply Forall_app. split.
  - eapply Forall_impl; [exact Hall|].
    intros e He. eapply shadow_block_ext; eassumption.
  - constructor; [|constructor].
    eapply shadow_block_ext; [exact Hext4|].
    intros td s Htd Hs. cbn [re_repre] in Htd. rewrite Hmatch in Htd.
    cbn [fst] in Htd. subst td_opt.
    cbn [re_thumbnail_src].
    pose proof (matching_thumbnail_item_in _ _ _ _ _ Hmatch) as Hin.
    rewrite List.Forall_forall in Hcells.
    destruct (shadow_cells_ext _ _ _ Hext2 (Hcells _ Hin) s Hs)
      as (c & Hc & Hsh).
    cbn [mbind option_bind] in Hc2. rewrite Hs in Hc2.
    unfold copy_opt, alloc in Hc2.
    assert (Hc3 : h3 !! s = Some c).
    { rewrite Hk1. now apply lookup_app_l_Some. }
    rewrite Hc3 in Hc2. injection Hc2 as <- <-.
    exists (length h3), c. split; [reflexivity|].
    split; [apply list_lookup_middle; reflexivity | exact Hsh].
Qed.

Lemma review_loop_shadows repres : forall index st st',
  review_loop E cfg instance base tdi multi multiple has_movie index repres
    st = Ok st' ->
  Forall (shadow_cells E cfg instance have_reviews (rs_heap st)) tdi ->
  Forall (shadow_block E cfg instance tdi multi have_reviews (rs_heap st))
    (rs_entries st) ->
  heap_ext (rs_heap st) (rs_heap st')
  /\ Forall (shadow_block E cfg instance tdi multi have_reviews (rs_heap st'))
       (rs_entries st').
Proof.
  induction repres as [|repre rest IH]; intros index st st' Hrun Hcells Hall.
  - injection Hrun as <-. split; [apply heap_ext_refl | exact Hall].
  - cbn [review_loop] in Hrun.
    destruct (review_iteration _ _ _ _ _ _ _ _ _ _ _) as [st1|] eqn:Hit;
      [|discriminate].
    cbn [mbind result_bind] in Hrun.
    destruct (review_iteration_shadows _ _ _ _ Hit Hcells Hall)
      as [Hext1 Hall1].
    destruct (IH _ _ _ Hrun) as [Hext2 Hall2]; [|exact Hall1|].
    + eapply Forall_impl; [exact Hcells|]. intros td Htd.
      eapply shadow_cells_ext; eassumption.
    + split; [eapply heap_ext_trans; eassumption | exact Hall2].
Qed.

End ShadowBlockLoop.

(** ** The blocks of a run *)

Lemma process_blocks E cfg instance reps run :
  process E cfg instance = Ok (Some run) ->
  representations instance = Some reps ->
  Forall (review_block E cfg instance (run_heap run)) (run_reviews run)
  /\ Forall
       (thumbnail_block E instance (run_thumbnail_data_items run)
          (multiple_synced_thumbnails_of (classify E instance reps))
          "thumbnail" (run_heap run))
       (run_reviews run)
  /\ Forall
       (shadow_block E cfg instance (run_thumbnail_data_items run)
          (multiple_synced_thumbnails_of (classify E instance reps))
          (have_reviews_of (classify E instance reps)) (run_heap run))
       (run_reviews run).
Proof.
  intros Hrun Hreps.
  destruct (process_inversion E cfg instance run Hrun)
    as (reps' & v & ts & rs & h & others & Hreps' & _ & Hts & Hrs & Hoth
        & Hheap & _ & Htdi & Hrev & _).
  rewrite Hreps in Hreps'. injection Hreps' as <-.
  set (b := classify E instance reps) in *.
  destruct (other_fold_spec E cfg instance (other_representations b)
              _ _ _ _ _ _ Hoth) as (k & _ & Hk & _).
  { apply List.Forall_forall. auto. }
  cbn [fst] in Hk. rewrite Hrev, Htdi, Hheap, Hk.
  split; [|split].
  - destruct (review_loop_blocks E cfg instance
                (base_component_item_of E cfg instance v) _ _ _ _ eq_refl
                _ _ _ _ Hrs) as [_ Hall]; [constructor|].
    eapply Forall_impl; [exact Hall|].
    intros e He. eapply review_block_ext; [apply heap_ext_app | exact He].
  - destruct (review_representations b) as [|r0 revs] eqn:Hrevs.
    { assert (Hs : surviving_reviews E b = []).
      { unfold surviving_reviews. rewrite Hrevs. reflexivity. }
      rewrite Hs in Hrs. injection Hrs as <-. constructor. }
    assert (Hcells :
      Forall (thumbnail_cells E instance "thumbnail" (ts_heap ts))
        (ts_thumbnail_data_items ts)).
    { unfold thumbnail_loop in Hts.
      pose proof (thumbnail_fold_cells E cfg instance _ _ _ _ _ Hts) as H.
      unfold have_reviews_of in H. rewrite Hrevs in H.
      apply H. constructor. }
    destruct (review_loop_thumbnails E cfg instance _ _ _ _ _ "thumbnail"
                _ _ _ _ Hrs Hcells) as [_ Hall]; [constructor|].
    eapply Forall_impl; [exact Hall|].
    intros e He.
    eapply thumbnail_block_ext; [apply heap_ext_app | exact He].
  - assert (Hcells :
      Forall (shadow_cells E cfg instance (have_reviews_of b) (ts_heap ts))
        (ts_thumbnail_data_items ts)).
    { pose proof Hts as Hts'. unfold thumbnail_loop in Hts'.
      destruct (thumbnail_fold_inv E cfg instance
                  (thumbnail_representations b)
                  (base_component_item_of E cfg instance v)
                  (have_reviews_of b) (thumbnail_representations b) _ _ Hts')
        as ((_ & Htd & _) & _).
      { apply List.Forall_forall. auto. }
      { repeat split; cbn; try constructor; intros; try contradiction;
          discriminate. }
      apply List.Forall_forall. intros td Hin s Hs.
      destruct (Htd _ Hin) as (_ & _ & Hsrc).
      destruct (Hsrc s Hs) as (_ & c & Hc & Hsh). eauto. }
    destruct (review_loop_shadows E cfg instance _ _ _ _ _ _ _ _ _ _ Hrs
                Hcells) as [_ Hall]; [constructor|].
    eapply Forall_impl; [exact Hall|].
    intros e He. eapply shadow_block_ext; [apply heap_ext_app | exact He].
Qed.

(** ** The locations of the stored list *)

Section ThumbnailLocs.

Context (E : Env) (cfg : Config) (instance : Instance).
Context (base : ComponentItem) (have_reviews : bool).

Local Abbreviation thumb_locs st :=
  (NoDup (ts_component_list st)
   /\ (forall l, In l (ts_component_list st) -> l < length (ts_heap st))
   /\ (forall l, ts_thumbnail_item st = Some l ->
         l < length (ts_heap st) /\ ~ In l (ts_component_list st))).

Lemma thumbnail_step_locs st repre st' :
  thumbnail_step E cfg instance base have_reviews st repre = Ok st' ->
  thumb_locs st -> thumb_locs st'.
Proof.
  unfold thumbnail_step. intros Hrun (Hnd & Hlt & Hitem).
  destruct (path_truthy (get_publish_repre_path E instance repre false));
    cbn [negb] in Hrun; [|injection Hrun as <-; auto].
  cbn [alloc] in Hrun.
  destruct (mem_str "delete" (repre_tags repre)); cbn [negb] in Hrun.
  - injection Hrun as <-.
    cbn [ts_heap ts_component_list ts_thumbnail_item].
    rewrite length_app. cbn [length].
    split; [exact Hnd|]. split.
    + intros l Hl. specialize (Hlt l Hl). lia.
    + intros l [= <-]. split; [lia|].
      intros Hl. specialize (Hlt _ Hl). lia.
  - destruct (_create_src_component _ _ _ _ _ _) as [src|];
      [|discriminate].
    cbn [mbind result_bind] in Hrun. injection Hrun as <-.
    cbn [ts_heap ts_component_list ts_thumbnail_item].
    rewrite !length_app. cbn [length].
    split; [|split].
    + apply NoDup_app. split; [exact Hnd|]. split.
      * intros x Hx Hx'. apply list_elem_of_In in Hx.
        apply list_elem_of_In in Hx'. destruct Hx' as [<-|[]].
        specialize (Hlt _ Hx). lia.
      * apply NoDup_singleton.
    + intros l Hl. apply List.in_app_iff in Hl as [Hl|[<-|[]]].
      * specialize (Hlt l Hl). lia.
      * lia.
    + intros l [= <-]. split; [lia|].
      intros Hl. apply List.in_app_iff in Hl as [Hl|[Hl|[]]].
      * specialize (Hlt _ Hl). lia.
      * lia.
Qed.

Lemma thumbnail_fold_locs thumbs : forall st st',
  foldl_result (thumbnail_step E cfg instance base have_reviews) thumbs st
  = Ok st' ->
  thumb_locs st -> thumb_locs st'.
Proof.
  induction thumbs as [|repre rest IH]; intros st st' Hrun Hinv.
  - injection Hrun as <-. exact Hinv.
  - cbn [foldl_result] in Hrun.
    destruct (thumbnail_step _ _ _ _ _ _ _) as [st1|] eqn:Hstep;
      [|discriminate].
    cbn [mbind result_bind] in Hrun.
    eapply IH; [exact Hrun|]. eapply thumbnail_step_locs; eassumption.
Qed.

End ThumbnailLocs.

Section ReviewLocs.

Context (E : Env) (cfg : Config) (instance : Instance).
Context (base : ComponentItem) (tdi : list ThumbData).
Context (multi multiple has_movie : bool).

Local Abbreviation bound h :=
  (forall td, In td tdi ->
     item td < length h
     /\ forall s, src_component td = Some s -> s < length h).

Lemma review_iteration_locs index repre st st' :
  review_iteration E cfg instance base tdi multi multiple has_movie index
    repre st = Ok st' ->
  bound (rs_heap st) ->
  length (rs_heap st) <= length (rs_heap st')
  /\ flat_map entries_locs (rs_entries st')
     = (flat_map entries_locs (rs_entries st)
        ++ seq (length (rs_heap st))
             (length (rs_heap st') - length (rs_heap st)))%list.
Proof.
  intros Hrun Hbound.
  destruct (review_iteration_spec _ _ _ _ _ _ _ _ _ _ _ _ Hrun Hbound)
    as [-> | (e & td_opt & w & ri1 & h2 & added & _ & Hren & Hheap
              & Hent & _ & _ & _ & Hlocs & _)].
  - split; [lia|]. rewrite Nat.sub_diag. cbn [seq]. now rewrite app_nil_r.
  - destruct (rename_for_review_spec _ _ _ _ _ _ _ _ Hren) as (Hlen & _).
    rewrite Hheap, Hent, length_app, flat_map_app. cbn [flat_map].
    rewrite app_nil_r, Hlocs, Hlen. split; [lia|].
    do 2 f_equal. lia.
Qed.

Lemma review_loop_locs repres : forall index st st',
  review_loop E cfg instance base tdi multi multiple has_movie index repres
    st = Ok st' ->
  bound (rs_heap st) ->
  length (rs_heap st) <= length (rs_heap st')
  /\ flat_map entries_locs (rs_entries st')
     = (flat_map entries_locs (rs_entries st)
        ++ seq (length (rs_heap st))
             (length (rs_heap st') - length (rs_heap st)))%list.
Proof.
  induction repres as [|repre rest IH]; intros index st st' Hrun Hbound.
  - injection Hrun as <-. split; [lia|].
    rewrite Nat.sub_diag. cbn [seq]. now rewrite app_nil_r.
  - cbn [review_loop] in Hrun.
    destruct (review_iteration _ _ _ _ _ _ _ _ _ _ _) as [st1|] eqn:Hit;
      [|discriminate].
    cbn [mbind result_bind] in Hrun.
    destruct (review_iteration_locs _ _ _ _ Hit Hbound) as [Hle1 Hl1].
    destruct (IH _ _ _ Hrun) as [Hle2 Hl2].
    { intros td Htd. destruct (Hbound td Htd) as [Hi Hs].
      split; [lia|]. intros s Hsrc. specialize (Hs s Hsrc). lia. }
    split; [lia|]. rewrite Hl2, Hl1, <- app_assoc. f_equal.
    replace (length (rs_heap st') - length (rs_heap st))
      with ((length (rs_heap st1) - length (rs_heap st))
            + (length (rs_heap st') - length (rs_heap st1))) by lia.
    rewrite seq_app. do 2 f_equal. lia.
Qed.

End ReviewLocs.

Lemma process_locations E cfg instance reps run :
  process E cfg instance = Ok (Some run) ->
  representations instance = Some reps ->
  NoDup (ftrackComponentsList run)
  /\ forall e l,
       In e (run_reviews run) -> In l (entries_locs e) ->
       ~ In l (run_thumbnail_srcs run).
Proof.
  intros Hrun Hreps.
  destruct (process_inversion E cfg instance run Hrun)
    as (reps' & v & ts & rs & h & others & Hreps' & _ & Hts & Hrs & Hoth
        & Hheap & Hsrcs & Htdi & Hrev & Hothers & Halone).
  rewrite Hreps in Hreps'. injection Hreps' as <-.
  set (b := classify E instance reps) in *.
  unfold thumbnail_loop in Hts.
  destruct (thumbnail_fold_locs E cfg instance _ _ _ _ _ Hts)
    as (Hnd & Hlt & Hitem).
  { cbn. split; [constructor|]. split; [intros l []|discriminate]. }
  destruct (thumbnail_fold_inv E cfg instance
              (thumbnail_representations b)
              (base_component_item_of E cfg instance v)
              (have_reviews_of b) (thumbnail_representations b) _ _ Hts)
    as ((_ & Htd & _) & _).
  { apply List.Forall_forall. auto. }
  { repeat split; cbn; try constructor; intros; try contradiction;
      discriminate. }
  destruct (review_loop_locs E cfg instance _ _ _ _ _ _ _ _ _ Hrs)
    as [Hle Hlocs].
  { cbn [rs_heap]. intros td Hin. destruct (Htd _ Hin) as (_ & Hi & Hs).
    split; [exact Hi|]. intros s Hsrc. now destruct (Hs _ Hsrc). }
  cbn [rs_heap rs_entries flat_map app] in Hle, Hlocs.
  destruct (other_fold_items E cfg instance _ _ _ _ _ _ Hoth)
    as (items & _ & Hol & _).
  cbn [fst snd app] in Hol.
  assert (Hseq : forall l,
            In l (flat_map entries_locs (run_reviews run)) ->
            length (ts_heap ts) <= l < length (rs_heap rs)).
  { intros l Hl. rewrite Hrev, Hlocs in Hl.
    apply list_elem_of_In, elem_of_seq in Hl. lia. }
  split.
  - unfold ftrackComponentsList.
    rewrite Hsrcs, Hrev, Hlocs, Hothers, Hol, Halone.
    assert (Halone' : forall l,
              l ∈ match surviving_reviews E b with
                  | [] => option_list (ts_thumbnail_item ts)
                  | _ :: _ => []
                  end ->
              l < length (ts_heap ts) /\ l ∉ ts_component_list ts).
    { intros l Hl. destruct (surviving_reviews E b);
        [|now apply elem_of_nil in Hl].
      destruct (ts_thumbnail_item ts) as [l'|];
        [|now apply elem_of_nil in Hl].
      apply list_elem_of_singleton in Hl as ->.
      destruct (Hitem _ eq_refl) as [H1 H2]. split; [exact H1|].
      intros H. apply H2. now apply list_elem_of_In. }
    apply NoDup_app. split; [exact Hnd|]. split.
    { intros x Hx Hin. apply list_elem_of_In in Hx. specialize (Hlt _ Hx).
      rewrite !elem_of_app in Hin. destruct Hin as [Hin|[Hin|Hin]].
      - apply elem_of_seq in Hin. lia.
      - destruct (Halone' _ Hin) as [_ Hn]. apply Hn.
        now apply list_elem_of_In.
      - apply elem_of_seq in Hin. lia. }
    apply NoDup_app. split; [apply NoDup_seq|]. split.
    { intros x Hx Hin. apply elem_of_seq in Hx.
      rewrite elem_of_app in Hin. destruct Hin as [Hin|Hin].
      - destruct (Halone' _ Hin) as [Hl _]. lia.
      - apply elem_of_seq in Hin. lia. }
    apply NoDup_app. split.
    { destruct (surviving_reviews E b); [|constructor].
      destruct (ts_thumbnail_item ts); [apply NoDup_singleton|constructor]. }
    split; [|apply NoDup_seq].
    intros x Hx Hin. destruct (Halone' _ Hx) as [Hl _].
    apply elem_of_seq in Hin. lia.
  - intros e l He Hl Hin.
    assert (Hfm : In l (flat_map entries_locs (run_reviews run))).
    { apply in_flat_map. eauto. }
    specialize (Hseq _ Hfm). rewrite Hsrcs in Hin.
    specialize (Hlt _ Hin). lia.
Qed.

(** ** The "_src" components of the thumbnails *)

(** C1, as the code has it: for a thumbnail representation that is not
    tagged "delete" and whose path resolves, the stored list holds the
    "_src" component appended while its thumbnail item is built; and every
    review block whose review is matched to the data item of such a
    thumbnail holds one more copy of that component, at a place of the
    list of its own (no object occurs twice in the list), so the count is
    not one as soon as a review is matched. Every such component, first or
    copy, has the metadata of a component that is not a review, without
    frameIn or frameOut. *)
Theorem thumbnail_shadow_emitted
    (E : Env) (cfg : Config) (instance : Instance) (reps : list Repre)
    (run : Run) :
  process E cfg instance = Ok (Some run) ->
  representations instance = Some reps ->
  (forall repre,
     In repre reps ->
     mem_str "publish_on_farm" (repre_tags repre) = false ->
     repre_thumbnail repre || mem_str "thumbnail" (repre_tags repre) = true ->
     mem_str "delete" (repre_tags repre) = false ->
     path_truthy (get_publish_repre_path E instance repre false) = true ->
     exists l c,
       In l (ftrackComponentsList run)
       /\ In l (run_thumbnail_srcs run)
       /\ run_heap run !! l = Some c
       /\ thumbnail_shadow E cfg instance
            (have_reviews_of (classify E instance reps)) repre c
       /\ no_frame_payload (component_metadata c))
  /\ (forall e td,
        In e (run_reviews run) ->
        fst (_get_matching_thumbnail_item (re_repre e)
               (run_thumbnail_data_items run)
               (multiple_synced_thumbnails_of (classify E instance reps)))
        = Some td ->
        mem_str "delete" (repre_tags (representation td)) = false ->
        In (representation td)
          (thumbnail_representations (classify E instance reps))
        /\ path_truthy
             (get_publish_repre_path E instance (representation td) false)
           = true
        /\ exists l c,
             re_thumbnail_src e = Some l
             /\ In l (ftrackComponentsList run)
             /\ ~ In l (run_thumbnail_srcs run)
             /\ run_heap run !! l = Some c
             /\ thumbnail_shadow E cfg instance
                  (have_reviews_of (classify E instance reps))
                  (representation td) c
             /\ no_frame_payload (component_metadata c))
  /\ (forall e l,
        In e (run_reviews run) -> re_thumbnail_src e = Some l ->
        exists c thumb,
          In l (ftrackComponentsList run)
          /\ In thumb (thumbnail_representations (classify E instance reps))
          /\ run_heap run !! l = Some c
          /\ thumbnail_shadow E cfg instance
               (have_reviews_of (classify E instance reps)) thumb c
          /\ no_frame_payload (component_metadata c))
  /\ NoDup (ftrackComponentsList run).
Proof.
  intros Hrun Hreps.
  destruct (process_facts E cfg instance run reps Hrun Hreps)
    as (v & ts & _ & Hsrcs & Htdi & (_ & Htd & _) & Hshadows
        & (Hext & _ & Hentries) & _).
  cbn [rs_heap rs_entries] in Hext, Hentries.
  destruct (process_blocks E cfg instance reps run Hrun Hreps)
    as (_ & _ & Hsblocks).
  destruct (process_locations E cfg instance reps run Hrun Hreps)
    as [Hnodup Hfresh].
  assert (Hpayload : forall repre c,
            thumbnail_shadow E cfg instance
              (have_reviews_of (classify E instance reps)) repre c ->
            no_frame_payload (component_metadata c)).
  { intros repre c (_ & _ & _ & _ & Hmd).
    eapply non_review_metadata_no_frames; eauto. }
  assert (Hin_list : forall e l,
            In e (run_reviews run) -> re_thumbnail_src e = Some l ->
            In l (entries_locs e) /\ In l (ftrackComponentsList run)).
  { intros e l He Hl.
    assert (Hloc : In l (entries_locs e)).
    { unfold entries_locs. rewrite Hl.
      rewrite !List.in_app_iff. simpl. tauto. }
    split; [exact Hloc|].
    unfold ftrackComponentsList. apply in_or_app. right.
    apply in_or_app. left. apply in_flat_map. eauto. }
  split; [|split; [|split; [|exact Hnodup]]].
  - intros repre Hin Hfarm Hthumb Hdel Hpath.
    destruct (Hshadows repre) as (l & c & Hl & Hc & Hsh); try assumption.
    { apply classify_fold_thumbnail. right. auto. }
    destruct (heap_ext_blind _ _ _ _ _
                (thumbnail_shadow_blind E cfg instance _ repre) Hext Hc Hsh)
      as (c' & Hc' & Hsh').
    exists l, c'. rewrite Hsrcs.
    split; [|split; [exact Hl|split; [exact Hc'|split; [exact Hsh'|]]]].
    + unfold ftrackComponentsList. rewrite Hsrcs.
      apply in_or_app. now left.
    + eapply Hpayload; eauto.
  - intros e td He Hmatch Hdel.
    assert (Hin : In td (run_thumbnail_data_items run)).
    { destruct (_get_matching_thumbnail_item _ _ _) as [o w] eqn:Hm.
      cbn [fst] in Hmatch. subst o.
      eapply matching_thumbnail_item_in. exact Hm. }
    destruct (process_inversion E cfg instance run Hrun)
      as (reps' & v' & ts' & _ & _ & _ & Hreps' & _ & Hts & _ & _ & _ & _
          & Htdi' & _).
    rewrite Hreps in Hreps'. injection Hreps' as <-.
    unfold thumbnail_loop in Hts.
    destruct (thumbnail_fold_item E cfg instance _ _ _ _ _ Hts)
      as (_ & _ & tds & Htds & Hmap & Hdata & _).
    cbn [ts_thumbnail_data_items app] in Htds.
    rewrite Htdi', Htds in Hin.
    assert (Hrep : In (representation td) (map representation tds))
      by now apply in_map.
    rewrite Hmap in Hrep. apply List.filter_In in Hrep as [Hbucket Hpath].
    split; [exact Hbucket|]. split; [exact Hpath|].
    rewrite List.Forall_forall in Hdata.
    destruct (Hdata _ Hin) as [_ Hsrc].
    destruct (src_component td) as [s|] eqn:Hs.
    2:{ rewrite (proj1 Hsrc eq_refl) in Hdel. discriminate Hdel. }
    rewrite List.Forall_forall in Hsblocks.
    destruct (Hsblocks e He td s Hmatch Hs) as (l & c & Hl & Hc & Hsh).
    destruct (Hin_list e l He Hl) as [Hloc Hlist].
    exists l, c. split; [exact Hl|]. split; [exact Hlist|].
    split; [exact (Hfresh e l He Hloc)|]. split; [exact Hc|].
    split; [exact Hsh | eapply Hpayload; exact Hsh].
  - intros e l He Hl.
    destruct (Hentries _ He) as [_ Hsrc].
    destruct (Hsrc _ Hl) as (td & s & c0 & n & Hin & Hs & Hc0 & Hc).
    destruct (Htd _ Hin) as (Hrep & _ & Hshadow).
    destruct (Hshadow _ Hs) as (_ & c1 & Hc1 & Hsh).
    rewrite Hc0 in Hc1. injection Hc1 as <-.
    exists (set_asset_name n c0), (representation td).
    split; [exact (proj2 (Hin_list e l He Hl))|].
    split; [exact Hrep|split; [exact Hc|split]].
    + exact (thumbnail_shadow_blind _ _ _ _ _ n c0 Hsh).
    + eapply Hpayload.
      exact (thumbnail_shadow_blind _ _ _ _ _ n c0 Hsh).
Qed.

Lemma thumbnail_shadow_emitted_witness :
  let run := Scenario.one_review_run in
  let reps := [Scenario.review_main; Scenario.thumbnail_main] in
  let b := classify Scenario.env Scenario.one_review reps in
  (exists l c,
     In l (ftrackComponentsList run)
     /\ In l (run_thumbnail_srcs run)
     /\ run_heap run !! l = Some c
     /\ thumbnail_shadow Scenario.env (Scenario.config true)
          Scenario.one_review (have_reviews_of b) Scenario.thumbnail_main c
     /\ no_frame_payload (component_metadata c))
  /\ (exists e c,
        head (run_reviews run) = Some e
        /\ re_thumbnail_src e = Some 3
        /\ In 3 (ftrackComponentsList run)
        /\ ~ In 3 (run_thumbnail_srcs run)
        /\ run_heap run !! 3 = Some c
        /\ thumbnail_shadow Scenario.env (Scenario.config true)
             Scenario.one_review (have_reviews_of b)
             Scenario.thumbnail_main c
        /\ no_frame_payload (component_metadata c))
  /\ NoDup (ftrackComponentsList run).
Proof.
  intros run reps b.
  pose proof (thumbnail_shadow_emitted Scenario.env (Scenario.config true)
                Scenario.one_review reps run) as (H1 & H2 & _ & H4);
    [vm_compute; reflexivity | reflexivity |].
  split; [|split; [|exact H4]].
  - apply (H1 Scenario.thumbnail_main).
    + right. left. reflexivity.
    + reflexivity.
    + reflexivity.
    + reflexivity.
    + reflexivity.
  - destruct (head (run_reviews run)) as [e|] eqn:He;
      [|vm_compute in He; discriminate He].
    assert (Hin : In e (run_reviews run)).
    { destruct (run_reviews run) as [|e' rest]; [discriminate He|].
      left. now injection He. }
    vm_compute in He. injection He as <-.
    destruct (H2 _ {| sync_key := Some "main";
                      representation := Scenario.thumbnail_main;
                      item := 0; src_component := Some 1 |} Hin)
      as (_ & _ & l & c & Hl & Hlist & Hfresh & Hc & Hsh & Hp);
      [vm_compute; reflexivity | reflexivity |].
    vm_compute in Hl. injection Hl as <-.
    eexists _, c. split; [reflexivity|]. split; [reflexivity|].
    split; [exact Hlist|]. split; [exact Hfresh|]. split; [exact Hc|].
    split; [exact Hsh | exact Hp].
Defined.

(** ** The extended name in a block *)

(** C7: when the renaming triggers for a review (more than one surviving
    review and an extended name that is not None), its block holds the
    review item, a copy of the item of the thumbnail data item matched to
    the review and, when that data item has one, a copy of its "_src"
    component, and all of them carry the extended name as asset name in the
    final heap; so does the "_src" component of the review, which is in the
    block unless the review is tagged "delete". Only when no thumbnail data
    item is matched does the block hold no thumbnail copy. *)
Theorem renaming_propagates
    (E : Env) (cfg : Config) (instance : Instance) (reps : list Repre)
    (v : Z) (run : Run) (e : ReviewEntries) (n : string) :
  process E cfg instance = Ok (Some run) ->
  representations instance = Some reps ->
  version instance = Some v ->
  In e (run_reviews run) ->
  multiple_reviewable_of E (classify E instance reps) = true ->
  _make_extended_component_name cfg
    (base_component_item_of E cfg instance v) (re_repre e) (re_index e)
  = Some n ->
  let matched :=
    fst (_get_matching_thumbnail_item (re_repre e)
           (run_thumbnail_data_items run)
           (multiple_synced_thumbnails_of (classify E instance reps))) in
  n = productName instance ++ "_" ++ repre_name (re_repre e)
  /\ (exists c, run_heap run !! re_review e = Some c /\ asset_name c = n)
  /\ (forall td, matched = Some td ->
        (exists l c,
           re_thumbnail e = Some l /\ run_heap run !! l = Some c
           /\ asset_name c = n
           /\ thumbnail_item_of E instance "thumbnail" (representation td) c)
        /\ (forall s, src_component td = Some s ->
              exists l c,
                re_thumbnail_src e = Some l /\ run_heap run !! l = Some c
                /\ asset_name c = n
                /\ thumbnail_shadow E cfg instance
                     (have_reviews_of (classify E instance reps))
                     (representation td) c))
  /\ (matched = None -> re_thumbnail e = None /\ re_thumbnail_src e = None)
  /\ (mem_str "delete" (repre_tags (re_repre e)) = false ->
      exists l c,
        re_src e = Some l /\ run_heap run !! l = Some c /\ asset_name c = n)
  /\ (forall l, re_thumbnail e = Some l ->
        exists c, run_heap run !! l = Some c /\ asset_name c = n)
  /\ (forall l, re_thumbnail_src e = Some l ->
        exists c, run_heap run !! l = Some c /\ asset_name c = n)
  /\ (forall l, re_src e = Some l ->
        exists c, run_heap run !! l = Some c /\ asset_name c = n).
Proof.
  intros Hrun Hreps Hv He Hmult Hn. cbv zeta.
  destruct (process_facts E cfg instance run reps Hrun Hreps)
    as (v' & ts & Hv' & _ & _ & _ & _ & (_ & _ & Hentries) & _).
  rewrite Hv in Hv'. injection Hv' as <-.
  cbn [rs_heap rs_entries] in Hentries.
  destruct (Hentries _ He) as [Hlocs _].
  destruct (process_blocks E cfg instance reps run Hrun Hreps)
    as (Hrblocks & Htblocks & Hsblocks).
  rewrite List.Forall_forall in Hrblocks, Htblocks, Hsblocks.
  specialize (Hrblocks _ He). specialize (Htblocks _ He).
  specialize (Hsblocks _ He).
  assert (Hall : forall l, In l (entries_locs e) ->
            exists c, run_heap run !! l = Some c /\ asset_name c = n).
  { intros l Hl. destruct (Hlocs _ Hl) as (_ & c & Hc & Hname).
    exists c. split; [exact Hc|]. now apply Hname. }
  assert (Hthumb : forall l, re_thumbnail e = Some l ->
            exists c, run_heap run !! l = Some c /\ asset_name c = n).
  { intros l Hl. apply Hall. unfold entries_locs. rewrite Hl.
    rewrite !List.in_app_iff. simpl. tauto. }
  assert (Hthumb_src : forall l, re_thumbnail_src e = Some l ->
            exists c, run_heap run !! l = Some c /\ asset_name c = n).
  { intros l Hl. apply Hall. unfold entries_locs. rewrite Hl.
    rewrite !List.in_app_iff. simpl. tauto. }
  assert (Hsrc : forall l, re_src e = Some l ->
            exists c, run_heap run !! l = Some c /\ asset_name c = n).
  { intros l Hl. apply Hall. unfold entries_locs. rewrite Hl.
    rewrite !List.in_app_iff. simpl. tauto. }
  split; [|split; [|split; [|split; [|split; [|split; [|split]]]]]].
  - unfold _make_extended_component_name in Hn.
    destruct (_ && _); [discriminate|]. now injection Hn as <-.
  - apply Hall. unfold entries_locs.
    rewrite !List.in_app_iff. simpl. tauto.
  - intros td Hmatch. unfold thumbnail_block in Htblocks.
    rewrite Hmatch in Htblocks.
    destruct Htblocks as [(l & c & Hl & Hc & Hitem) _]. split.
    + destruct (Hthumb l Hl) as (c' & Hc' & Hname).
      rewrite Hc in Hc'. injection Hc' as <-. eauto 6.
    + intros s Hs.
      destruct (Hsblocks td s Hmatch Hs) as (l' & c' & Hl' & Hc' & Hsh).
      destruct (Hthumb_src l' Hl') as (c'' & Hc'' & Hname).
      rewrite Hc' in Hc''. injection Hc'' as <-. eauto 6.
  - intros Hmatch. unfold thumbnail_block in Htblocks.
    rewrite Hmatch in Htblocks. exact Htblocks.
  - intros Hdel. destruct Hrblocks as (c0 & _ & _ & Hre & _).
    destruct (re_src e) as [l|] eqn:Hl; [|congruence].
    destruct (Hsrc l eq_refl) as (c & Hc & Hname). eauto.
  - exact Hthumb.
  - exact Hthumb_src.
  - exact Hsrc.
Qed.

Lemma renaming_propagates_witness :
  let run := Scenario.two_reviews_two_thumbnails_run true in
  let n := "reviewMain_prores" in
  exists e,
    nth_error (run_reviews run) 1 = Some e
    /\ (exists c, run_heap run !! re_review e = Some c /\ asset_name c = n)
    /\ (exists l c,
          re_thumbnail e = Some l /\ l = 8 /\ run_heap run !! l = Some c
          /\ asset_name c = n
          /\ thumbnail_item_of Scenario.env
               Scenario.two_reviews_two_thumbnails "thumbnail"
               Scenario.thumbnail_b c)
    /\ (exists l c,
          re_thumbnail_src e = Some l /\ l = 9 /\ run_heap run !! l = Some c
          /\ asset_name c = n)
    /\ (exists l c,
          re_src e = Some l /\ run_heap run !! l = Some c
          /\ asset_name c = n).
Proof.
  intros run n.
  destruct (nth_error (run_reviews run) 1) as [e|] eqn:He;
    [|vm_compute in He; discriminate He].
  exists e. split; [reflexivity|].
  pose proof (nth_error_In _ _ He) as Hin.
  destruct (renaming_propagates Scenario.env (Scenario.config true)
              Scenario.two_reviews_two_thumbnails
              [Scenario.review_a; Scenario.review_b;
               Scenario.thumbnail_a; Scenario.thumbnail_b]
              3%Z run e n)
    as (_ & Hreview & Hmatched & _ & Hsrc & _);
    [vm_compute; reflexivity | reflexivity | reflexivity | exact Hin
    | vm_compute; reflexivity
    | vm_compute in He; injection He as <-; vm_compute; reflexivity |].
  vm_compute in He. injection He as <-.
  split; [exact Hreview|].
  destruct (Hmatched {| sync_key := Some "b";
                        representation := Scenario.thumbnail_b;
                        item := 2; src_component := Some 3 |})
    as [(l & c & Hl & Hc & Hname & Hitem) Hshadow];
    [vm_compute; reflexivity|].
  split.
  { exists l, c. split; [exact Hl|].
    split; [vm_compute in Hl; now injection Hl as <-|].
    split; [exact Hc|]. split; [exact Hname | exact Hitem]. }
  split.
  { destruct (Hshadow 3 eq_refl) as (l' & c' & Hl' & Hc' & Hname' & _).
    exists l', c'. split; [exact Hl'|].
    split; [vm_compute in Hl'; now injection Hl' as <-|].
    split; [exact Hc' | exact Hname']. }
  apply Hsrc. reflexivity.
Defined.

(** ** The path of every entry *)

Lemma process_thumbnail_facts E cfg instance reps run :
  process E cfg instance = Ok (Some run) ->
  representations instance = Some reps ->
  let b := classify E instance reps in
  let resolved :=
    List.filter
      (fun t => path_truthy (get_publish_repre_path E instance t false))
      (thumbnail_representations b) in
  (forall l, In l (run_thumbnail_srcs run) ->
     exists td,
       In td (run_thumbnail_data_items run) /\ src_component td = Some l)
  /\ (forall td, In td (run_thumbnail_data_items run) ->
        In (representation td) resolved
        /\ shadow_cells E cfg instance (have_reviews_of b) (run_heap run) td)
  /\ (forall l, In l (run_thumbnail_alone run) ->
        exists r c,
          list.last resolved = Some r
          /\ run_heap run !! l = Some c
          /\ component_path c = get_publish_repre_path E instance r false).
Proof.
  intros Hrun Hreps. cbv zeta.
  destruct (process_inversion E cfg instance run Hrun)
    as (reps' & v & ts & rs & h & others & Hreps' & _ & Hts & Hrs & Hoth
        & Hheap & Hsrcs & Htdi & _ & _ & Halone).
  rewrite Hreps in Hreps'. injection Hreps' as <-.
  set (b := classify E instance reps) in *.
  unfold thumbnail_loop in Hts.
  destruct (thumbnail_fold_item E cfg instance _ _ _ _ _ Hts)
    as (_ & Hlast & tds & Htds & Hmap & _ & Hcl).
  cbn [ts_thumbnail_data_items ts_component_list ts_thumbnail_item app]
    in Htds, Hcl, Hlast.
  destruct (thumbnail_fold_inv E cfg instance
              (thumbnail_representations b)
              (base_component_item_of E cfg instance v)
              (have_reviews_of b) (thumbnail_representations b) _ _ Hts)
    as ((_ & Htd & _) & _).
  { apply List.Forall_forall. auto. }
  { repeat split; cbn; try constructor; intros; try contradiction;
      discriminate. }
  assert (Hcells :
    Forall (shadow_cells E cfg instance (have_reviews_of b) (ts_heap ts))
      (ts_thumbnail_data_items ts)).
  { apply List.Forall_forall. intros td Hin s Hs.
    destruct (Htd _ Hin) as (_ & _ & Hsrc).
    destruct (Hsrc s Hs) as (_ & c & Hc & Hsh). eauto. }
  destruct (review_loop_shadows E cfg instance _ _ _ _ _ _ _ _ _ _ Hrs
              Hcells) as [Hext1 _]; [constructor|].
  cbn [rs_heap] in Hext1.
  destruct (other_fold_spec E cfg instance (other_representations b)
              _ _ _ _ _ _ Hoth) as (k & _ & Hk & _).
  { apply List.Forall_forall. auto. }
  cbn [fst] in Hk.
  assert (Hext : heap_ext (ts_heap ts) (run_heap run)).
  { rewrite Hheap, Hk. eapply heap_ext_trans; [exact Hext1|].
    apply heap_ext_app. }
  split; [|split].
  - intros l Hl. rewrite Hsrcs, Hcl in Hl.
    apply list_elem_of_In, list_elem_of_omap in Hl as (td & Hin & Hs).
    exists td. rewrite Htdi, Htds.
    split; [now apply list_elem_of_In | exact Hs].
  - intros td Hin. rewrite Htdi in Hin. split.
    + rewrite <- Hmap. apply in_map. now rewrite <- Htds.
    + rewrite List.Forall_forall in Hcells.
      eapply shadow_cells_ext; [exact Hext | exact (Hcells _ Hin)].
  - intros l Hl. rewrite Halone in Hl.
    destruct (surviving_reviews E b); [|destruct Hl].
    destruct (ts_thumbnail_item ts) as [l'|] eqn:Hitem; [|destruct Hl].
    destruct Hl as [<-|[]].
    destruct (list.last _) as [r|]; [|discriminate Hlast].
    destruct Hlast as (l'' & c & [= <-] & Hc & _ & _ & _ & Hp & _).
    destruct (Hext _ _ Hc) as [n Hn].
    exists r, (set_asset_name n c). split; [reflexivity|].
    split; [exact Hn | exact Hp].
Qed.

(** C9: every entry of a stored component list, the "_src" components
    included, has a component path that is not None and not empty: the
    path [get_publish_repre_path] resolves for the representation the
    entry is built from. *)
Theorem component_paths_resolved
    (E : Env) (cfg : Config) (instance : Instance) (reps : list Repre)
    (run : Run) (l : loc) :
  process E cfg instance = Ok (Some run) ->
  representations instance = Some reps ->
  In l (ftrackComponentsList run) ->
  exists c r only_published p,
    run_heap run !! l = Some c
    /\ In c (components run)
    /\ entry_source E instance (classify E instance reps) run l r
         only_published
    /\ In r reps
    /\ get_publish_repre_path E instance r only_published = Some p
    /\ p <> ""
    /\ component_path c = Some p.
Proof.
  intros Hrun Hreps Hl.
  set (b := classify E instance reps).
  assert (Hgoal :
    exists c r only_published,
      run_heap run !! l = Some c
      /\ entry_source E instance b run l r only_published
      /\ In r reps
      /\ path_truthy (get_publish_repre_path E instance r only_published)
         = true
      /\ component_path c
         = get_publish_repre_path E instance r only_published).
  2:{ destruct Hgoal as (c & r & op & Hc & Hsrc & Hin & Ht & Hp).
      destruct (path_truthy_Some _ Ht) as (p & Hpp & Hpt).
      exists c, r, op, p. split; [exact Hc|]. split.
      { unfold components. apply list_elem_of_In, list_elem_of_omap.
        exists l. split; [now apply list_elem_of_In | exact Hc]. }
      split; [exact Hsrc|]. split; [exact Hin|]. split; [exact Hpp|].
      split; [intros ->; discriminate Hpt | congruence]. }
  destruct (classify_within E instance reps) as (Hbr & Hbt & Hbo).
  fold b in Hbr, Hbt, Hbo.
  rewrite List.Forall_forall in Hbr, Hbt, Hbo.
  destruct (process_thumbnail_facts E cfg instance reps run Hrun Hreps)
    as (Hsrcs & Htdi & Halone).
  cbv zeta in Htdi, Halone. fold b in Htdi, Halone.
  destruct (process_blocks E cfg instance reps run Hrun Hreps)
    as (Hrblocks & Htblocks & Hsblocks).
  fold b in Htblocks, Hsblocks.
  rewrite List.Forall_forall in Hrblocks, Htblocks, Hsblocks.
  assert (Htd_facts : forall td,
            In td (run_thumbnail_data_items run) ->
            In (representation td) reps
            /\ path_truthy
                 (get_publish_repre_path E instance (representation td)
                    false) = true).
  { intros td Hin. destruct (Htdi td Hin) as [Hres _].
    apply List.filter_In in Hres as [Hbucket Hpath]. auto. }
  unfold ftrackComponentsList in Hl.
  apply List.in_app_iff in Hl as [Hl|Hl];
    [|apply List.in_app_iff in Hl as [Hl|Hl];
      [|apply List.in_app_iff in Hl as [Hl|Hl]]].
  - (* a "_src" component of the thumbnail loop *)
    destruct (Hsrcs l Hl) as (td & Hin & Hs).
    destruct (Htdi td Hin) as [_ Hcell].
    destruct (Hcell l Hs) as (c & Hc & _ & Hp & _).
    destruct (Htd_facts td Hin) as [Hr Ht].
    exists c, (representation td), false. split; [exact Hc|].
    split; [left; exists td; auto|]. auto.
  - (* an entry of a block *)
    apply in_flat_map in Hl as (e & He & Hl).
    specialize (Hrblocks e He). specialize (Htblocks e He).
    specialize (Hsblocks e He).
    assert (Hreview : In (re_repre e) reps
              /\ path_truthy
                   (get_publish_repre_path E instance (re_repre e) false)
                 = true).
    { destruct (process_inversion E cfg instance run Hrun)
        as (reps' & v & ts & rs & h & others & Hreps' & _ & _ & Hrs & _ & _
            & _ & _ & Hrev & _).
      rewrite Hreps in Hreps'. injection Hreps' as <-.
      destruct (review_loop_entries E cfg instance _ _ _ _ _ _ _ _ _ Hrs
                  (surviving_reviews_not_skipped E _)) as (Hmap & _).
      cbn [rs_entries map app] in Hmap.
      assert (Hin : In (re_repre e) (surviving_reviews E b)).
      { unfold b. rewrite <- Hmap, <- Hrev. now apply in_map. }
      unfold surviving_reviews in Hin.
      apply List.filter_In in Hin as [Hin _].
      exact (Hbr _ Hin). }
    destruct Hreview as [Hr Ht].
    assert (Hmatched : forall td,
              fst (_get_matching_thumbnail_item (re_repre e)
                     (run_thumbnail_data_items run)
                     (multiple_synced_thumbnails_of b)) = Some td ->
              In td (run_thumbnail_data_items run)).
    { intros td Hm.
      destruct (_get_matching_thumbnail_item _ _ _) as [o w] eqn:Hmatch.
      cbn [fst] in Hm. subst o.
      eapply matching_thumbnail_item_in. exact Hmatch. }
    unfold thumbnail_block in Htblocks.
    destruct Hrblocks as (ci & Hci & Hitem & Hsrc & Horigin).
    cbv zeta in Hsrc, Horigin.
    destruct Hitem as (_ & _ & _ & Hpi & _). cbv zeta in Hpi.
    unfold entries_locs in Hl.
    apply List.in_app_iff in Hl as [Hl|Hl];
      [|apply List.in_app_iff in Hl as [Hl|Hl];
        [|apply List.in_app_iff in Hl as [Hl|Hl];
          [|apply List.in_app_iff in Hl as [Hl|Hl]]]].
    + (* the copy of the matched thumbnail item *)
      destruct (re_thumbnail e) as [l'|] eqn:Hth; [|destruct Hl].
      destruct Hl as [<-|[]].
      destruct (fst (_get_matching_thumbnail_item _ _ _)) as [td|] eqn:Hm;
        [|destruct Htblocks as [Hnone _]; discriminate Hnone].
      destruct Htblocks as [(l'' & c & [= <-] & Hc & Hit) _].
      destruct Hit as (_ & _ & _ & Hp & _). cbv zeta in Hp.
      destruct (Htd_facts td (Hmatched td eq_refl)) as [Hrt Htt].
      exists c, (representation td), false. split; [exact Hc|].
      split; [|auto].
      right. left. exists e, td. rewrite Hth. auto 6.
    + (* the copy of its "_src" component *)
      destruct (re_thumbnail_src e) as [l'|] eqn:Hth; [|destruct Hl].
      destruct Hl as [<-|[]].
      destruct (fst (_get_matching_thumbnail_item _ _ _)) as [td|] eqn:Hm;
        [|destruct Htblocks as [_ Hnone]; discriminate Hnone].
      destruct Htblocks as [_ Hiff].
      destruct (src_component td) as [s|] eqn:Hs;
        [|destruct Hiff as [_ Hiff]; discriminate (Hiff eq_refl)].
      destruct (Hsblocks td s Hm Hs) as (l'' & c & Hl'' & Hc & Hsh).
      rewrite Hth in Hl''. injection Hl'' as <-.
      destruct Hsh as (_ & Hp & _).
      destruct (Htd_facts td (Hmatched td eq_refl)) as [Hrt Htt].
      exists c, (representation td), false. split; [exact Hc|].
      split; [|auto].
      right. left. exists e, td. rewrite Hth. auto 6.
    + (* the "_src" component of the review *)
      destruct (re_src e) as [l'|] eqn:Hre; [|destruct Hl].
      destruct Hl as [<-|[]].
      destruct Hsrc as (_ & s & Hs & _ & _ & _ & Hp & _).
      exists s, (re_repre e), false. split; [exact Hs|].
      split; [|auto].
      right. right. left. exists e. rewrite Hre. auto 6.
    + (* the review item *)
      destruct Hl as [<-|[]].
      exists ci, (re_repre e), false. split; [exact Hci|].
      split; [|auto].
      right. right. left. exists e. auto 6.
    + (* the component with the origin name *)
      destruct (re_origin e) as [l'|] eqn:Hro; [|destruct Hl].
      destruct Hl as [<-|[]].
      destruct Horigin as (_ & o & q & Ho & _ & _ & _ & _ & _ & Hp).
      exists o, (re_repre e), false. split; [exact Ho|].
      split; [|auto].
      right. right. left. exists e. rewrite Hro. auto 6.
  - (* the thumbnail item appended alone *)
    destruct (Halone l Hl) as (r & c & Hlast & Hc & Hp).
    assert (Hin : In r (List.filter
                          (fun t => path_truthy
                                      (get_publish_repre_path E instance t
                                         false))
                          (thumbnail_representations b))).
    { apply list_elem_of_In. eapply last_Some_elem_of. exact Hlast. }
    apply List.filter_In in Hin as [Hbucket Hpath].
    exists c, r, false. split; [exact Hc|].
    split; [|auto].
    right. right. right. left. auto.
  - (* the component of an other representation *)
    destruct (process_inversion E cfg instance run Hrun)
      as (reps' & v & ts & rs & h & others & Hreps' & _ & _ & _ & Hoth
          & Hheap & _ & _ & _ & Hothers & _).
    rewrite Hreps in Hreps'. injection Hreps' as <-.
    destruct (other_fold_items E cfg instance _ _ _ _ _ _ Hoth)
      as (items & Hh & Hol & Hall).
    cbn [fst snd app] in Hh, Hol.
    rewrite Hothers, Hol in Hl.
    apply list_elem_of_In, elem_of_seq in Hl.
    set (i := l - length (rs_heap rs)).
    assert (Hi : i < length items) by (unfold i; lia).
    destruct (lookup_lt_is_Some_2 items i Hi) as [c Hc].
    destruct (Forall2_lookup_r _ _ _ _ _ Hall Hc) as (r & Hr & Hof).
    destruct Hof as (_ & Hp & _).
    assert (Hin : In r (List.filter
                          (fun o => path_truthy
                                      (get_publish_repre_path E instance o
                                         true))
                          (other_representations b))).
    { apply list_elem_of_In. eapply list_elem_of_lookup_2. exact Hr. }
    apply List.filter_In in Hin as [Hbucket Hpath].
    exists c, r, true. split.
    { rewrite Hheap, Hh. rewrite lookup_app_r by lia. exact Hc. }
    split; [|auto].
    right. right. right. right. exists i.
    split; [|auto].
    rewrite Hothers, Hol. rewrite lookup_seq_lt by exact Hi.
    f_equal. unfold i. lia.
Qed.

Lemma component_paths_resolved_witness :
  let run := Scenario.one_review_run in
  exists c,
    run_heap run !! 5 = Some c
    /\ In c (components run)
    /\ component_name c = "ftrackreview-mp4"
    /\ entry_source Scenario.env Scenario.one_review
         (classify Scenario.env Scenario.one_review
            [Scenario.review_main; Scenario.thumbnail_main])
         run 5 Scenario.review_main false
    /\ component_path c = Some "/pub/h264.mp4".
Proof.
  intros run.
  destruct (component_paths_resolved Scenario.env (Scenario.config true)
              Scenario.one_review
              [Scenario.review_main; Scenario.thumbnail_main] run 5)
    as (c & r & op & p & Hc & Hin & Hsrc & _ & _ & _ & Hp);
    [vm_compute; reflexivity | reflexivity | vm_compute; auto 10 |].
  exists c. split; [exact Hc|]. split; [exact Hin|].
  vm_compute in Hc. injection Hc as <-.
  split; [reflexivity|]. split; [|reflexivity].
  right. right. left.
  eexists. split; [left; reflexivity|].
  split; [right; left; reflexivity|]. split; reflexivity.
Defined.
